(** * Email LLM processor: a shallow embedding of
      [src/email_summary/email_llm_processor.py]

    The file follows the Python class [EmailLLMProcessor] method by method.

    - Python [str] values are lists of Unicode code points ([Py.str]), so that
      [len], slicing, [find], [split], [strip] count characters as Python does.
    - JSON values ([Json.value]) are what [json.loads] builds; a [dict] keeps
      its insertion order (an association list).
    - The outside world (the clock, [time.sleep], [requests.post], the file
      system, [datetime.now]) is reached through the constructors of [io]; a
      run of a program is a trace of the answers the world gave ([runs]).
    - The instance's [usage_tracker] is threaded through the monad [M], below
      the exceptions: an assignment made before a [raise] stays made.
    - [sys.stdout] is a UTF-8 text stream with the strict error handler:
      a [print] fails exactly when its text holds a surrogate code point
      ([py_print]). The prints whose text is made of the program's own
      words and numbers cannot fail and are left out. *)

From Stdlib Require Import String Ascii.
From Stdlib Require Import List ZArith NArith QArith Qminmax Bool Lia Lqa.
From Stdlib Require Import Relations.Relation_Operators.
From ExtLib Require Import Structures.Monad Structures.MonadExc Structures.MonadState.
Import ListNotations.
Import MonadNotation.

Set Implicit Arguments.
Set Warnings "-register-all".

(* ===================================================================== *)
(** ** Python strings *)
(* ===================================================================== *)

Module Py.

(** A Python [str]: its code points, in order. *)
Definition str : Type := list N.

(** Decoding of the UTF-8 bytes of a literal of this file into code points:
    [pending] continuation bytes are still due for the code point [acc]. *)
Fixpoint utf8_go (bs : list N) (pending : nat) (acc : N) : str :=
  match bs with
  | [] => []
  | b :: bs' =>
      match pending with
      | O =>
          if (b <? 128)%N then b :: utf8_go bs' 0 0%N
          else if (b <? 224)%N then utf8_go bs' 1 (b mod 32)%N
          else if (b <? 240)%N then utf8_go bs' 2 (b mod 16)%N
          else utf8_go bs' 3 (b mod 8)%N
      | S p =>
          let acc' := (acc * 64 + b mod 64)%N in
          match p with
          | O => acc' :: utf8_go bs' 0 0%N
          | S _ => utf8_go bs' p acc'
          end
      end
  end.

(** A string literal of the source. *)
Definition lit (s : string) : str :=
  utf8_go (map N_of_ascii (list_ascii_of_string s)) 0 0%N.

(** A literal of the source that holds double quotes: a string of this
    file cannot, so [^] stands for each of them. *)
Definition quoted (s : string) : str :=
  map (fun c => if (c =? 94)%N then 34%N else c) (lit s).

(** The line feed. *)
Definition nl : str := [10%N].

Definition eqb (a b : str) : bool :=
  if list_eq_dec N.eq_dec a b then true else false.

(** [len(s)] *)
Definition len (s : str) : Z := Z.of_nat (length s).

(** [s.startswith(p)] *)
Fixpoint startswith (p s : str) : bool :=
  match p, s with
  | [], _ => true
  | _ :: _, [] => false
  | a :: p', b :: s' => (a =? b)%N && startswith p' s'
  end.

(** The least index [i >= 0] at which [sub] occurs in [s], counted from the
    head of [s]. *)
Fixpoint index_of (sub s : str) : option nat :=
  if startswith sub s then Some O
  else match s with
       | [] => None
       | _ :: s' => option_map S (index_of sub s')
       end.

(** The greatest index at which [sub] occurs in [s]. *)
Fixpoint rindex_of (sub s : str) : option nat :=
  match s with
  | [] => if startswith sub s then Some O else None
  | _ :: s' =>
      match rindex_of sub s' with
      | Some i => Some (S i)
      | None => if startswith sub s then Some O else None
      end
  end.

(** [sub in s] *)
Definition contains (sub s : str) : bool :=
  match index_of sub s with Some _ => true | None => false end.

(** [s.find(sub)]: the index, or [-1]. *)
Definition find (sub s : str) : Z :=
  match index_of sub s with Some i => Z.of_nat i | None => (-1)%Z end.

(** [s.find(sub, start)] for [start >= 0]. *)
Definition find_from (sub s : str) (start : Z) : Z :=
  if (Z.of_nat (length s) <? start)%Z then (-1)%Z
  else match index_of sub (skipn (Z.to_nat start) s) with
       | Some i => (start + Z.of_nat i)%Z
       | None => (-1)%Z
       end.

(** [s.rfind(sub)] *)
Definition rfind (sub s : str) : Z :=
  match rindex_of sub s with Some i => Z.of_nat i | None => (-1)%Z end.

(** A slice bound as Python reads it against a string of [n] characters:
    a negative bound counts from the end, and every bound is clipped. *)
Definition clip (n : nat) (i : Z) : nat :=
  if (i <? 0)%Z then Z.to_nat (Z.max 0 (Z.of_nat n + i)) else Nat.min n (Z.to_nat i).

(** [s[a:b]] *)
Definition slice (a b : Z) (s : str) : str :=
  let n := length s in
  firstn (clip n b - clip n a) (skipn (clip n a) s).

(** [s[:b]] *)
Definition slice_to (b : Z) (s : str) : str := slice 0 b s.

(** [str.isspace] on one character: the code points Python's [strip()]
    removes. *)
Definition isspace (c : N) : bool :=
  ((9 <=? c) && (c <=? 13) || (28 <=? c) && (c <=? 32) || (c =? 133) || (c =? 160)
   || (c =? 5760) || (8192 <=? c) && (c <=? 8202) || (c =? 8232) || (c =? 8233)
   || (c =? 8239) || (c =? 8287) || (c =? 12288))%N.

Fixpoint lstrip (s : str) : str :=
  match s with
  | [] => []
  | c :: s' => if isspace c then lstrip s' else s
  end.

Definition rstrip (s : str) : str := rev (lstrip (rev s)).

(** [s.strip()] *)
Definition strip (s : str) : str := rstrip (lstrip s).

(** Truth value of a string: non-empty. *)
Definition truthy (s : str) : bool :=
  match s with [] => false | _ :: _ => true end.

(** [s.split(sep)] for a non-empty [sep]: [cur] holds, reversed, the piece
    being read; [skip] characters of a separator found are still to be
    passed over. *)
Fixpoint split_go (sep s cur : str) (skip : nat) : list str :=
  match s with
  | [] => [rev cur]
  | c :: s' =>
      match skip with
      | S k => split_go sep s' cur k
      | O =>
          if startswith sep s
          then rev cur :: split_go sep s' [] (length sep - 1)
          else split_go sep s' (c :: cur) 0
      end
  end.

Definition split (sep s : str) : list str := split_go sep s [] 0.

(** [sep.join(parts)] *)
Fixpoint join (sep : str) (parts : list str) : str :=
  match parts with
  | [] => []
  | [p] => p
  | p :: rest => p ++ sep ++ join sep rest
  end.

(** [s.replace(old, new)] for a non-empty [old]. *)
Definition replace (old new s : str) : str := join new (split old s).

(** Decimal digits of a natural number, most significant first; [fuel]
    bounds the number of digits. *)
Fixpoint digits_go (fuel : nat) (n : N) (acc : str) : str :=
  match fuel with
  | O => acc
  | S f =>
      let acc' := (48 + n mod 10)%N :: acc in
      if (n <? 10)%N then acc' else digits_go f (n / 10)%N acc'
  end.

(** [str(n)] for an [int]. *)
Definition str_of_Z (z : Z) : str :=
  let n := Z.to_N (Z.abs z) in
  let ds := digits_go (S (N.to_nat (N.log2 n))) n [] in
  if (z <? 0)%Z then 45%N :: ds else ds.

(** Digits of [n], padded with zeros on the left to [width] characters
    (the [%02d], [%04d] and [%06d] fields of a timestamp). *)
Definition zero_pad (width : nat) (n : N) : str :=
  let ds := str_of_Z (Z.of_N n) in
  repeat 48%N (width - length ds) ++ ds.

End Py.

Abbreviation str := Py.str.
Abbreviation lit := Py.lit.
Abbreviation quoted := Py.quoted.
Abbreviation nl := Py.nl.

(* ===================================================================== *)
(** ** JSON values *)
(* ===================================================================== *)

Module Json.

(** What [json.loads] builds. A [float] is kept as the literal it was read
    from; a [dict] is the list of its items in insertion order. *)
Inductive value : Type :=
| JNull
| JBool (b : bool)
| JInt (z : Z)
| JFloat (literal : str)
| JStr (s : str)
| JList (items : list value)
| JDict (items : list (str * value)).

(** [d.get(key)]: [None] when the key is absent. *)
Fixpoint dict_lookup (key : str) (d : list (str * value)) : option value :=
  match d with
  | [] => None
  | (k, v) :: d' => if Py.eqb k key then Some v else dict_lookup key d'
  end.

(** [d.get(key, default)] *)
Definition dict_get (key : str) (default : value) (d : list (str * value)) : value :=
  match dict_lookup key d with Some v => v | None => default end.

(** [d[key] = v]: an existing key keeps its place. *)
Fixpoint dict_set (key : str) (v : value) (d : list (str * value)) : list (str * value) :=
  match d with
  | [] => [(key, v)]
  | (k, w) :: d' => if Py.eqb k key then (k, v) :: d' else (k, w) :: dict_set key v d'
  end.

(** Truth value of a JSON value: [None], [False], zero, and the empty
    string, list and dict are false. A [float] literal is zero when it has
    no digit but [0] before its exponent. *)
Definition is_true (v : value) : bool :=
  match v with
  | JNull => false
  | JBool b => b
  | JInt z => negb (z =? 0)%Z
  | JFloat l =>
      existsb (fun c => (49 <=? c) && (c <=? 57) || (c =? 78) || (c =? 73))%N
        (firstn (match Py.index_of [101%N] l, Py.index_of [69%N] l with
                 | Some i, Some j => Nat.min i j
                 | Some i, None | None, Some i => i
                 | None, None => Datatypes.length l
                 end) l)
  | JStr s => Py.truthy s
  | JList l => match l with [] => false | _ :: _ => true end
  | JDict d => match d with [] => false | _ :: _ => true end
  end.

(** *** [json.loads]

    The decoder of CPython's [json] module with its default settings, as
    its C scanner runs it: the grammar of RFC 8259 plus the literals
    [NaN], [Infinity] and [-Infinity]; strict strings (no raw control
    character); a repeated key keeps its first place and its last value.

    Decoding fails in three ways. A document that is not JSON is a
    [JSONDecodeError]: a message and the index of the offending character.
    The scanner enters one level of the interpreter's recursion for every
    object and array it opens, and a container nested deeper than the
    interpreter has room for is a [RecursionError]. An integer literal of
    more digits than [sys.get_int_max_str_digits()] allows is the
    [ValueError] of [int]. *)

Inductive decode_error : Type := DecodeError (msg : str) (pos : nat).

Inductive failure : Type :=
| Malformed (e : decode_error)        (* json.JSONDecodeError *)
| TooDeep (container : str)           (* RecursionError, on opening an object or an array *)
| TooManyDigits (limit digits : N).   (* ValueError *)

(** [n] is the length of the whole document: a suffix [s] of it starts at
    index [n - length s]. *)
Definition pos_of (n : nat) (s : str) : nat := n - Datatypes.length s.

Definition malformed {A : Type} (msg : string) (pos : nat) : failure + A :=
  inl (Malformed (DecodeError (Py.lit msg) pos)).

Definition is_ws (c : N) : bool :=
  ((c =? 32) || (c =? 9) || (c =? 10) || (c =? 13))%N.

Fixpoint skip_ws (s : str) : str :=
  match s with
  | c :: s' => if is_ws c then skip_ws s' else s
  | [] => []
  end.

Definition is_digit (c : N) : bool := ((48 <=? c) && (c <=? 57))%N.

Definition hex_value (c : N) : option N :=
  if is_digit c then Some (c - 48)%N
  else if ((97 <=? c) && (c <=? 102))%N then Some (c - 87)%N
  else if ((65 <=? c) && (c <=? 70))%N then Some (c - 55)%N
  else None.

Definition hex4 (a b c d : N) : option N :=
  match hex_value a, hex_value b, hex_value c, hex_value d with
  | Some x, Some y, Some z, Some w => Some (((x * 16 + y) * 16 + z) * 16 + w)%N
  | _, _, _, _ => None
  end.

(** The character a one-letter escape stands for. *)
Definition escape (c : N) : option N :=
  if (c =? 34)%N then Some 34%N          (* quote *)
  else if (c =? 92)%N then Some 92%N     (* backslash *)
  else if (c =? 47)%N then Some 47%N     (* slash *)
  else if (c =? 98)%N then Some 8%N      (* b *)
  else if (c =? 102)%N then Some 12%N    (* f *)
  else if (c =? 110)%N then Some 10%N    (* n *)
  else if (c =? 114)%N then Some 13%N    (* r *)
  else if (c =? 116)%N then Some 9%N     (* t *)
  else None.

Definition is_high_surrogate (u : N) : bool := ((55296 <=? u) && (u <=? 56319))%N.
Definition is_low_surrogate (u : N) : bool := ((56320 <=? u) && (u <=? 57343))%N.

(** The body of a string, read from just after its opening quote (at
    index [start]); [acc] holds the characters read, reversed. *)
Fixpoint scanstring (n start : nat) (s acc : str) : decode_error + (str * str) :=
  match s with
  | [] => inl (DecodeError (lit "Unterminated string starting at") start)
  | c :: s1 =>
      if (c =? 34)%N then inr (rev acc, s1)
      else if (c =? 92)%N then
        match s1 with
        | [] => inl (DecodeError (lit "Unterminated string starting at") start)
        | e :: s2 =>
            if (e =? 117)%N then
              match s2 with
              | h1 :: h2 :: h3 :: h4 :: (_ :: _) as s3 =>
                  match hex4 h1 h2 h3 h4 with
                  | None => inl (DecodeError (lit "Invalid \uXXXX escape") (pos_of n s1))
                  | Some u =>
                      match s3 with
                      | b :: v :: g1 :: g2 :: g3 :: g4 :: (_ :: _) as s4 =>
                          if is_high_surrogate u && (b =? 92)%N && (v =? 117)%N then
                            match hex4 g1 g2 g3 g4 with
                            | None =>
                                inl (DecodeError (lit "Invalid \uXXXX escape") (pos_of n s3 + 1))
                            | Some u2 =>
                                if is_low_surrogate u2
                                then scanstring n start s4
                                       ((65536 + (u - 55296) * 1024 + (u2 - 56320))%N :: acc)
                                else scanstring n start s3 (u :: acc)
                            end
                          else scanstring n start s3 (u :: acc)
                      | _ => scanstring n start s3 (u :: acc)
                      end
                  end
              | _ => inl (DecodeError (lit "Invalid \uXXXX escape") (pos_of n s1))
              end
            else
              match escape e with
              | Some ch => scanstring n start s2 (ch :: acc)
              | None => inl (DecodeError (lit "Invalid \escape") (pos_of n s))
              end
        end
      else if (c <? 32)%N then
        inl (DecodeError (lit "Invalid control character at") (pos_of n s))
      else scanstring n start s1 (c :: acc)
  end.

(** The longest run of digits at the head of [s], and what follows. *)
Fixpoint span_digits (s : str) : str * str :=
  match s with
  | c :: s' =>
      if is_digit c then let (ds, rest) := span_digits s' in (c :: ds, rest)
      else ([], s)
  | [] => ([], [])
  end.

Definition digits_value (ds : str) : Z :=
  fold_left (fun acc c => (acc * 10 + Z.of_N (c - 48))%Z) ds 0%Z.

(** [int(literal)] for the digits [ds] of a literal: with a limit of
    [max_digits] (0 for none) a literal of more digits is refused; no
    literal of 640 digits or fewer ever is. *)
Definition int_of_digits (max_digits : N) (neg : bool) (ds : str) : failure + value :=
  let digits := N.of_nat (Datatypes.length ds) in
  if ((640 <? digits) && (0 <? max_digits) && (max_digits <? digits))%N
  then inl (TooManyDigits max_digits digits)
  else inr (JInt (if neg then - digits_value ds else digits_value ds)).

(** A number at the head of [s]: an optional minus sign, then [0] or a
    run of digits that starts with none, then an optional fraction (a dot
    and digits) and an optional exponent ([e] or [E], an optional sign,
    digits). It is an [int] when it has neither fraction nor exponent. *)
Definition match_number (max_digits : N) (s : str) : option (failure + (value * str)) :=
  let (neg, s1) := match s with
                   | c :: t => if (c =? 45)%N then (true, t) else (false, s)
                   | [] => (false, s)
                   end in
  let int_part :=
    match s1 with
    | c :: t =>
        if (c =? 48)%N then Some ([c], t)
        else if is_digit c then Some (span_digits s1)
        else None
    | [] => None
    end in
  match int_part with
  | None => None
  | Some (ds, s2) =>
      let (frac, s3) :=
        match s2 with
        | c :: t =>
            if (c =? 46)%N then
              match span_digits t with
              | ([], _) => ([], s2)
              | (fs, rest) => (c :: fs, rest)
              end
            else ([], s2)
        | [] => ([], s2)
        end in
      let (exp, s4) :=
        match s3 with
        | c :: t =>
            if ((c =? 101) || (c =? 69))%N then
              let (sign, t') :=
                match t with
                | g :: u => if ((g =? 43) || (g =? 45))%N then ([g], u) else ([], t)
                | [] => ([], t)
                end in
              match span_digits t' with
              | ([], _) => ([], s3)
              | (es, rest) => (c :: sign ++ es, rest)
              end
            else ([], s3)
        | [] => ([], s3)
        end in
      let sign := if neg then [45%N] else [] in
      match frac, exp with
      | [], [] =>
          match int_of_digits max_digits neg ds with
          | inl f => Some (inl f)
          | inr v => Some (inr (v, s4))
          end
      | _, _ => Some (inr (JFloat (sign ++ ds ++ frac ++ exp), s4))
      end
  end.

(** The items of an object from the start of a key on; [scan] reads one
    value and [acc] holds the items read. Every item takes characters of
    [s], so [fuel], which bounds the number of items, is enough when it
    is the length of [s]. *)
Fixpoint object_items (scan : str -> failure + (value * str)) (fuel n : nat) (s : str)
    (acc : list (str * value)) : failure + (value * str) :=
  let expecting_name :=
    malformed "Expecting property name enclosed in double quotes" (pos_of n s) in
  match fuel with
  | O => expecting_name
  | S f =>
      match s with
      | [] => expecting_name
      | c :: s1 =>
          if negb (c =? 34)%N then expecting_name
          else
            match scanstring n (pos_of n s) s1 [] with
            | inl e => inl (Malformed e)
            | inr (key, s2) =>
                match skip_ws s2 with
                | [] => malformed "Expecting ':' delimiter" (pos_of n (skip_ws s2))
                | d :: s3 =>
                    if negb (d =? 58)%N
                    then malformed "Expecting ':' delimiter" (pos_of n (skip_ws s2))
                    else
                      match scan (skip_ws s3) with
                      | inl e => inl e
                      | inr (v, s4) =>
                          let acc' := dict_set key v acc in
                          match skip_ws s4 with
                          | [] => malformed "Expecting ',' delimiter" (pos_of n (skip_ws s4))
                          | g :: s5 =>
                              if (g =? 125)%N then inr (JDict acc', s5)
                              else if (g =? 44)%N then object_items scan f n (skip_ws s5) acc'
                              else malformed "Expecting ',' delimiter" (pos_of n (skip_ws s4))
                          end
                      end
                end
            end
      end
  end.

(** The items of an array from the start of a value on. *)
Fixpoint array_items (scan : str -> failure + (value * str)) (fuel n : nat) (s : str)
    (acc : list value) : failure + (value * str) :=
  match fuel with
  | O => malformed "Expecting value" (pos_of n s)
  | S f =>
      match scan s with
      | inl e => inl e
      | inr (v, s1) =>
          match skip_ws s1 with
          | [] => malformed "Expecting ',' delimiter" (pos_of n (skip_ws s1))
          | g :: s2 =>
              if (g =? 93)%N then inr (JList (acc ++ [v]), s2)
              else if (g =? 44)%N then array_items scan f n (skip_ws s2) (acc ++ [v])
              else malformed "Expecting ',' delimiter" (pos_of n (skip_ws s1))
          end
      end
  end.

(** One value at the head of [s]. [room] is the number of containers, one
    inside the other, the interpreter can still enter: an object or an
    array met when there is none left is the [RecursionError]. *)
Fixpoint scan_once (room : nat) (max_digits : N) (n : nat) (s : str)
  : failure + (value * str) :=
  let expecting_value := malformed "Expecting value" (pos_of n s) in
  match s with
  | [] => expecting_value
  | c :: s1 =>
      if (c =? 34)%N then
        match scanstring n (pos_of n s) s1 [] with
        | inl e => inl (Malformed e)
        | inr (text, rest) => inr (JStr text, rest)
        end
      else if (c =? 123)%N then
        match room with
        | O => inl (TooDeep (lit "object"))
        | S inner =>
            match skip_ws s1 with
            | d :: s2 =>
                if (d =? 125)%N then inr (JDict [], s2)
                else object_items (scan_once inner max_digits n)
                       (Datatypes.length s1) n (skip_ws s1) []
            | [] => object_items (scan_once inner max_digits n) (Datatypes.length s1) n [] []
            end
        end
      else if (c =? 91)%N then
        match room with
        | O => inl (TooDeep (lit "array"))
        | S inner =>
            match skip_ws s1 with
            | d :: s2 =>
                if (d =? 93)%N then inr (JList [], s2)
                else array_items (scan_once inner max_digits n)
                       (Datatypes.length s1) n (skip_ws s1) []
            | [] => array_items (scan_once inner max_digits n) (Datatypes.length s1) n [] []
            end
        end
      else if Py.startswith (lit "null") s then inr (JNull, skipn 4 s)
      else if Py.startswith (lit "true") s then inr (JBool true, skipn 4 s)
      else if Py.startswith (lit "false") s then inr (JBool false, skipn 5 s)
      else if Py.startswith (lit "NaN") s then inr (JFloat (lit "NaN"), skipn 3 s)
      else if Py.startswith (lit "Infinity") s then inr (JFloat (lit "Infinity"), skipn 8 s)
      else if Py.startswith (lit "-Infinity") s then inr (JFloat (lit "-Infinity"), skipn 9 s)
      else match match_number max_digits s with
           | Some r => r
           | None => expecting_value
           end
  end.

(** [json.loads(s)] *)
Definition loads (room : nat) (max_digits : N) (s : str) : failure + value :=
  if Py.startswith [65279%N] s
  then malformed "Unexpected UTF-8 BOM (decode using utf-8-sig)" 0
  else
    let n := Datatypes.length s in
    match scan_once room max_digits n (skip_ws s) with
    | inl e => inl e
    | inr (v, rest) =>
        match skip_ws rest with
        | [] => inr v
        | _ :: _ => malformed "Extra data" (pos_of n (skip_ws rest))
        end
    end.

(** [str(e)] for the [JSONDecodeError] of document [doc]:
    ["msg: line L column C (char P)"]. *)
Definition error_text (doc : str) (e : decode_error) : str :=
  let (msg, pos) := e in
  let before := firstn pos doc in
  let lineno := (Datatypes.length (filter (fun c => (c =? 10)%N) before) + 1)%nat in
  let colno := match Py.rindex_of [10%N] before with
               | Some i => (pos - i)%nat
               | None => (pos + 1)%nat
               end in
  msg ++ lit ": line " ++ Py.str_of_Z (Z.of_nat lineno)
      ++ lit " column " ++ Py.str_of_Z (Z.of_nat colno)
      ++ lit " (char " ++ Py.str_of_Z (Z.of_nat pos) ++ lit ")".

End Json.

Import Json.

(* ===================================================================== *)
(** ** The outside world and the processor's monad *)
(* ===================================================================== *)

(** The exceptions of the program, all of them subclasses of [Exception]:
    the bare [Exception] and the [ValueError] the source raises itself,
    [json.JSONDecodeError], and whatever else a library call raises
    ([requests]' errors, [OSError], [KeyError], ...), by class name. *)
Inductive exn : Type :=
| Exception (msg : str)
| ValueError (msg : str)
| JSONDecodeError (msg : str)
| LibraryError (class msg : str).

(** [str(e)] *)
Definition exn_message (e : exn) : str :=
  match e with
  | Exception m | ValueError m | JSONDecodeError m | LibraryError _ m => m
  end.

(** The outcome of a statement: an exception raised, or a value. *)
Definition result (A : Type) : Type := (exn + A)%type.

(** *** [print]

    [sys.stdout] is a text stream in UTF-8 with the strict error handler,
    as the emoji the program prints need, and it stays open. [print(text)]
    then fails exactly on a text that holds a surrogate code point, which
    UTF-8 does not carry: the [UnicodeEncodeError] names the first run of
    them. *)

Definition is_surrogate (c : N) : bool := ((55296 <=? c) && (c <=? 57343))%N.

(** A text UTF-8 can carry: it holds no surrogate. *)
Definition encodable (s : str) : bool := negb (existsb is_surrogate s).

(** The length of the run of surrogates at the head of [s]. *)
Fixpoint surrogate_run (s : str) : nat :=
  match s with
  | c :: s' => if is_surrogate c then S (surrogate_run s') else O
  | [] => O
  end.

Definition hex_digit (n : N) : N := if (n <? 10)%N then (48 + n)%N else (87 + n)%N.

(** [str(e)] for the run of [k] surrogates that starts with [c] at index
    [i] of the text. *)
Definition encode_error_text (i : nat) (c : N) (k : nat) : str :=
  lit "'utf-8' codec can't encode "
    ++ (if (k =? 1)%nat
        then lit "character '\u"
               ++ [ hex_digit (c / 4096); hex_digit ((c / 256) mod 16);
                    hex_digit ((c / 16) mod 16); hex_digit (c mod 16) ]
               ++ lit "' in position " ++ Py.str_of_Z (Z.of_nat i)
        else lit "characters in position " ++ Py.str_of_Z (Z.of_nat i)
               ++ lit "-" ++ Py.str_of_Z (Z.of_nat (i + k - 1)))
    ++ lit ": surrogates not allowed".

(** What encoding [s], the text from index [i] on, raises, if anything. *)
Fixpoint encode_failure (i : nat) (s : str) : option exn :=
  match s with
  | [] => None
  | c :: s' =>
      if is_surrogate c
      then Some (LibraryError (lit "UnicodeEncodeError")
                   (encode_error_text i c (surrogate_run s)))
      else encode_failure (S i) s'
  end.

(** [print(text)] *)
Definition py_print (text : str) : result unit :=
  match encode_failure 0 text with
  | Some e => inl e
  | None => inr tt
  end.

(** The arguments of one [requests.post] call. *)
Record request : Type := Request {
  url : str;
  headers : list (str * str);
  params : list (str * str);
  json_body : Json.value
}.

(** What the source reads of the object [requests.post] returns:
    [raise_for_status()] (the error it raises on a non-2xx status, if any)
    and the completion text found, or the exception raised, on walking the
    provider's envelope in [response.json()]. *)
Record response : Type := Response {
  raise_for_status : option exn;
  envelope_text : result str
}.

(** A naive [datetime]. *)
Record datetime : Type := Datetime {
  year : N; month : N; day : N; hour : N; minute : N; second : N; microsecond : N
}.

(** The calls a method makes to the outside world. *)
Inductive call : Type :=
| TimeTime                                  (* time.time() *)
| TimeSleep (seconds : Q)                   (* time.sleep(seconds) *)
| RequestsPost (r : request)                (* requests.post(...) *)
| DatetimeNow                               (* datetime.now() *)
| ReadFile (path : str)                     (* open(path, 'r').read() *)
| OpenWrite (path : str)                    (* open(path, 'w') *)
| WriteClose (path : str) (content : str)   (* the f.write calls, and close *)
| JsonDump (path : str) (v : Json.value).   (* open, json.dump(v, f), close *)

(** What the world answers to a call: a value, or for the calls that can
    fail the exception raised instead. *)
Definition answer (c : call) : Type :=
  match c with
  | TimeTime => Q
  | TimeSleep _ => unit
  | RequestsPost _ => result response
  | DatetimeNow => datetime
  | ReadFile _ => result str
  | OpenWrite _ | WriteClose _ _ | JsonDump _ _ => option exn
  end.

(** A program that talks to the outside world: it is done, or makes one
    call and goes on with the answer. *)
Inductive io (A : Type) : Type :=
| Done (a : A)
| Call (c : call) (k : answer c -> io A).

Arguments Done {A} a.
Arguments Call {A} c k.

Fixpoint io_bind {A B : Type} (p : io A) (f : A -> io B) : io B :=
  match p with
  | Done a => f a
  | Call c k => Call c (fun x => io_bind (k x) f)
  end.

(** One call and the answer the world gave. *)
Inductive event : Type := Event (c : call) (x : answer c).

Definition ETime (t : Q) : event := Event TimeTime t.
Definition ESleep (seconds : Q) : event := Event (TimeSleep seconds) tt.
Definition EPost (r : request) (x : result response) : event := Event (RequestsPost r) x.
Definition ERead (path : str) (x : result str) : event := Event (ReadFile path) x.
Definition EDump (path : str) (v : Json.value) (x : option exn) : event :=
  Event (JsonDump path v) x.

(** The call of an event. *)
Definition event_call (e : event) : call := let (c, _) := e in c.

(** [runs p tr a]: the program [p] ends with [a] when the world answers as
    the trace [tr] records. *)
Inductive runs {A : Type} : io A -> list event -> A -> Prop :=
| runs_done a : runs (Done a) [] a
| runs_call c k x tr a : runs (k x) tr a -> runs (Call c k) (Event c x :: tr) a.

(** The [usage_tracker] dict of an instance: its five keys. *)
Record UsageTracker : Type := Tracker {
  requests_this_minute : Z;
  tokens_this_minute : Z;
  requests_today : Z;
  last_request_time : Q;
  minute_start_time : Q
}.

(** The fields of an [EmailLLMProcessor] the methods read or write.
    [api_key] is [None] when neither the argument nor the environment gave
    one; [provider] is already lower-cased. [base_urls] and [rate_limits]
    are never assigned after [__init__]: they are constants below. *)
Record EmailLLMProcessor : Type := Processor {
  api_key : option str;
  provider : str;
  usage_tracker : UsageTracker
}.

(** A method body: it reads and writes [self], talks to the world, and
    ends by raising or returning. What it wrote to [self] before raising
    stays written. *)
Record M (A : Type) : Type := Method {
  run : EmailLLMProcessor -> io (EmailLLMProcessor * result A)
}.

Arguments Method {A} run.
Arguments run {A} m self.

#[export] Instance Monad_M : Monad M := {
  ret := fun _ a => Method (fun self => Done (self, inr a));
  bind := fun _ _ c f => Method (fun self =>
    io_bind (run c self) (fun '(self', r) =>
      match r with
      | inl e => Done (self', inl e)
      | inr a => run (f a) self'
      end))
}.

(** [raise e], and [try: c except Exception as e: h e]. *)
#[export] Instance MonadExc_M : MonadExc exn M := {
  raise := fun _ e => Method (fun self => Done (self, inl e));
  catch := fun _ c h => Method (fun self =>
    io_bind (run c self) (fun '(self', r) =>
      match r with
      | inl e => run (h e) self'
      | inr a => Done (self', inr a)
      end))
}.

#[export] Instance MonadState_M : MonadState EmailLLMProcessor M := {
  get := Method (fun self => Done (self, inr self));
  put := fun self' => Method (fun _ => Done (self', inr tt))
}.

(** A call to the world, as a method statement. *)
Definition perform (c : call) : M (answer c) :=
  Method (fun self => Call c (fun x => Done (self, inr x))).

(** A call that can fail, as a statement that can raise. *)
Definition raise_if (x : option exn) : M unit :=
  match x with
  | Some e => raise e
  | None => ret tt
  end.

Definition lift {A : Type} (x : result A) : M A :=
  match x with
  | inl e => raise e
  | inr a => ret a
  end.

Definition time_time : M Q := perform TimeTime.
Definition time_sleep (seconds : Q) : M unit := perform (TimeSleep seconds).
Definition requests_post (r : request) : M response :=
  bind (perform (RequestsPost r)) lift.
Definition datetime_now : M datetime := perform DatetimeNow.
Definition read_file (path : str) : M str := bind (perform (ReadFile path)) lift.
Definition open_write (path : str) : M unit := bind (perform (OpenWrite path)) raise_if.
Definition write_close (path content : str) : M unit :=
  bind (perform (WriteClose path content)) raise_if.
Definition json_dump (path : str) (v : Json.value) : M unit :=
  bind (perform (JsonDump path v)) raise_if.

(** [try: c], with the exception, if any, as a value. *)
Definition attempt {A : Type} (c : M A) : M (result A) :=
  catch (bind c (fun a => ret (inr a))) (fun e => ret (inl e)).

(** [if c: body] *)
Definition when (c : bool) (body : M unit) : M unit :=
  if c then body else ret tt.

Open Scope monad_scope.

(** [self.usage_tracker] *)
Definition tracker : M UsageTracker :=
  self <- get ;; ret (usage_tracker self).

Definition update_tracker (f : UsageTracker -> UsageTracker) : M unit :=
  self <- get ;;
  put (Processor (api_key self) (provider self) (f (usage_tracker self))).

(** [self.usage_tracker['requests_this_minute'] = v], and so on. *)
Definition set_requests_this_minute (v : Z) : M unit :=
  update_tracker (fun u => Tracker v (tokens_this_minute u) (requests_today u)
                                   (last_request_time u) (minute_start_time u)).
Definition set_tokens_this_minute (v : Z) : M unit :=
  update_tracker (fun u => Tracker (requests_this_minute u) v (requests_today u)
                                   (last_request_time u) (minute_start_time u)).
Definition set_requests_today (v : Z) : M unit :=
  update_tracker (fun u => Tracker (requests_this_minute u) (tokens_this_minute u) v
                                   (last_request_time u) (minute_start_time u)).
Definition set_last_request_time (v : Q) : M unit :=
  update_tracker (fun u => Tracker (requests_this_minute u) (tokens_this_minute u)
                                   (requests_today u) v (minute_start_time u)).
Definition set_minute_start_time (v : Q) : M unit :=
  update_tracker (fun u => Tracker (requests_this_minute u) (tokens_this_minute u)
                                   (requests_today u) (last_request_time u) v).

(** Comparisons of timestamps. *)
Definition Qge_bool (a b : Q) : bool := Qle_bool b a.
Definition Qgt_bool (a b : Q) : bool := negb (Qle_bool a b).
Definition Qlt_bool (a b : Q) : bool := negb (Qle_bool b a).

(* ===================================================================== *)
(** ** [EmailLLMProcessor]: rate limiting *)
(* ===================================================================== *)

(** [self.rate_limits['google']] *)
Record RateLimits : Type := Limits {
  requests_per_minute : Z;
  tokens_per_minute : Z;
  requests_per_day : Z;
  min_delay_between_requests : Q
}.

Definition rate_limits_google : RateLimits :=
  Limits 15 250000 1000 4.

Definition daily_limit_error : exn :=
  Exception (lit "Daily request limit (1000) exceeded. Please try again tomorrow.").

(** [__init__]: the counters start at zero and the minute window at the
    time of construction. *)
Definition __init__ (key : option str) (provider_lower : str) : io EmailLLMProcessor :=
  Call TimeTime (fun now => Done (Processor key provider_lower (Tracker 0 0 0 0 now))).

(** [_check_rate_limits] *)
Definition _check_rate_limits : M unit :=
  current_time <- time_time ;;
  let limits := rate_limits_google in
  (* Reset minute counter if a minute has passed *)
  ut <- tracker ;;
  when (Qge_bool (current_time - minute_start_time ut) 60)
    (set_requests_this_minute 0 ;;
     set_tokens_this_minute 0 ;;
     set_minute_start_time current_time) ;;
  (* Check daily limit *)
  ut <- tracker ;;
  when (requests_today ut >=? requests_per_day limits)%Z
    (raise daily_limit_error) ;;
  (* Check minute limits *)
  ut <- tracker ;;
  when (requests_this_minute ut >=? requests_per_minute limits)%Z
    (let wait_time := 60 - (current_time - minute_start_time ut) in
     when (Qgt_bool wait_time 0)
       (time_sleep wait_time ;;
        set_requests_this_minute 0 ;;
        set_tokens_this_minute 0 ;;
        now <- time_time ;;
        set_minute_start_time now)) ;;
  ut <- tracker ;;
  when (tokens_this_minute ut >=? tokens_per_minute limits)%Z
    (let wait_time := 60 - (current_time - minute_start_time ut) in
     when (Qgt_bool wait_time 0)
       (time_sleep wait_time ;;
        set_tokens_this_minute 0 ;;
        now <- time_time ;;
        set_minute_start_time now)) ;;
  (* Enforce minimum delay between requests *)
  ut <- tracker ;;
  let time_since_last := current_time - last_request_time ut in
  when (Qlt_bool time_since_last (min_delay_between_requests limits))
    (let wait_time := min_delay_between_requests limits - time_since_last in
     time_sleep wait_time).

(** [_update_usage_tracker] *)
Definition _update_usage_tracker (tokens_used : Z) : M unit :=
  current_time <- time_time ;;
  ut <- tracker ;;
  set_requests_this_minute (requests_this_minute ut + 1) ;;
  ut <- tracker ;;
  set_tokens_this_minute (tokens_this_minute ut + tokens_used) ;;
  ut <- tracker ;;
  set_requests_today (requests_today ut + 1) ;;
  set_last_request_time current_time.

(* ===================================================================== *)
(** ** [EmailLLMProcessor]: the provider calls *)
(* ===================================================================== *)

(** [self.base_urls] *)
Definition base_url_openai : str := lit "https://api.openai.com/v1/chat/completions".
Definition base_url_anthropic : str := lit "https://api.anthropic.com/v1/messages".
Definition base_url_google : str :=
  lit "https://generativelanguage.googleapis.com/v1beta/models/gemini-2.0-flash-lite:generateContent".

(** A key as a header or parameter value: [None] is JSON [null]. *)
Definition key_value (k : option str) : Json.value :=
  match k with Some s => JStr s | None => JNull end.

(** [f'{self.api_key}'] *)
Definition key_text (k : option str) : str :=
  match k with Some s => s | None => lit "None" end.

(** [response.raise_for_status()] *)
Definition check_status (r : response) : M unit :=
  raise_if (raise_for_status r).

(** [response.json()[...]...] down to the completion text. *)
Definition completion (r : response) : M str :=
  lift (envelope_text r).

(** [_call_openai_api] *)
Definition _call_openai_api (prompt : str) : M str :=
  self <- get ;;
  let headers :=
    [ (lit "Authorization", lit "Bearer " ++ key_text (api_key self));
      (lit "Content-Type", lit "application/json") ] in
  let data := JDict
    [ (lit "model", JStr (lit "gpt-3.5-turbo"));
      (lit "messages", JList
         [ JDict [ (lit "role", JStr (lit "system"));
                   (lit "content", JStr (lit "You are an email analysis assistant. Always respond with valid JSON.")) ];
           JDict [ (lit "role", JStr (lit "user")); (lit "content", JStr prompt) ] ]);
      (lit "temperature", JFloat (lit "0.3"));
      (lit "max_tokens", JInt 500) ] in
  response <- requests_post (Request base_url_openai headers [] data) ;;
  check_status response ;;
  completion response.

(** [_call_anthropic_api] *)
Definition _call_anthropic_api (prompt : str) : M str :=
  self <- get ;;
  let headers :=
    [ (lit "x-api-key", key_text (api_key self));
      (lit "Content-Type", lit "application/json");
      (lit "anthropic-version", lit "2023-06-01") ] in
  let data := JDict
    [ (lit "model", JStr (lit "claude-3-sonnet-20240229"));
      (lit "max_tokens", JInt 500);
      (lit "messages", JList
         [ JDict [ (lit "role", JStr (lit "user")); (lit "content", JStr prompt) ] ]) ] in
  response <- requests_post (Request base_url_anthropic headers [] data) ;;
  check_status response ;;
  completion response.

(** [_call_google_api] *)
Definition _call_google_api (prompt : str) : M str :=
  (* Check rate limits before making request *)
  _check_rate_limits ;;
  (* Estimate tokens (rough approximation: 1 token = 4 characters) *)
  let estimated_tokens := (Py.len prompt / 4)%Z in
  self <- get ;;
  let params := [ (lit "key", key_text (api_key self)) ] in
  let data := JDict
    [ (lit "contents", JList
         [ JDict [ (lit "parts", JList [ JDict [ (lit "text", JStr prompt) ] ]) ] ]);
      (lit "generationConfig", JDict
         [ (lit "temperature", JFloat (lit "0.3"));
           (lit "maxOutputTokens", JInt 500) ]) ] in
  response <- requests_post (Request base_url_google [] params data) ;;
  check_status response ;;
  (* Update usage tracker *)
  _update_usage_tracker estimated_tokens ;;
  completion response.

(** [_call_llm_api] *)
Definition _call_llm_api (prompt : str) : M str :=
  self <- get ;;
  if Py.eqb (provider self) (lit "openai") then _call_openai_api prompt
  else if Py.eqb (provider self) (lit "anthropic") then _call_anthropic_api prompt
  else if Py.eqb (provider self) (lit "google") then _call_google_api prompt
  else raise (ValueError (lit "Unsupported provider: " ++ provider self)).

(** [n] calls of [_call_google_api] on one instance, one after the other,
    each of which returned its completion text. *)
Inductive google_calls : EmailLLMProcessor -> nat -> EmailLLMProcessor -> Prop :=
| google_calls_none self : google_calls self 0 self
| google_calls_more self prompt tr self1 text n self2 :
    runs (run (_call_google_api prompt) self) tr (self1, inr text) ->
    google_calls self1 n self2 ->
    google_calls self (S n) self2.


(* ===================================================================== *)
(** ** [EmailLLMProcessor]: the prompt *)
(* ===================================================================== *)

(** One parsed email: the dict with the keys [title], [sender], [date] and
    [text] that [_parse_extracted_file] builds. *)
Record EmailRecord : Type := Email {
  title : str;
  sender : str;
  date : str;
  text : str
}.

(** The f-string of one email in [_create_batch_analysis_prompt]. *)
Definition email_summary (i : Z) (email : EmailRecord) : str :=
  nl ++ lit "Email " ++ Py.str_of_Z i ++ lit ":" ++ nl
     ++ lit "- Subject: " ++ title email ++ nl
     ++ lit "- From: " ++ sender email ++ nl
     ++ lit "- Date: " ++ date email ++ nl
     ++ lit "- Content: " ++ Py.slice_to 500 (text email) ++ lit "...".

(** [for i, email in enumerate(emails, i): email_summaries.append(...)] *)
Fixpoint email_summaries (i : Z) (emails : list EmailRecord) : list str :=
  match emails with
  | [] => []
  | email :: rest => email_summary i email :: email_summaries (i + 1) rest
  end.

(** The fixed instruction block that follows the emails. *)
Definition prompt_instructions : str :=
  Py.join nl (map quoted [
"";
"IMPORTANT: Respond with ONLY valid JSON. Do not include any markdown formatting, code blocks, or additional text.";
"";
"{";
"    ^comprehensive_summary^: ^A 3-4 paragraph summary of all emails received, highlighting main themes and patterns^,";
"    ^high_priority_emails^: [";
"        {";
"            ^email_number^: 1,";
"            ^subject^: ^Email subject^,";
"            ^sender^: ^Sender email^,";
"            ^priority_level^: ^high/medium^,";
"            ^reason_for_priority^: ^Why this email is important^,";
"            ^key_points^: [^Point 1^, ^Point 2^, ^Point 3^]";
"        }";
"    ],";
"    ^action_items^: [";
"        {";
"            ^action^: ^What needs to be done^,";
"            ^priority^: ^high/medium/low^,";
"            ^deadline^: ^When it needs to be done (if mentioned)^,";
"            ^source_email^: ^Which email this action item came from^";
"        }";
"    ],";
"    ^email_categories^: {";
"        ^work^: 0,";
"        ^personal^: 0, ";
"        ^marketing^: 0,";
"        ^notifications^: 0,";
"        ^other^: 0";
"    },";
"    ^processing_notes^: ^Any additional insights or observations about the email batch^";
"}";
"";
"Focus on:";
"1. Identifying truly important emails that require immediate attention";
"2. Extracting all actionable items and tasks";
"3. Categorizing emails by type";
"4. Providing a comprehensive overview of the email batch";
"5. Highlighting urgent matters and deadlines";
"";
"Remember: Return ONLY the JSON object, no additional formatting or text.";
""
  ]%string).

(** [_create_batch_analysis_prompt] *)
Definition _create_batch_analysis_prompt (emails : list EmailRecord) : str :=
  let all_emails_text := Py.join nl (email_summaries 1 emails) in
  nl ++ lit "Please analyze the following " ++ Py.str_of_Z (Z.of_nat (Datatypes.length emails))
     ++ lit " emails and provide a comprehensive summary. Focus on identifying high-priority emails and actionable items."
     ++ nl ++ nl ++ all_emails_text ++ nl ++ prompt_instructions.

(* ===================================================================== *)
(** ** The Python runtime *)
(* ===================================================================== *)

(** What the interpreter that runs the program settles: the room left for
    recursion when [json.loads] is called, the limit on the digits of an
    integer literal, and the functions whose results depend on the Unicode
    character database or on the formatting of floats and containers.
    They are parameters of the methods that depend on them. *)
Record PyRuntime : Type := Runtime {
  recursion_room : nat;                 (* containers json.loads can enter, one in the other *)
  int_max_str_digits : N;               (* sys.get_int_max_str_digits(); 0 for no limit *)
  format_value : Json.value -> str;     (* f"{v}" *)
  str_lower : str -> str;               (* s.lower() *)
  str_upper : str -> str;               (* s.upper() *)
  str_title : str -> str;               (* s.title() *)
  search_batch_of : str -> option Z     (* re.search(r'batch of (\d+) emails?', s),
                                           then int(match.group(1)) *)
}.

(* ===================================================================== *)
(** ** [EmailLLMProcessor]: the response parser *)
(* ===================================================================== *)

(** [json.loads(s)] as a statement, with the exception each failure is. *)
Definition json_loads (rt : PyRuntime) (s : str) : result Json.value :=
  match Json.loads (recursion_room rt) (int_max_str_digits rt) s with
  | inr v => inr v
  | inl (Malformed e) => inl (JSONDecodeError (Json.error_text s e))
  | inl (TooDeep container) =>
      inl (LibraryError (lit "RecursionError")
             (lit "maximum recursion depth exceeded while decoding a JSON "
                ++ container ++ lit " from a unicode string"))
  | inl (TooManyDigits limit digits) =>
      inl (ValueError
             (lit "Exceeds the limit (" ++ Py.str_of_Z (Z.of_N limit)
                ++ lit " digits) for integer string conversion: value has "
                ++ Py.str_of_Z (Z.of_N digits)
                ++ lit " digits; use sys.set_int_max_str_digits() to increase the limit"))
  end.

(** The dict every fallback branch of [_parse_batch_response] returns. *)
Definition fallback_response (summary notes : str) : Json.value :=
  JDict [ (lit "comprehensive_summary", JStr summary);
          (lit "high_priority_emails", JList []);
          (lit "action_items", JList []);
          (lit "email_categories", JDict []);
          (lit "processing_notes", JStr notes) ].

(** [s[:n] + '...' if len(s) > n else s] *)
Definition ellipsis (n : Z) (s : str) : str :=
  if (Py.len s >? n)%Z then Py.slice_to n s ++ lit "..." else s.

(** The first lines of [_parse_batch_response]: the markdown fences are
    removed when the response holds an opening [json] fence. *)
Definition strip_fences (response : str) : str :=
  if Py.contains (lit "```json") response
  then Py.replace (lit "```") (lit "") (Py.replace (lit "```json") (lit "") response)
  else response.

(** [response[start:end].strip()]: the text from the first [{] to the last
    [}] of a response that holds both, as [json.loads] is given it. *)
Definition json_text (response : str) : str :=
  let start := Py.find (lit "{") response in
  let end_ := (Py.rfind (lit "}") response + 1)%Z in
  Py.strip (Py.slice start end_ response).

(** The [try] block of [_parse_batch_response], after the fences. *)
Definition parse_json_object (rt : PyRuntime) (response : str) : result Json.value :=
  if Py.contains (lit "{") response && Py.contains (lit "}") response then
    let start := Py.find (lit "{") response in
    let end_ := (Py.rfind (lit "}") response + 1)%Z in
    let json_str := Py.slice start end_ response in
    (* Clean up the JSON string *)
    let json_str := Py.strip json_str in
    match json_loads rt json_str with
    | inl e => inl e
    | inr parsed => inr parsed
    end
  else
    (* Fallback parsing *)
    inr (fallback_response (ellipsis 500 response) (lit "Response parsing failed")).

(** The inner [try] of the handler: the text between the first two
    quotes after the colon that follows the key, when each [find]
    succeeds. None of these string operations raises, so its
    [except Exception] has nothing to catch. *)
Definition extract_summary (response : str) : option str :=
  let summary_start := Py.find (34%N :: lit "comprehensive_summary" ++ [34%N]) response in
  if (summary_start =? -1)%Z then None else
  let colon_pos := Py.find_from (lit ":") response summary_start in
  if (colon_pos =? -1)%Z then None else
  let quote_start := Py.find_from [34%N] response colon_pos in
  if (quote_start =? -1)%Z then None else
  let quote_end := Py.find_from [34%N] response (quote_start + 1) in
  if (quote_end =? -1)%Z then None else
  Some (Py.slice (quote_start + 1) quote_end response).

(** The two prints that open the handler [except json.JSONDecodeError as
    e]; [e] is [str(e)]. *)
Definition decode_error_prints (response e : str) : result unit :=
  match py_print (lit "⚠️ Error parsing batch LLM response: " ++ e) with
  | inl raised => inl raised
  | inr _ => py_print (lit "Response preview: " ++ Py.slice_to 200 response ++ lit "...")
  end.

(** What the handler returns after its prints. *)
Definition decode_error_handler (response e : str) : Json.value :=
  let notes := lit "JSON parsing error: " ++ e ++ lit ". Using extracted summary instead." in
  let extracted :=
    if Py.contains (lit "comprehensive_summary") response
    then match extract_summary response with
         | Some summary => if Py.truthy (Py.strip summary) then Some summary else None
         | None => None
         end
    else None in
  match extracted with
  | Some summary => fallback_response summary notes
  | None =>
      (* If we couldn't extract the summary, use the first part of the response *)
      let summary :=
        if (Py.len response >? 200)%Z then Py.slice_to 200 response ++ lit "..."
        else response in
      fallback_response (ellipsis 1000 summary) notes
  end.

(** [_parse_batch_response]: only [json.JSONDecodeError] is handled, and
    what a print of the handler raises leaves the method. *)
Definition _parse_batch_response (rt : PyRuntime) (response : str) : result Json.value :=
  let response := strip_fences response in
  match parse_json_object rt response with
  | inr parsed => inr parsed
  | inl (JSONDecodeError e) =>
      match decode_error_prints response e with
      | inl raised => inl raised
      | inr _ => inr (decode_error_handler response e)
      end
  | inl other => inl other
  end.

(* ===================================================================== *)
(** ** [EmailLLMProcessor]: the extracted file *)
(* ===================================================================== *)

(** [l[i]]: [IndexError] out of range. *)
Definition getitem {A : Type} (l : list A) (i : nat) : result A :=
  match nth_error l i with
  | Some x => inr x
  | None => inl (LibraryError (lit "IndexError") (lit "list index out of range"))
  end.

(** [section.split(label)[1].split('\n')[0] if label in section else default] *)
Definition labelled_line (label default section : str) : result str :=
  if Py.contains label section then
    match getitem (Py.split label section) 1 with
    | inl e => inl e
    | inr after => getitem (Py.split nl after) 0
    end
  else inr default.

(** The content block of a section. *)
Definition content_block (section : str) : str :=
  if Py.contains (lit "Content:") section then
    let content_start := (Py.find (lit "Content:") section + 8)%Z in
    let content_end := Py.find (lit "==================================================") section in
    let content_end := if (content_end =? -1)%Z then Py.len section else content_end in
    Py.strip (Py.slice content_start content_end section)
  else lit "No content available".

(** The record the loop of [_parse_extracted_file] builds for one section
    that is not blank, or the exception raised on the way. *)
Definition section_fields (section : str) : result EmailRecord :=
  (* Extract title *)
  match labelled_line (lit "Title: ") (lit "No Subject") section with
  | inl e => inl e
  | inr title_match =>
  (* Extract sender *)
  match labelled_line (lit "From: ") (lit "Unknown Sender") section with
  | inl e => inl e
  | inr sender_match =>
  (* Extract date *)
  match labelled_line (lit "Date: ") (lit "Unknown Date") section with
  | inl e => inl e
  | inr date_match =>
      (* Extract content *)
      inr (Email (Py.strip title_match) (Py.strip sender_match) (Py.strip date_match)
                 (content_block section))
  end end end.

(** [if current_email['title'] and current_email['text']] *)
Definition appended (current_email : EmailRecord) : bool :=
  Py.truthy (title current_email) && Py.truthy (text current_email).

(** The body of the loop for one section: the email appended, if any, or
    the exception raised. *)
Definition parse_section (section : str) : result (option EmailRecord) :=
  if negb (Py.truthy (Py.strip section)) then inr None   (* continue *)
  else
    match section_fields section with
    | inl e => inl e
    | inr current_email =>
        if appended current_email then inr (Some current_email) else inr None
    end.

(** The loop over the sections: [emails] is the list built so far. An
    exception ends the loop; the handler of [_parse_extracted_file] then
    returns the emails appended before it. *)
Fixpoint parse_sections (sections : list str) (emails : list EmailRecord)
  : list EmailRecord * option exn :=
  match sections with
  | [] => (emails, None)
  | section :: rest =>
      match parse_section section with
      | inl e => (emails, Some e)
      | inr None => parse_sections rest emails
      | inr (Some email) => parse_sections rest (emails ++ [email])
      end
  end.

(** The sections of a file's content. *)
Definition email_sections (content : str) : list str :=
  (* Split by email sections, skip the header *)
  tl (Py.split (lit "EMAIL ") content).

(** The emails of a file's content. *)
Definition parse_content (content : str) : list EmailRecord :=
  fst (parse_sections (email_sections content) []).

(** The handler [except Exception as e] of [_parse_extracted_file]: its
    print can raise; [traceback.print_exc()] writes to [sys.stderr], whose
    error handler is [backslashreplace], and is left out. *)
Definition parse_error_print (file_path : str) (e : exn) : result unit :=
  py_print (lit "❌ Error parsing file " ++ file_path ++ lit ": " ++ exn_message e).

(** [_parse_extracted_file]: whatever is raised, by the file or by a
    section, is caught and printed, and the emails read so far are
    returned. *)
Definition _parse_extracted_file (file_path : str) : M (list EmailRecord) :=
  content <- attempt (read_file file_path) ;;
  match content with
  | inl e => lift (parse_error_print file_path e) ;; ret []
  | inr content =>
      match snd (parse_sections (email_sections content) []) with
      | Some e => lift (parse_error_print file_path e) ;; ret (parse_content content)
      | None => ret (parse_content content)
      end
  end.

(* ===================================================================== *)
(** ** [EmailLLMProcessor]: the batch and the entry point *)
(* ===================================================================== *)

(** [v.get(key, default)]: only a dict has the method. *)
Definition py_get (v : Json.value) (key : str) (default : Json.value) : result Json.value :=
  match v with
  | JDict d => inr (Json.dict_get key default d)
  | _ => inl (LibraryError (lit "AttributeError") (lit "object has no attribute 'get'"))
  end.

(** [d.isoformat()] *)
Definition isoformat (d : datetime) : str :=
  Py.zero_pad 4 (year d) ++ lit "-" ++ Py.zero_pad 2 (month d) ++ lit "-"
    ++ Py.zero_pad 2 (day d) ++ lit "T" ++ Py.zero_pad 2 (hour d) ++ lit ":"
    ++ Py.zero_pad 2 (minute d) ++ lit ":" ++ Py.zero_pad 2 (second d)
    ++ (if (microsecond d =? 0)%N then [] else lit "." ++ Py.zero_pad 6 (microsecond d)).

(** [d.strftime('%Y-%m-%d %H:%M:%S')] *)
Definition strftime_seconds (d : datetime) : str :=
  Py.zero_pad 4 (year d) ++ lit "-" ++ Py.zero_pad 2 (month d) ++ lit "-"
    ++ Py.zero_pad 2 (day d) ++ lit " " ++ Py.zero_pad 2 (hour d) ++ lit ":"
    ++ Py.zero_pad 2 (minute d) ++ lit ":" ++ Py.zero_pad 2 (second d).

(** [d.strftime("%Y%m%d_%H%M%S")] *)
Definition strftime_compact (d : datetime) : str :=
  Py.zero_pad 4 (year d) ++ Py.zero_pad 2 (month d) ++ Py.zero_pad 2 (day d)
    ++ lit "_" ++ Py.zero_pad 2 (hour d) ++ Py.zero_pad 2 (minute d)
    ++ Py.zero_pad 2 (second d).

(** An email as the dict it is. *)
Definition email_dict (email : EmailRecord) : Json.value :=
  JDict [ (lit "title", JStr (title email)); (lit "sender", JStr (sender email));
          (lit "date", JStr (date email)); (lit "text", JStr (text email)) ].

(** [_process_all_emails_batch] *)
Definition _process_all_emails_batch (rt : PyRuntime) (emails : list EmailRecord)
  : M Json.value :=
  (* Create a comprehensive prompt for all emails *)
  let batch_prompt := _create_batch_analysis_prompt emails in
  self <- get ;;
  lift (py_print (lit "🔄 Sending batch request to " ++ str_upper rt (provider self)
                    ++ lit "...")) ;;
  (* Send to LLM *)
  response <- _call_llm_api batch_prompt ;;
  (* Parse response *)
  parsed_response <- lift (_parse_batch_response rt response) ;;
  now <- datetime_now ;;
  comprehensive_summary <-
    lift (py_get parsed_response (lit "comprehensive_summary") (JStr (lit "No summary generated"))) ;;
  high_priority_emails <- lift (py_get parsed_response (lit "high_priority_emails") (JList [])) ;;
  action_items <- lift (py_get parsed_response (lit "action_items") (JList [])) ;;
  email_categories <- lift (py_get parsed_response (lit "email_categories") (JDict [])) ;;
  processing_notes <- lift (py_get parsed_response (lit "processing_notes") (JStr (lit ""))) ;;
  ret (JDict
    [ (lit "total_emails", JInt (Z.of_nat (Datatypes.length emails)));
      (lit "analysis_timestamp", JStr (isoformat now));
      (lit "comprehensive_summary", comprehensive_summary);
      (lit "high_priority_emails", high_priority_emails);
      (lit "action_items", action_items);
      (lit "email_categories", email_categories);
      (lit "processing_notes", processing_notes);
      (lit "raw_emails", JList (map email_dict emails)) ]).

(** [_save_results]: a failure to write is caught and printed. *)
Definition _save_results (processed_emails : Json.value) (output_file : str) : M unit :=
  catch
    (json_dump output_file processed_emails ;;
     lift (py_print (lit "💾 Processed results saved to: " ++ output_file)))
    (fun e => lift (py_print (lit "❌ Error saving results: " ++ exn_message e))).

(** Truth value of an optional string: [None] and [''] are false. *)
Definition given (s : option str) : bool :=
  match s with
  | Some s => Py.truthy s
  | None => false
  end.

(** [str(n)] for a length. *)
Definition str_of_len {A : Type} (l : list A) : str :=
  Py.str_of_Z (Z.of_nat (Datatypes.length l)).

(** [process_emails_from_file]: the empty list, or the analysis dict. The
    prints before the [try] block and the print of its handler are outside
    of it. *)
Definition process_emails_from_file (rt : PyRuntime) (extracted_file : str)
    (output_file : option str) : M Json.value :=
  self <- get ;;
  if negb (given (api_key self)) then
    lift (py_print (lit "❌ API key required to process emails")) ;;
    ret (JList [])
  else
    (* Parse the extracted file *)
    emails <- _parse_extracted_file extracted_file ;;
    match emails with
    | [] =>
        lift (py_print (lit "❌ No emails found in " ++ extracted_file)) ;;
        ret (JList [])
    | _ :: _ =>
        lift (py_print (lit "📧 Processing " ++ str_of_len emails ++ lit " emails through "
                          ++ str_upper rt (provider self) ++ lit " in batch...")) ;;
        catch
          ((* Process all emails at once *)
           comprehensive_analysis <- _process_all_emails_batch rt emails ;;
           (* Save results *)
           match output_file with
           | Some path => when (Py.truthy path) (_save_results comprehensive_analysis path)
           | None => ret tt
           end ;;
           ret comprehensive_analysis)
          (fun e =>
             lift (py_print (lit "⚠️ Error processing emails in batch: " ++ exn_message e)) ;;
             ret (JList []))
    end.

(** [get_usage_status]: the dict it returns, as a record. *)
Record UsageStatus : Type := Status {
  status_requests_this_minute : Z;
  status_tokens_this_minute : Z;
  status_requests_today : Z;
  time_until_minute_reset : Q;
  can_make_request : bool
}.

Definition get_usage_status : M UsageStatus :=
  current_time <- time_time ;;
  let limits := rate_limits_google in
  ut <- tracker ;;
  (* Calculate time until reset *)
  let time_until_minute_reset := Qmax 0 (60 - (current_time - minute_start_time ut)) in
  ret (Status (requests_this_minute ut) (tokens_this_minute ut) (requests_today ut)
         time_until_minute_reset
         ((requests_this_minute ut <? requests_per_minute limits)%Z
          && (tokens_this_minute ut <? tokens_per_minute limits)%Z
          && (requests_today ut <? requests_per_day limits)%Z)).

(* ===================================================================== *)
(** ** [EmailLLMProcessor]: the report *)
(* ===================================================================== *)

Definition attribute_error (name : string) : exn :=
  LibraryError (lit "AttributeError") (lit "object has no attribute " ++ lit name).

Definition type_error (msg : string) : exn :=
  LibraryError (lit "TypeError") (lit msg).

(** [for x in v]: the items of a list, the keys of a dict, the characters
    of a string; nothing else is iterable. *)
Definition py_iter (v : Json.value) : result (list Json.value) :=
  match v with
  | JList items => inr items
  | JDict d => inr (map (fun kv => JStr (fst kv)) d)
  | JStr s => inr (map (fun c => JStr [c]) s)
  | _ => inl (type_error "object is not iterable")
  end.

(** The strings of a list of values, when they are all strings. *)
Fixpoint all_strings (items : list Json.value) : option (list str) :=
  match items with
  | [] => Some []
  | JStr s :: rest => option_map (cons s) (all_strings rest)
  | _ :: _ => None
  end.

(** [sep.join(v)] *)
Definition py_join (sep : str) (v : Json.value) : result str :=
  match py_iter v with
  | inl _ => inl (type_error "can only join an iterable")
  | inr items =>
      match all_strings items with
      | Some parts => inr (Py.join sep parts)
      | None => inl (type_error "sequence item: expected str instance")
      end
  end.

(** What the [f.write] calls of a block leave in the file: the chunks in
    order up to the first whose text raised, and that exception. *)
Fixpoint write_all (chunks : list (result str)) : str * option exn :=
  match chunks with
  | [] => ([], None)
  | inl e :: _ => ([], Some e)
  | inr chunk :: rest => let (written, failure) := write_all rest in (chunk ++ written, failure)
  end.

Definition dashes (n : nat) : str := repeat 45%N n.

Section Report.

Variable rt : PyRuntime.

(** [f"...{item.get(key, default)}..."] *)
Definition field (item : Json.value) (key default : string) : result str :=
  match py_get item (lit key) (JStr (lit default)) with
  | inl e => inl e
  | inr v => inr (format_value rt v)
  end.

(** [before + x + after] for a formatted field [x]. *)
Definition line (before : string) (x : result str) (after : str) : result str :=
  match x with
  | inl e => inl e
  | inr s => inr (lit before ++ s ++ after)
  end.

(** The total written in the title block: the [total_emails] of the result
    or, when that is missing or zero, the number found in a summary that
    says [batch of N emails]. *)
Definition total_emails_of (processed_emails : Json.value) : result Json.value :=
  match processed_emails with
  | JDict items =>
      let total_emails := Json.dict_get (lit "total_emails") (JInt 0) items in
      if Json.is_true total_emails then inr total_emails
      else
        (* Try to get from other fields or use a reasonable default *)
        match Json.dict_lookup (lit "comprehensive_summary") items with
        | None => inr total_emails
        | Some (JStr summary) =>
            if Py.contains (lit "batch of") (str_lower rt summary) then
              match search_batch_of rt (str_lower rt summary) with
              | Some n => inr (JInt n)
              | None => inr total_emails
              end
            else inr total_emails
        | Some _ => inl (attribute_error "lower")
        end
  | _ => inl (attribute_error "get")
  end.

(** The six writes for one high-priority email. *)
Definition high_priority_chunks (email : Json.value) : list (result str) :=
  [ match field email "email_number" "N/A", field email "subject" "No Subject" with
    | inr n, inr s => inr (lit "📧 Email " ++ n ++ lit ": " ++ s ++ nl)
    | inl e, _ | _, inl e => inl e
    end;
    line "   From: " (field email "sender" "Unknown") nl;
    line "   Priority: " (field email "priority_level" "Unknown") nl;
    line "   Reason: " (field email "reason_for_priority" "No reason given") nl;
    line "   Key Points: "
      (match py_get email (lit "key_points") (JList []) with
       | inl e => inl e
       | inr points => py_join (lit ", ") points
       end) nl;
    inr (dashes 30 ++ nl ++ nl) ].

(** The five writes for the action item numbered [i]. *)
Definition action_item_chunks (i : Z) (item : Json.value) : list (result str) :=
  [ match field item "action" "No action specified" with
    | inl e => inl e
    | inr s => inr (Py.str_of_Z i ++ lit ". " ++ s ++ nl)
    end;
    line "   Priority: " (field item "priority" "Unknown") nl;
    line "   Deadline: " (field item "deadline" "No deadline") nl;
    line "   Source: " (field item "source_email" "Unknown email") nl;
    inr (dashes 20 ++ nl ++ nl) ].

Fixpoint enumerate_chunks (i : Z) (items : list Json.value) : list (result str) :=
  match items with
  | [] => []
  | item :: rest => action_item_chunks i item ++ enumerate_chunks (i + 1) rest
  end.

(** [for x in v: ...]: the chunks of the items, or the [TypeError] of a
    value that cannot be iterated. *)
Definition for_each (v : Json.value) (body : list Json.value -> list (result str))
  : list (result str) :=
  match py_iter v with
  | inl e => [inl e]
  | inr items => body items
  end.

(** The writes that follow the title block. [processed_emails] is a dict
    here: [total_emails_of] has called its [get]. *)
Definition report_sections (processed_emails : list (str * Json.value)) : list (result str) :=
  (* Comprehensive Summary *)
  [ inr (lit "📋 COMPREHENSIVE SUMMARY" ++ nl);
    inr (dashes 40 ++ nl);
    inr (format_value rt (Json.dict_get (lit "comprehensive_summary")
                            (JStr (lit "No summary available")) processed_emails)
         ++ nl ++ nl) ]
  (* High Priority Emails *)
  ++ (let high_priority := Json.dict_get (lit "high_priority_emails") (JList []) processed_emails in
      [ inr (lit "🚨 HIGH PRIORITY EMAILS" ++ nl); inr (dashes 40 ++ nl) ]
      ++ (if Json.is_true high_priority
          then for_each high_priority (flat_map high_priority_chunks)
          else [ inr (lit "No high priority emails identified." ++ nl ++ nl) ]))
  (* Action Items *)
  ++ (let action_items := Json.dict_get (lit "action_items") (JList []) processed_emails in
      [ inr (lit "✅ ACTION ITEMS" ++ nl); inr (dashes 40 ++ nl) ]
      ++ (if Json.is_true action_items
          then for_each action_items (enumerate_chunks 1)
          else [ inr (lit "No action items identified." ++ nl ++ nl) ]))
  (* Email Categories *)
  ++ (let categories := Json.dict_get (lit "email_categories") (JDict []) processed_emails in
      if Json.is_true categories then
        [ inr (lit "📊 EMAIL CATEGORIES" ++ nl); inr (dashes 40 ++ nl) ]
        ++ match categories with
           | JDict items =>
               map (fun kc => inr (str_title rt (fst kc) ++ lit ": "
                                   ++ format_value rt (snd kc) ++ nl)) items
               ++ [ inr nl ]
           | _ => [ inl (attribute_error "items") ]
           end
      else []).

(** The title block down to the [Generated:] line. *)
Definition report_title (generated : datetime) : str :=
  lit "COMPREHENSIVE EMAIL ANALYSIS REPORT" ++ nl
    ++ repeat 61%N 60 ++ nl ++ nl
    ++ lit "Generated: " ++ strftime_seconds generated ++ nl.

(** The two lines that end the title block. *)
Definition report_totals (total_emails : Json.value) (analysed : datetime) : str :=
  lit "Total emails analyzed: " ++ format_value rt total_emails ++ nl
    ++ lit "Analysis timestamp: " ++ isoformat analysed ++ nl ++ nl.


(** The [with open(report_file, 'w') as f:] block: the file is opened, the
    writes are made in order until one of their texts raises, and the file
    is closed with what was written. *)
Definition write_report (processed_emails : Json.value) (report_file : str) : M unit :=
  open_write report_file ;;
  generated <- datetime_now ;;
  (* Get total emails from the processed data or use a default *)
  match processed_emails, total_emails_of processed_emails with
  | JDict items, inr total_emails =>
      analysed <- datetime_now ;;
      let (written, failure) := write_all (report_sections items) in
      write_close report_file
        (report_title generated ++ report_totals total_emails analysed ++ written) ;;
      raise_if failure
  | _, inl e => write_close report_file (report_title generated) ;; raise e
  | _, inr _ => write_close report_file (report_title generated) ;;
                raise (attribute_error "get")
  end.

(** The name of the report when none is given. *)
Definition default_report_file (timestamp : datetime) : str :=
  lit "email_summary_report_" ++ strftime_compact timestamp ++ lit ".txt".

(** [generate_summary_report]: the content of the report read back from
    the file, the file's name when it cannot be read back, [None] when
    anything was raised before; what a print of a handler raises leaves
    the method. *)
Definition generate_summary_report (processed_emails : Json.value)
    (report_file : option str) : M (option str) :=
  report_file <-
    (if given report_file
     then ret (match report_file with Some path => path | None => [] end)
     else timestamp <- datetime_now ;; ret (default_report_file timestamp)) ;;
  catch
    (write_report processed_emails report_file ;;
     lift (py_print (lit "📊 Comprehensive summary report saved to: " ++ report_file)) ;;
     (* Read the content back to return it *)
     content <- attempt (read_file report_file) ;;
     match content with
     | inr report_content => ret (Some report_content)
     | inl e =>
         lift (py_print (lit "⚠️ Warning: Could not read report content: "
                           ++ exn_message e)) ;;
         ret (Some report_file)     (* Fallback to filename *)
     end)
    (fun e =>
       lift (py_print (lit "❌ Error generating report: " ++ exn_message e)) ;;
       ret None).

End Report.

(** *** The runtime on ASCII text

    The five functions as CPython computes them on strings of ASCII
    characters, where no table of Unicode is needed; a [float] prints as
    the literal it was read from. *)

Definition ascii_upper_case (c : N) : bool := ((65 <=? c) && (c <=? 90))%N.
Definition ascii_lower_case (c : N) : bool := ((97 <=? c) && (c <=? 122))%N.

Definition ascii_lower (s : str) : str :=
  map (fun c => if ascii_upper_case c then (c + 32)%N else c) s.

Definition ascii_upper (s : str) : str :=
  map (fun c => if ascii_lower_case c then (c - 32)%N else c) s.

Fixpoint ascii_title_go (s : str) (previous_cased : bool) : str :=
  match s with
  | [] => []
  | c :: s' =>
      if ascii_upper_case c
      then (if previous_cased then (c + 32)%N else c) :: ascii_title_go s' true
      else if ascii_lower_case c
      then (if previous_cased then c else (c - 32)%N) :: ascii_title_go s' true
      else c :: ascii_title_go s' false
  end.

Definition ascii_title (s : str) : str := ascii_title_go s false.

(** [repr(s)] *)
Definition ascii_repr_str (s : str) : str :=
  let quote := if Py.contains [39%N] s && negb (Py.contains [34%N] s) then 34%N else 39%N in
  let escape c :=
    if (c =? 92)%N then [92; 92]%N
    else if (c =? quote)%N then [92%N; c]
    else if (c =? 10)%N then [92; 110]%N
    else if (c =? 13)%N then [92; 114]%N
    else if (c =? 9)%N then [92; 116]%N
    else if ((c <? 32) || (c =? 127))%N then [92%N; 120%N; hex_digit (c / 16); hex_digit (c mod 16)]
    else [c] in
  quote :: flat_map escape s ++ [quote].

(** [repr(v)] *)
Fixpoint ascii_repr (v : Json.value) : str :=
  match v with
  | JNull => lit "None"
  | JBool true => lit "True"
  | JBool false => lit "False"
  | JInt z => Py.str_of_Z z
  | JFloat literal => literal
  | JStr s => ascii_repr_str s
  | JList items => lit "[" ++ Py.join (lit ", ") (map ascii_repr items) ++ lit "]"
  | JDict items =>
      lit "{" ++ Py.join (lit ", ")
                   (map (fun kv => ascii_repr_str (fst kv) ++ lit ": " ++ ascii_repr (snd kv)) items)
        ++ lit "}"
  end.

(** [str(v)] *)
Definition ascii_format (v : Json.value) : str :=
  match v with
  | JStr s => s
  | _ => ascii_repr v
  end.

(** The leftmost [batch of N email] in [s], for a run of digits [N]. *)
Fixpoint ascii_search_batch_of (s : str) : option Z :=
  let here :=
    if Py.startswith (lit "batch of ") s then
      let (ds, rest) := Json.span_digits (skipn 9 s) in
      if Py.truthy ds && Py.startswith (lit " email") rest
      then Some (Json.digits_value ds) else None
    else None in
  match here, s with
  | Some n, _ => Some n
  | None, [] => None
  | None, _ :: s' => ascii_search_batch_of s'
  end.

(** With CPython's defaults: 4300 digits, and the room for recursion a
    limit of 1000 frames leaves. *)
Definition ascii_runtime : PyRuntime :=
  Runtime 990 4300 ascii_format ascii_lower ascii_upper ascii_title ascii_search_batch_of.

(* ===================================================================== *)
(** ** The life of an instance *)
(* ===================================================================== *)

(** One method call on an instance, whatever the world answered and
    however it ended: [self] before, [self'] after. *)
Inductive operation : EmailLLMProcessor -> EmailLLMProcessor -> Prop :=
| op_check_rate_limits self tr self' r :
    runs (run _check_rate_limits self) tr (self', r) -> operation self self'
| op_update_usage_tracker tokens self tr self' r :
    runs (run (_update_usage_tracker tokens) self) tr (self', r) -> operation self self'
| op_get_usage_status self tr self' r :
    runs (run get_usage_status self) tr (self', r) -> operation self self'
| op_call_openai_api prompt self tr self' r :
    runs (run (_call_openai_api prompt) self) tr (self', r) -> operation self self'
| op_call_anthropic_api prompt self tr self' r :
    runs (run (_call_anthropic_api prompt) self) tr (self', r) -> operation self self'
| op_call_google_api prompt self tr self' r :
    runs (run (_call_google_api prompt) self) tr (self', r) -> operation self self'
| op_call_llm_api prompt self tr self' r :
    runs (run (_call_llm_api prompt) self) tr (self', r) -> operation self self'
| op_parse_extracted_file path self tr self' r :
    runs (run (_parse_extracted_file path) self) tr (self', r) -> operation self self'
| op_process_all_emails_batch rt emails self tr self' r :
    runs (run (_process_all_emails_batch rt emails) self) tr (self', r) -> operation self self'
| op_save_results v path self tr self' r :
    runs (run (_save_results v path) self) tr (self', r) -> operation self self'
| op_process_emails_from_file rt path out self tr self' r :
    runs (run (process_emails_from_file rt path out) self) tr (self', r) -> operation self self'
| op_generate_summary_report rt v path self tr self' r :
    runs (run (generate_summary_report rt v path) self) tr (self', r) -> operation self self'.

(** Any number of method calls, one after the other. *)
Definition lifetime : EmailLLMProcessor -> EmailLLMProcessor -> Prop :=
  clos_refl_trans_1n EmailLLMProcessor operation.

(* ===================================================================== *)
(** ** The claims of the specification, as it words them *)
(* ===================================================================== *)

(** "Each variant calls the admission check before sending": whenever a
    call of [_call_llm_api] of the provider [prov] reaches
    [requests.post], its run starts with a run of [_check_rate_limits]
    that returned, with nothing sent before it returned. *)
Definition admitted_before_sending (prov : str) : Prop :=
  forall key ut prompt tr self' r q x,
    runs (run (_call_llm_api prompt) (Processor key prov ut)) tr (self', r) ->
    In (EPost q x) tr ->
    exists tr1 self1 tr2,
      runs (run _check_rate_limits (Processor key prov ut)) tr1 (self1, inr tt) /\
      tr = tr1 ++ tr2 /\ (forall q' x', ~ In (EPost q' x') tr1).

(** "The returned object always has non-null [high_priority_emails],
    [action_items], [email_categories]". *)
Definition has_value (key : string) (v : Json.value) : Prop :=
  exists d x, v = JDict d /\ Json.dict_lookup (lit key) d = Some x /\ x <> JNull.

Definition fully_shaped (v : Json.value) : Prop :=
  has_value "high_priority_emails" v /\ has_value "action_items" v /\
  has_value "email_categories" v.



(** "Content truncated to the first 500 characters; content beyond that
    length is cut with an ellipsis marker", content of 500 characters or
    fewer appearing without a marker: the block of one email as the
    specification words it. *)
Definition email_summary_as_specified (i : Z) (email : EmailRecord) : str :=
  nl ++ lit "Email " ++ Py.str_of_Z i ++ lit ":" ++ nl
     ++ lit "- Subject: " ++ title email ++ nl
     ++ lit "- From: " ++ sender email ++ nl
     ++ lit "- Date: " ++ date email ++ nl
     ++ lit "- Content: " ++ ellipsis 500 (text email).

(** "A section missing both a usable title and content is dropped": a
    section is kept as soon as its title or its content is non-empty. *)
Definition kept_as_specified (current_email : EmailRecord) : bool :=
  Py.truthy (title current_email) || Py.truthy (text current_email).

(** The text an event leaves in a file, when it is the writing of one. *)
Definition written (e : event) : option str :=
  match event_call e with
  | WriteClose _ content => Some content
  | _ => None
  end.


(* ===================================================================== *)
(** ** What a trace holds *)
(* ===================================================================== *)

(** The arguments of the [time.sleep] calls of a trace, in order. *)
Fixpoint sleeps (tr : list event) : list Q :=
  match tr with
  | [] => []
  | Event c _ :: rest =>
      match c with
      | TimeSleep seconds => seconds :: sleeps rest
      | _ => sleeps rest
      end
  end.

(** What [time.time()] answered, reading by reading. *)
Fixpoint readings (tr : list event) : list Q :=
  match tr with
  | [] => []
  | Event c x :: rest =>
      match c return answer c -> list Q with
      | TimeTime => fun now => now :: readings rest
      | _ => fun _ => readings rest
      end x
  end.

(** The seconds slept in all. *)
Definition slept (tr : list event) : Q := fold_right Qplus 0 (sleeps tr).

(** What one event is when it is a [requests.post]: the request and the
    answer. *)
Definition posted (e : event) : option (request * result response) :=
  match e with
  | Event c x =>
      match c return answer c -> option (request * result response) with
      | RequestsPost q => fun x => Some (q, x)
      | _ => fun _ => None
      end x
  end.

(** The [requests.post] calls of a trace, in order, with their answers. *)
Fixpoint posts (tr : list event) : list (request * result response) :=
  match tr with
  | [] => []
  | e :: rest =>
      match posted e with
      | Some p => p :: posts rest
      | None => posts rest
      end
  end.


(** What a provider call returns once the provider answered: the error of
    the transport, the error of a status that is no 2xx, or what reading
    the completion text out of the envelope gives. *)
Definition outcome (x : result response) : result str :=
  match x with
  | inl e => inl e
  | inr resp =>
      match raise_for_status resp with
      | Some e => inl e
      | None => envelope_text resp
      end
  end.

(** A request the provider answered with a 2xx status. *)
Definition accepted (x : result response) : bool :=
  match x with
  | inr resp => match raise_for_status resp with None => true | Some _ => false end
  | inl _ => false
  end.

(** The counters are within the limits of [rate_limits]. *)
Definition within_limits (self : EmailLLMProcessor) : Prop :=
  (requests_this_minute (usage_tracker self) <= requests_per_minute rate_limits_google)%Z /\
  (requests_today (usage_tracker self) <= requests_per_day rate_limits_google)%Z.

(** The relation of an invariant: what is within the limits stays so. *)
Definition limits_kept (s s' : EmailLLMProcessor) : Prop :=
  within_limits s -> within_limits s'.

(** One call of a method that counts requests only through
    [_call_google_api]: any method but a bare [_update_usage_tracker]. *)
Inductive guarded_operation : EmailLLMProcessor -> EmailLLMProcessor -> Prop :=
| guarded_check_rate_limits self tr self' r :
    runs (run _check_rate_limits self) tr (self', r) -> guarded_operation self self'
| guarded_get_usage_status self tr self' r :
    runs (run get_usage_status self) tr (self', r) -> guarded_operation self self'
| guarded_call_llm_api prompt self tr self' r :
    runs (run (_call_llm_api prompt) self) tr (self', r) -> guarded_operation self self'
| guarded_call_google_api prompt self tr self' r :
    runs (run (_call_google_api prompt) self) tr (self', r) -> guarded_operation self self'
| guarded_process_all_emails_batch rt emails self tr self' r :
    runs (run (_process_all_emails_batch rt emails) self) tr (self', r) ->
    guarded_operation self self'
| guarded_process_emails_from_file rt path out self tr self' r :
    runs (run (process_emails_from_file rt path out) self) tr (self', r) ->
    guarded_operation self self'
| guarded_generate_summary_report rt v path self tr self' r :
    runs (run (generate_summary_report rt v path) self) tr (self', r) ->
    guarded_operation self self'.

Definition guarded_lifetime : EmailLLMProcessor -> EmailLLMProcessor -> Prop :=
  clos_refl_trans_1n EmailLLMProcessor guarded_operation.

(* ===================================================================== *)
(** ** [create_combined_summary.py]: the writer of the extracted file *)
(* ===================================================================== *)




Section ExtractedFile.

Variable rt : PyRuntime.








End ExtractedFile.

(** *** What the parser reads back *)






(** The record of a section that holds no label. *)
Definition default_email : EmailRecord :=
  Email (lit "No Subject") (lit "Unknown Sender") (lit "Unknown Date")
        (lit "No content available").



(* ===================================================================== *)
(** * Theorems *)
(* ===================================================================== *)

Arguments Py.lit : simpl never.
Arguments daily_limit_error : simpl never.

(** ** Runs of composed programs *)

(** Inversion of a run, by the shape of its program. *)
Lemma runs_inv {A : Type} (p : io A) tr a :
  runs p tr a ->
  match p with
  | Done a' => tr = [] /\ a = a'
  | Call c k => exists x tr', tr = Event c x :: tr' /\ runs (k x) tr' a
  end.
Proof.
  intros H. destruct H as [a | c k x tr a H].
  - split; reflexivity.
  - exists x, tr. split; [reflexivity | exact H].
Qed.

Lemma runs_io_bind {A B : Type} (p : io A) (f : A -> io B) tr b :
  runs (io_bind p f) tr b ->
  exists tr1 a tr2, runs p tr1 a /\ runs (f a) tr2 b /\ tr = tr1 ++ tr2.
Proof.
  revert tr. induction p as [a | c k IH]; intros tr Hrun; simpl in Hrun.
  - exists [], a, tr. repeat split; [constructor | assumption].
  - apply runs_inv in Hrun. destruct Hrun as (x & tr' & -> & Hk).
    destruct (IH _ _ Hk) as (tr1 & a & tr2 & H1 & H2 & ->).
    exists (Event c x :: tr1), a, tr2. repeat split; [constructor |]; assumption.
Qed.

Lemma io_bind_runs {A B : Type} (p : io A) (f : A -> io B) tr1 a tr2 b :
  runs p tr1 a -> runs (f a) tr2 b -> runs (io_bind p f) (tr1 ++ tr2) b.
Proof.
  induction 1; intros Hf; simpl; [assumption | constructor; auto].
Qed.

(** A run of [c ;; f]: a run of [c], then, unless it raised, a run of what
    follows. *)
Lemma runs_bind {A B : Type} (c : M A) (f : A -> M B) self tr self' r :
  runs (run (bind c f) self) tr (self', r) ->
  exists tr1 self1 r1 tr2,
    runs (run c self) tr1 (self1, r1) /\ tr = tr1 ++ tr2 /\
    match r1 with
    | inl e => tr2 = [] /\ self' = self1 /\ r = inl e
    | inr a => runs (run (f a) self1) tr2 (self', r)
    end.
Proof.
  intros H. simpl in H. apply runs_io_bind in H.
  destruct H as (tr1 & [self1 r1] & tr2 & H1 & H2 & ->).
  exists tr1, self1, r1, tr2. repeat split; [assumption|].
  destruct r1 as [e | a]; [| assumption].
  inversion H2; subst. auto.
Qed.

Lemma bind_runs {A B : Type} (c : M A) (f : A -> M B) self tr1 self1 a tr2 self' r :
  runs (run c self) tr1 (self1, inr a) ->
  runs (run (f a) self1) tr2 (self', r) ->
  runs (run (bind c f) self) (tr1 ++ tr2) (self', r).
Proof.
  intros H1 H2. simpl. eapply io_bind_runs; [exact H1 | exact H2].
Qed.

Lemma bind_runs_raise {A B : Type} (c : M A) (f : A -> M B) self tr self1 e :
  runs (run c self) tr (self1, inl e) ->
  runs (run (bind c f) self) tr (self1, inl e).
Proof.
  intros H1. simpl. rewrite <- (app_nil_r tr).
  eapply io_bind_runs; [exact H1 | constructor].
Qed.

(** Inversion of every run whose program shows its first call. *)
Ltac run_inv :=
  repeat match goal with
  | H : runs (Done _) _ _ |- _ =>
      apply runs_inv in H; destruct H as [? ?]; subst
  | H : runs (Call _ _) _ _ |- _ =>
      apply runs_inv in H; destruct H as (? & ? & ? & H); subst
  | H : (_, _) = (_, _) |- _ => inversion H; subst; clear H
  end.

(** Runs of the statements that make no call, and of one call. *)
Lemma get_run self tr self' r :
  runs (run get self) tr (self', r) -> tr = [] /\ self' = self /\ r = inr self.
Proof. intros H. cbn in H. run_inv. auto. Qed.


Lemma raise_run {A : Type} (e : exn) self tr self' (r : result A) :
  runs (run (raise e) self) tr (self', r) -> tr = [] /\ self' = self /\ r = inl e.
Proof. intros H. cbn in H. run_inv. auto. Qed.

Lemma lift_run {A : Type} (x : result A) self tr self' r :
  runs (run (lift x) self) tr (self', r) -> tr = [] /\ self' = self /\ r = x.
Proof. intros H. destruct x; cbn in H; run_inv; auto. Qed.

Lemma raise_if_run (x : option exn) self tr self' r :
  runs (run (raise_if x) self) tr (self', r) ->
  tr = [] /\ self' = self /\ r = match x with Some e => inl e | None => inr tt end.
Proof. intros H. destruct x; cbn in H; run_inv; auto. Qed.

Lemma perform_run (c : call) self tr self' r :
  runs (run (perform c) self) tr (self', r) ->
  exists x, tr = [Event c x] /\ self' = self /\ r = inr x.
Proof. intros H. cbn in H. run_inv. eexists. auto. Qed.

Lemma requests_post_run q self tr self' r :
  runs (run (requests_post q) self) tr (self', r) ->
  tr = [EPost q r] /\ self' = self.
Proof.
  intros H. unfold requests_post in H. apply runs_bind in H.
  destruct H as (tr1 & self1 & r1 & tr2 & H1 & -> & H2).
  destruct (@perform_run (RequestsPost q) _ _ _ _ H1) as (x & -> & -> & ->).
  apply lift_run in H2. destruct H2 as (-> & -> & ->). auto.
Qed.

(** ** The usage tracker *)

Definition no_sleep (tr : list event) : Prop := forall d, ~ In (ESleep d) tr.
Definition no_post (tr : list event) : Prop := forall r x, ~ In (EPost r x) tr.

Lemma check_rate_limits_daily self tr self' r :
  (requests_today (usage_tracker self) >= requests_per_day rate_limits_google)%Z ->
  runs (run _check_rate_limits self) tr (self', r) ->
  r = inl daily_limit_error /\ no_sleep tr /\ no_post tr /\
  requests_today (usage_tracker self') = requests_today (usage_tracker self).
Proof.
  intros Hday Hrun. destruct self as [key prov [rm tm rt lr ms]]. simpl in Hday.
  unfold _check_rate_limits in Hrun. cbn in Hrun. run_inv.
  unfold when in Hrun.
  destruct (Qge_bool (x - ms) 60); cbn in Hrun;
    (destruct (Z.geb_spec rt 1000); [| lia]); cbn in Hrun; run_inv;
    (split; [reflexivity |]); repeat split;
    try (intros ? ? [Hx | []]; discriminate); intros ? [Hx | []]; discriminate.
Qed.

(** ** What a method leaves related: framing through [bind] *)

Section Preserved.

Variable R : EmailLLMProcessor -> EmailLLMProcessor -> Prop.
Hypothesis R_refl : forall s, R s s.
Hypothesis R_trans : forall a b c, R a b -> R b c -> R a c.

(** Every run of [m] takes [self] to an instance related to it by [R],
    whether it returns or raises. *)
Definition preserved {A : Type} (m : M A) : Prop :=
  forall self tr self' r, runs (run m self) tr (self', r) -> R self self'.

Lemma preserved_ret {A : Type} (a : A) : preserved (ret a).
Proof. intros self tr self' r H. cbn in H. run_inv. apply R_refl. Qed.

Lemma preserved_raise {A : Type} (e : exn) : preserved (raise e : M A).
Proof. intros self tr self' r H. cbn in H. run_inv. apply R_refl. Qed.

Lemma preserved_get : preserved (get : M EmailLLMProcessor).
Proof. intros self tr self' r H. cbn in H. run_inv. apply R_refl. Qed.

Lemma preserved_bind {A B : Type} (c : M A) (f : A -> M B) :
  preserved c -> (forall a, preserved (f a)) -> preserved (bind c f).
Proof.
  intros Hc Hf self tr self' r H.
  apply runs_bind in H. destruct H as (tr1 & self1 & r1 & tr2 & H1 & -> & H2).
  apply Hc in H1. destruct r1 as [e | a].
  - destruct H2 as (_ & -> & _). exact H1.
  - apply Hf in H2. eapply R_trans; eassumption.
Qed.

Lemma preserved_catch {A : Type} (c : M A) (h : exn -> M A) :
  preserved c -> (forall e, preserved (h e)) -> preserved (catch c h).
Proof.
  intros Hc Hh self tr self' r H. cbn in H. apply runs_io_bind in H.
  destruct H as (tr1 & [self1 r1] & tr2 & H1 & H2 & ->).
  apply Hc in H1. destruct r1 as [e | a].
  - apply Hh in H2. eapply R_trans; eassumption.
  - run_inv. exact H1.
Qed.

Lemma preserved_when (c : bool) (body : M unit) :
  preserved body -> preserved (when c body).
Proof. intros Hb. destruct c; [exact Hb | apply preserved_ret]. Qed.

Lemma preserved_perform (c : call) : preserved (perform c).
Proof. intros self tr self' r H. cbn in H. run_inv. apply R_refl. Qed.

Lemma preserved_lift {A : Type} (x : result A) : preserved (lift x).
Proof. destruct x; [apply preserved_raise | apply preserved_ret]. Qed.

Lemma preserved_raise_if (x : option exn) : preserved (raise_if x).
Proof. destruct x; [apply preserved_raise | apply preserved_ret]. Qed.

Lemma preserved_time_time : preserved time_time.
Proof. intros self tr self' r H. exact (preserved_perform (c := TimeTime) H). Qed.

Lemma preserved_time_sleep d : preserved (time_sleep d).
Proof. intros self tr self' r H. exact (preserved_perform (c := TimeSleep d) H). Qed.

Lemma preserved_requests_post q : preserved (requests_post q).
Proof.
  apply preserved_bind; [exact (@preserved_perform (RequestsPost q)) | intros; apply preserved_lift].
Qed.

Lemma preserved_datetime_now : preserved datetime_now.
Proof. intros self tr self' r H. exact (preserved_perform (c := DatetimeNow) H). Qed.

Lemma preserved_read_file p : preserved (read_file p).
Proof.
  apply preserved_bind; [exact (@preserved_perform (ReadFile p)) | intros; apply preserved_lift].
Qed.

Lemma preserved_open_write p : preserved (open_write p).
Proof.
  apply preserved_bind; [exact (@preserved_perform (OpenWrite p)) | intros; apply preserved_raise_if].
Qed.

Lemma preserved_write_close p c : preserved (write_close p c).
Proof.
  apply preserved_bind; [exact (@preserved_perform (WriteClose p c)) | intros; apply preserved_raise_if].
Qed.

Lemma preserved_json_dump p v : preserved (json_dump p v).
Proof.
  apply preserved_bind; [exact (@preserved_perform (JsonDump p v)) | intros; apply preserved_raise_if].
Qed.

Lemma preserved_attempt {A : Type} (c : M A) : preserved c -> preserved (attempt c).
Proof.
  intros Hc. apply preserved_catch.
  - apply preserved_bind; [exact Hc | intros; apply preserved_ret].
  - intros; apply preserved_ret.
Qed.

Lemma preserved_tracker : preserved tracker.
Proof. apply preserved_bind; [apply preserved_get | intros; apply preserved_ret]. Qed.

Lemma preserved_check_status q : preserved (check_status q).
Proof. apply preserved_raise_if. Qed.

Lemma preserved_completion q : preserved (completion q).
Proof. apply preserved_lift. Qed.

Lemma preserved_update_tracker (f : UsageTracker -> UsageTracker) :
  (forall s, R s (Processor (api_key s) (provider s) (f (usage_tracker s)))) ->
  preserved (update_tracker f).
Proof.
  intros Hf self tr self' r H. cbn in H. run_inv. apply Hf.
Qed.

End Preserved.

(** The step relation of the counters that never go back: same key and
    provider, and [requests_today] no smaller. *)
Definition count_kept (s s' : EmailLLMProcessor) : Prop :=
  api_key s' = api_key s /\ provider s' = provider s /\
  (requests_today (usage_tracker s) <= requests_today (usage_tracker s'))%Z.

Lemma count_kept_refl s : count_kept s s.
Proof. unfold count_kept. repeat split; lia. Qed.

Lemma count_kept_trans a b c : count_kept a b -> count_kept b c -> count_kept a c.
Proof.
  unfold count_kept. intros (-> & -> & H1) (-> & -> & H2). repeat split. lia.
Qed.

(** [requests_today] is left as it is: the relation of the admission
    check. *)
Definition count_same (s s' : EmailLLMProcessor) : Prop :=
  api_key s' = api_key s /\ provider s' = provider s /\
  requests_today (usage_tracker s') = requests_today (usage_tracker s) /\
  last_request_time (usage_tracker s') = last_request_time (usage_tracker s).

Lemma count_same_refl s : count_same s s.
Proof. unfold count_same. repeat split. Qed.

Lemma count_same_trans a b c : count_same a b -> count_same b c -> count_same a c.
Proof.
  unfold count_same. intros (-> & -> & -> & ->) (-> & -> & -> & ->). repeat split.
Qed.

Ltac preserve_setter :=
  apply preserved_update_tracker; intros [? ? [? ? ? ? ?]];
  unfold count_kept, count_same; cbn; repeat split; lia.

Ltac preserve_rel :=
  first [ exact count_same_trans | exact count_kept_trans
        | exact count_same_refl | exact count_kept_refl ].

Ltac preserve :=
  cbv zeta;
  repeat first
    [ preserve_rel
    | preserve_setter
    | apply preserved_tracker
    | apply preserved_time_time
    | apply preserved_time_sleep
    | apply preserved_requests_post
    | apply preserved_datetime_now
    | apply preserved_check_status
    | apply preserved_completion
    | apply preserved_read_file
    | apply preserved_open_write
    | apply preserved_write_close
    | apply preserved_json_dump
    | apply preserved_attempt
    | apply preserved_lift
    | apply preserved_raise_if
    | apply preserved_bind; [ | | intros ]
    | apply preserved_catch; [ | | intros ]
    | apply preserved_when
    | apply preserved_ret
    | apply preserved_raise
    | apply preserved_get
    | match goal with
      | |- preserved _ (perform ?c) => refine (@preserved_perform _ _ c)
      | |- preserved _ (match ?x with _ => _ end) => destruct x
      | |- preserved _ (if ?x then _ else _) => destruct x
      | |- preserved _ (let (_, _) := ?x in _) => destruct x
      end ].

Lemma check_rate_limits_same : preserved count_same _check_rate_limits.
Proof.
  unfold _check_rate_limits. preserve.
Qed.

Lemma check_rate_limits_pass self tr self' :
  runs (run _check_rate_limits self) tr (self', inr tt) ->
  (requests_today (usage_tracker self) < requests_per_day rate_limits_google)%Z.
Proof.
  intros Hrun.
  destruct (Z_lt_ge_dec (requests_today (usage_tracker self))
              (requests_per_day rate_limits_google)) as [Hlt | Hge]; [exact Hlt |].
  destruct (check_rate_limits_daily Hge Hrun) as (Habs & _). discriminate.
Qed.

Lemma update_usage_tracker_run tokens self tr self' r :
  runs (run (_update_usage_tracker tokens) self) tr (self', r) ->
  r = inr tt /\ api_key self' = api_key self /\ provider self' = provider self /\
  requests_today (usage_tracker self') = (requests_today (usage_tracker self) + 1)%Z /\
  requests_this_minute (usage_tracker self') =
    (requests_this_minute (usage_tracker self) + 1)%Z /\
  tokens_this_minute (usage_tracker self') =
    (tokens_this_minute (usage_tracker self) + tokens)%Z /\
  minute_start_time (usage_tracker self') = minute_start_time (usage_tracker self) /\
  exists now, tr = [ETime now] /\ last_request_time (usage_tracker self') = now.
Proof.
  intros Hrun. destruct self as [key prov [rm tm rt lr ms]].
  cbn in Hrun. run_inv. cbn. repeat split. eexists. split; reflexivity.
Qed.

Lemma update_usage_tracker_kept tokens : preserved count_kept (_update_usage_tracker tokens).
Proof.
  intros self tr self' r Hrun. apply update_usage_tracker_run in Hrun.
  destruct Hrun as (_ & Hk & Hp & Ht & _). unfold count_kept. repeat split; auto; lia.
Qed.

Lemma count_same_kept s s' : count_same s s' -> count_kept s s'.
Proof. unfold count_same, count_kept. intros (-> & -> & -> & _). repeat split. lia. Qed.

Lemma check_rate_limits_kept : preserved count_kept _check_rate_limits.
Proof.
  intros self tr self' r Hrun. apply count_same_kept.
  exact (check_rate_limits_same Hrun).
Qed.

Lemma call_openai_kept prompt : preserved count_kept (_call_openai_api prompt).
Proof. unfold _call_openai_api. preserve. Qed.

Lemma call_anthropic_kept prompt : preserved count_kept (_call_anthropic_api prompt).
Proof. unfold _call_anthropic_api. preserve. Qed.

Lemma call_google_kept prompt : preserved count_kept (_call_google_api prompt).
Proof.
  unfold _call_google_api.
  apply preserved_bind; [preserve_rel | apply check_rate_limits_kept | intros].
  cbv zeta.
  apply preserved_bind; [preserve_rel | preserve | intros].
  apply preserved_bind; [preserve_rel | preserve | intros].
  apply preserved_bind; [preserve_rel | preserve | intros].
  apply preserved_bind; [preserve_rel | apply update_usage_tracker_kept | intros].
  preserve.
Qed.

Lemma call_llm_kept prompt : preserved count_kept (_call_llm_api prompt).
Proof.
  unfold _call_llm_api.
  apply preserved_bind; [preserve_rel | preserve | intros self0].
  destruct (Py.eqb (provider self0) (lit "openai")); [apply call_openai_kept |].
  destruct (Py.eqb (provider self0) (lit "anthropic")); [apply call_anthropic_kept |].
  destruct (Py.eqb (provider self0) (lit "google")); [apply call_google_kept |].
  preserve.
Qed.

(** A call of [_call_google_api] that returned its text was admitted below
    the daily limit and counted once. *)
Lemma call_google_returns prompt self tr self' text :
  runs (run (_call_google_api prompt) self) tr (self', inr text) ->
  (requests_today (usage_tracker self) < requests_per_day rate_limits_google)%Z /\
  requests_today (usage_tracker self') = (requests_today (usage_tracker self) + 1)%Z.
Proof.
  intros Hrun. unfold _call_google_api in Hrun.
  apply runs_bind in Hrun. destruct Hrun as (tr1 & self1 & r1 & tr2 & H1 & -> & H2).
  destruct r1 as [e | []]; [destruct H2 as (_ & _ & Habs); discriminate |].
  pose proof (check_rate_limits_pass H1) as Hlt.
  pose proof (check_rate_limits_same H1) as (_ & _ & Hsame & _).
  split; [exact Hlt |]. rewrite <- Hsame. clear H1 Hlt Hsame tr1 self.
  cbv zeta in H2.
  apply runs_bind in H2. destruct H2 as (tg & sg & rg & tg' & Hg & -> & H2).
  apply get_run in Hg. destruct Hg as (-> & -> & ->).
  apply runs_bind in H2. destruct H2 as (tp & sp & rp & tp' & Hp & -> & H2).
  apply requests_post_run in Hp. destruct Hp as (-> & ->).
  destruct rp as [e | resp]; [destruct H2 as (_ & _ & Habs); discriminate |].
  apply runs_bind in H2. destruct H2 as (tc & sc & rc & tc' & Hc & -> & H2).
  apply raise_if_run in Hc. destruct Hc as (-> & -> & ->).
  destruct (raise_for_status resp); [destruct H2 as (_ & _ & Habs); discriminate |].
  apply runs_bind in H2. destruct H2 as (tu & su & ru & tu' & Hu & -> & H2).
  apply update_usage_tracker_run in Hu. destruct Hu as (-> & _ & _ & Hcount & _).
  apply lift_run in H2. destruct H2 as (_ & -> & _).
  exact Hcount.
Qed.

Lemma google_calls_count self n self' :
  google_calls self n self' ->
  requests_today (usage_tracker self') =
    (requests_today (usage_tracker self) + Z.of_nat n)%Z.
Proof.
  induction 1 as [self | self prompt tr self1 text n self2 Hcall _ IH].
  - simpl. lia.
  - apply call_google_returns in Hcall. destruct Hcall as (_ & Hone). lia.
Qed.

(** A call of [_call_google_api] on an instance at its daily limit raises
    at the admission check: nobody sleeps and nothing is sent. *)
Lemma call_google_daily prompt self tr self' r :
  (requests_today (usage_tracker self) >= requests_per_day rate_limits_google)%Z ->
  runs (run (_call_google_api prompt) self) tr (self', r) ->
  r = inl daily_limit_error /\ no_sleep tr /\ no_post tr.
Proof.
  intros Hday Hrun. unfold _call_google_api in Hrun.
  apply runs_bind in Hrun. destruct Hrun as (tr1 & self1 & r1 & tr2 & H1 & -> & H2).
  destruct (check_rate_limits_daily Hday H1) as (-> & Hs & Hp & _).
  destruct H2 as (-> & -> & ->). rewrite app_nil_r. auto.
Qed.

(** *** Runs that exist: the world answers, the method goes on *)


(** The admission check at a time [now] with the daily limit reached: it
    raises on the spot. *)
Lemma check_rate_limits_daily_runs self now :
  (requests_today (usage_tracker self) >= requests_per_day rate_limits_google)%Z ->
  exists self', runs (run _check_rate_limits self) [ETime now] (self', inl daily_limit_error).
Proof.
  intros Hday. destruct self as [key prov [rm tm rt lr ms]]. simpl in Hday.
  unfold _check_rate_limits. cbn. unfold when.
  destruct (Qge_bool (now - ms) 60) eqn:Hreset; eexists;
    apply (runs_call TimeTime _ now); cbn; rewrite Hreset; cbn;
    (destruct (Z.geb_spec rt 1000); [| lia]); cbn; constructor.
Qed.

(** A call of [_call_google_api] below the daily limit, more than a minute
    after the window started and at least four seconds after the last
    request, with a world that answers the request with [text]: nobody
    waits, and the call is counted. *)
Lemma call_google_clear key prov rm tm k lr ms now prompt text :
  (k < 1000)%Z -> Qge_bool (now - ms) 60 = true -> Qlt_bool (now - lr) 4 = false ->
  exists tr,
    runs (run (_call_google_api prompt) (Processor key prov (Tracker rm tm k lr ms))) tr
      (Processor key prov (Tracker 1 (Py.len prompt / 4) (k + 1) now now), inr text).
Proof.
  intros Hk Hreset Hdelay. eexists.
  unfold _call_google_api, _check_rate_limits. cbn.
  apply (runs_call TimeTime _ now). cbn. unfold when. rewrite Hreset. cbn.
  destruct (Z.geb_spec k 1000); [lia |]. cbn. rewrite Hdelay. cbn.
  apply (runs_call (RequestsPost _) _ (inr (Response None (inr text)))). cbn.
  apply (runs_call TimeTime _ now). cbn. constructor.
Qed.

(** An instance of the [google] provider that made [k] requests, the last
    one at second [100 * k]. *)
Definition paced (rm k : Z) : EmailLLMProcessor :=
  Processor (Some (lit "key")) (lit "google")
    (Tracker rm 0 k (inject_Z (100 * k)) (inject_Z (100 * k))).

Lemma paced_clock k :
  Qge_bool (inject_Z (100 * (k + 1)) - inject_Z (100 * k)) 60 = true /\
  Qlt_bool (inject_Z (100 * (k + 1)) - inject_Z (100 * k)) 4 = false.
Proof.
  unfold Qge_bool, Qlt_bool. rewrite negb_false_iff, !Qle_bool_iff.
  unfold Qminus. rewrite <- inject_Z_opp, <- inject_Z_plus.
  change 60 with (inject_Z 60). change 4 with (inject_Z 4).
  rewrite <- !Zle_Qle. lia.
Qed.

(** One request every hundred seconds: [n] calls return, one after the
    other, up to the daily limit. *)
Lemma paced_calls n : forall rm k,
  (0 <= k)%Z -> (k + Z.of_nat n <= 1000)%Z ->
  google_calls (paced rm k) n
    (paced (match n with O => rm | S _ => 1 end) (k + Z.of_nat n)).
Proof.
  induction n as [| n IH]; intros rm k Hk Hkn.
  - replace (k + Z.of_nat 0)%Z with k by lia. constructor.
  - destruct (paced_clock k) as (Hreset & Hdelay).
    destruct (@call_google_clear (Some (lit "key")) (lit "google") rm 0%Z k _ _
                (inject_Z (100 * (k + 1))) [] [] ltac:(lia) Hreset Hdelay) as (tr & Hrun).
    replace (k + Z.of_nat (S n))%Z with (k + 1 + Z.of_nat n)%Z by lia.
    econstructor; [exact Hrun |].
    specialize (IH 1%Z (k + 1)%Z ltac:(lia) ltac:(lia)).
    destruct n; exact IH.
Qed.

(** C4. Whenever [requests_today] has reached [requests_per_day] (1000)
    when an admission check starts -- because the counter says so, or
    because 1000 calls of the provider were admitted, sent and counted on
    an instance that started at zero -- the check raises the daily-limit
    exception: every run of [_check_rate_limits] ends with it and holds no
    [time.sleep], such a run exists at every time of day, and a call of
    [_call_google_api] ends with it before anything is sent. *)
Theorem daily_limit_raises_without_waiting self :
  (requests_today (usage_tracker self) >= 1000)%Z \/
  (exists fresh, requests_today (usage_tracker fresh) = 0%Z /\ google_calls fresh 1000 self) ->
  (forall tr self' r,
      runs (run _check_rate_limits self) tr (self', r) ->
      r = inl daily_limit_error /\ no_sleep tr) /\
  (forall now, exists self',
      runs (run _check_rate_limits self) [ETime now] (self', inl daily_limit_error)) /\
  (forall prompt tr self' r,
      runs (run (_call_google_api prompt) self) tr (self', r) ->
      r = inl daily_limit_error /\ no_sleep tr /\ no_post tr).
Proof.
  intros Hreached.
  assert (Hday : (requests_today (usage_tracker self) >= requests_per_day rate_limits_google)%Z).
  { destruct Hreached as [Hcount | (fresh & Hzero & Hcalls)]; [exact Hcount |].
    apply google_calls_count in Hcalls. rewrite Hcalls, Hzero. simpl. lia. }
  split; [| split].
  - intros tr self' r Hrun.
    destruct (check_rate_limits_daily Hday Hrun) as (Hr & Hs & _). auto.
  - intros now. apply check_rate_limits_daily_runs. exact Hday.
  - intros prompt tr self' r Hrun. exact (call_google_daily Hday Hrun).
Qed.

Lemma daily_limit_raises_without_waiting_witness :
  (* a counter at the limit *)
  (forall tr self' r,
      runs (run _check_rate_limits (paced 3 1000)) tr (self', r) ->
      r = inl daily_limit_error /\ no_sleep tr) /\
  (* a thousand calls from zero *)
  (google_calls (paced 0 0) 1000 (paced 1 1000) /\
   forall prompt tr self' r,
      runs (run (_call_google_api prompt) (paced 1 1000)) tr (self', r) ->
      r = inl daily_limit_error /\ no_sleep tr /\ no_post tr).
Proof.
  split.
  - apply (@daily_limit_raises_without_waiting (paced 3 1000)).
    left. simpl. lia.
  - assert (Hcalls : google_calls (paced 0 0) 1000 (paced 1 1000)).
    { exact (@paced_calls 1000 0%Z 0%Z ltac:(lia) ltac:(lia)). }
    split; [exact Hcalls |].
    apply (@daily_limit_raises_without_waiting (paced 1 1000)).
    right. exists (paced 0 0). split; [reflexivity | exact Hcalls].
Defined.

(** ** [requests_today] over the life of an instance *)

(** Below the daily limit the admission check returns: it may wait, it
    never raises. *)
Lemma check_rate_limits_below self tr self' r :
  (requests_today (usage_tracker self) < requests_per_day rate_limits_google)%Z ->
  runs (run _check_rate_limits self) tr (self', r) -> r = inr tt.
Proof.
  intros Hday Hrun. destruct self as [key prov [rm tm rt lr ms]]. simpl in Hday.
  unfold _check_rate_limits in Hrun. cbn in Hrun. run_inv. unfold when in Hrun.
  destruct (Qge_bool (x - ms) 60); cbn in Hrun;
    (destruct (Z.geb_spec rt 1000); [lia |]); cbn in Hrun;
    repeat first
      [ progress run_inv
      | match type of Hrun with
        | context [if ?c then _ else _] => destruct c; cbn in Hrun
        end ];
    repeat match goal with
           | u : answer (TimeSleep _) |- _ => destruct u
           end;
    reflexivity.
Qed.

(** The check raises the daily-limit exception exactly when the counter
    has reached the limit. *)
Lemma check_rate_limits_raised self tr self' e :
  runs (run _check_rate_limits self) tr (self', inl e) ->
  (requests_today (usage_tracker self') >= requests_per_day rate_limits_google)%Z.
Proof.
  intros Hrun.
  destruct (Z_lt_ge_dec (requests_today (usage_tracker self))
              (requests_per_day rate_limits_google)) as [Hlt | Hge].
  - pose proof (check_rate_limits_below Hlt Hrun). discriminate.
  - destruct (check_rate_limits_daily Hge Hrun) as (_ & _ & _ & ->). exact Hge.
Qed.

Lemma get_usage_status_kept : preserved count_kept get_usage_status.
Proof. unfold get_usage_status. preserve. Qed.

Lemma parse_extracted_file_kept path : preserved count_kept (_parse_extracted_file path).
Proof. unfold _parse_extracted_file. preserve. Qed.

Lemma process_all_emails_batch_kept rt emails :
  preserved count_kept (_process_all_emails_batch rt emails).
Proof.
  unfold _process_all_emails_batch. cbv zeta.
  apply preserved_bind; [preserve_rel | preserve | intros self0].
  apply preserved_bind; [preserve_rel | preserve | intros].
  apply preserved_bind; [preserve_rel | apply call_llm_kept | intros].
  preserve.
Qed.

Lemma save_results_kept v path : preserved count_kept (_save_results v path).
Proof. unfold _save_results. preserve. Qed.

Lemma process_emails_from_file_kept rt path out :
  preserved count_kept (process_emails_from_file rt path out).
Proof.
  unfold process_emails_from_file.
  apply preserved_bind; [preserve_rel | preserve | intros self0].
  destruct (negb (given (api_key self0))); [preserve |].
  apply preserved_bind; [preserve_rel | apply parse_extracted_file_kept | intros emails].
  destruct emails as [| email emails]; [preserve |].
  apply preserved_bind; [preserve_rel | preserve | intros].
  apply preserved_catch; [preserve_rel | | intros; preserve].
  apply preserved_bind; [preserve_rel | apply process_all_emails_batch_kept | intros].
  apply preserved_bind; [preserve_rel | | intros; preserve].
  destruct out as [out |]; [| preserve].
  apply preserved_when; [preserve_rel |]. apply save_results_kept.
Qed.

Lemma generate_summary_report_kept rt v path :
  preserved count_kept (generate_summary_report rt v path).
Proof. unfold generate_summary_report. preserve. Qed.

Lemma operation_kept self self' : operation self self' -> count_kept self self'.
Proof.
  intros Hop. destruct Hop as
    [ self tr self' r H | tokens self tr self' r H | self tr self' r H
    | prompt self tr self' r H | prompt self tr self' r H | prompt self tr self' r H
    | prompt self tr self' r H | path self tr self' r H | rt emails self tr self' r H
    | v path self tr self' r H | rt path out self tr self' r H | rt v path self tr self' r H ].
  - eapply check_rate_limits_kept; exact H.
  - eapply update_usage_tracker_kept; exact H.
  - eapply get_usage_status_kept; exact H.
  - eapply call_openai_kept; exact H.
  - eapply call_anthropic_kept; exact H.
  - eapply call_google_kept; exact H.
  - eapply call_llm_kept; exact H.
  - eapply parse_extracted_file_kept; exact H.
  - eapply process_all_emails_batch_kept; exact H.
  - eapply save_results_kept; exact H.
  - eapply process_emails_from_file_kept; exact H.
  - eapply generate_summary_report_kept; exact H.
Qed.

Lemma lifetime_kept self self' : lifetime self self' -> count_kept self self'.
Proof.
  induction 1 as [self | self mid self' Hop _ IH].
  - apply count_kept_refl.
  - apply operation_kept in Hop. eapply count_kept_trans; eassumption.
Qed.

(** C10. Over the life of one instance -- any sequence of calls of its
    methods, whatever the world answers -- [requests_today] never
    decreases; so from the state in which an admission check raised the
    daily-limit exception, every later admission check raises it too, at
    whatever time it is made. *)
Theorem requests_today_never_decreases self self' :
  lifetime self self' ->
  (requests_today (usage_tracker self) <= requests_today (usage_tracker self'))%Z /\
  ((exists before tr, runs (run _check_rate_limits before) tr (self, inl daily_limit_error)) ->
   forall tr' self'' r,
     runs (run _check_rate_limits self') tr' (self'', r) -> r = inl daily_limit_error).
Proof.
  intros Hlife. apply lifetime_kept in Hlife. destruct Hlife as (_ & _ & Hle).
  split; [exact Hle |].
  intros (before & tr & Hraised) tr' self'' r Hrun.
  apply check_rate_limits_raised in Hraised.
  assert (Hday : (requests_today (usage_tracker self') >= requests_per_day rate_limits_google)%Z)
    by lia.
  destruct (check_rate_limits_daily Hday Hrun) as (Hr & _). exact Hr.
Qed.

Lemma requests_today_never_decreases_witness :
  let later := Processor (Some (lit "key")) (lit "google")
                 (Tracker 0 0 1000 (inject_Z 100000) (inject_Z 200000)) in
  runs (run _check_rate_limits (paced 1 1000)) [ETime (inject_Z 100000)]
    (paced 1 1000, inl daily_limit_error) /\
  lifetime (paced 1 1000) later /\
  (requests_today (usage_tracker (paced 1 1000)) <= requests_today (usage_tracker later))%Z /\
  forall tr' self'' r,
    runs (run _check_rate_limits later) tr' (self'', r) -> r = inl daily_limit_error.
Proof.
  intros later.
  assert (Hraised : runs (run _check_rate_limits (paced 1 1000)) [ETime (inject_Z 100000)]
                      (paced 1 1000, inl daily_limit_error)).
  { unfold _check_rate_limits. cbn.
    apply (runs_call TimeTime _ (inject_Z 100000)). cbn. constructor. }
  assert (Hlater : lifetime (paced 1 1000) later).
  { eapply rt1n_trans; [| apply rt1n_refl].
    apply (@op_check_rate_limits (paced 1 1000) [ETime (inject_Z 200000)] later
             (inl daily_limit_error)).
    unfold _check_rate_limits. cbn.
    apply (runs_call TimeTime _ (inject_Z 200000)). cbn. constructor. }
  split; [exact Hraised |]. split; [exact Hlater |].
  destruct (@requests_today_never_decreases (paced 1 1000) later Hlater) as (Hle & Hnext).
  split; [exact Hle |].
  apply Hnext. exists (paced 1 1000), [ETime (inject_Z 100000)]. exact Hraised.
Defined.

(** ** The minute window *)

(** A call of [_call_google_api] inside the minute window, below every
    limit and at least four seconds after the last request: the window is
    kept and the counters grow. *)
Lemma call_google_within_minute key prov rm tm k lr ms now prompt text :
  (k < 1000)%Z -> (rm < 15)%Z -> (tm < 250000)%Z ->
  Qge_bool (now - ms) 60 = false -> Qlt_bool (now - lr) 4 = false ->
  exists tr,
    runs (run (_call_google_api prompt) (Processor key prov (Tracker rm tm k lr ms))) tr
      (Processor key prov (Tracker (rm + 1) (tm + Py.len prompt / 4) (k + 1) now ms),
       inr text).
Proof.
  intros Hk Hrm Htm Hreset Hdelay. eexists.
  unfold _call_google_api, _check_rate_limits. cbn.
  apply (runs_call TimeTime _ now). cbn. unfold when. rewrite Hreset. cbn.
  destruct (Z.geb_spec k 1000); [lia |]. cbn.
  destruct (Z.geb_spec rm 15); [lia |]. cbn.
  destruct (Z.geb_spec tm 250000); [lia |]. cbn. rewrite Hdelay. cbn.
  apply (runs_call (RequestsPost _) _ (inr (Response None (inr text)))). cbn.
  apply (runs_call TimeTime _ now). cbn. constructor.
Qed.

(** An instance of the [google] provider with the given tracker. *)
Definition google_instance (ut : UsageTracker) : EmailLLMProcessor :=
  Processor (Some (lit "key")) (lit "google") ut.

(** A prompt of a million characters: 250000 estimated tokens. *)
Definition long_prompt : str := repeat 97%N (N.to_nat 1000000).

Lemma long_prompt_tokens : (Py.len long_prompt / 4 = 250000)%Z.
Proof.
  unfold Py.len, long_prompt. rewrite repeat_length, N_nat_Z. reflexivity.
Qed.

(** C2, at the input where the code leaves the invariant. An instance
    built at second 0 sends one prompt of a million characters at second 5:
    its tracker holds one request and 250000 tokens. The admission check at
    second 10 finds the token limit reached, sleeps 50 seconds, zeroes
    [tokens_this_minute] and restarts the window at second 60, and leaves
    [requests_this_minute] at 1. The two sibling paths zero both counters:
    the wait for the request limit, from 15 requests in the same window,
    and the reset of a window older than a minute. *)
Theorem token_wait_zeroes_tokens_only :
  let before := google_instance (Tracker 1 250000 1 5 0) in
  let after := google_instance (Tracker 1 0 1 5 60) in
  (* the state is reached from a new instance *)
  runs (__init__ (Some (lit "key")) (lit "google")) [ETime 0]
    (google_instance (Tracker 0 0 0 0 0)) /\
  google_calls (google_instance (Tracker 0 0 0 0 0)) 1 before /\
  (* the token wait *)
  runs (run _check_rate_limits before) [ETime 10; ESleep 50; ETime 60] (after, inr tt) /\
  minute_start_time (usage_tracker before) < minute_start_time (usage_tracker after) /\
  tokens_this_minute (usage_tracker after) = 0%Z /\
  requests_this_minute (usage_tracker after) = 1%Z /\
  (* the request wait and the minute reset zero both *)
  runs (run _check_rate_limits (google_instance (Tracker 15 100 15 5 0)))
    [ETime 10; ESleep 50; ETime 60] (google_instance (Tracker 0 0 15 5 60), inr tt) /\
  runs (run _check_rate_limits (google_instance (Tracker 1 250000 1 5 0)))
    [ETime 70] (google_instance (Tracker 0 0 1 5 70), inr tt).
Proof.
  intros before after. repeat split.
  - unfold __init__. apply (runs_call TimeTime _ 0). constructor.
  - destruct (@call_google_within_minute (Some (lit "key")) (lit "google") 0%Z 0%Z 0%Z 0 0 5
                long_prompt [] ltac:(lia) ltac:(lia) ltac:(lia) eq_refl eq_refl) as (tr & Hrun).
    rewrite long_prompt_tokens in Hrun.
    econstructor; [exact Hrun | constructor].
  - unfold _check_rate_limits. cbn.
    apply (runs_call TimeTime _ 10). cbn.
    apply (runs_call (TimeSleep _) _ tt). cbn.
    apply (runs_call TimeTime _ 60). cbn. constructor.
  - unfold _check_rate_limits. cbn.
    apply (runs_call TimeTime _ 10). cbn.
    apply (runs_call (TimeSleep _) _ tt). cbn.
    apply (runs_call TimeTime _ 60). cbn. constructor.
  - unfold _check_rate_limits. cbn.
    apply (runs_call TimeTime _ 70). cbn. constructor.
Qed.

(** ** The provider calls and the admission check *)

Lemma eqb_eq (a b : str) : Py.eqb a b = true <-> a = b.
Proof.
  unfold Py.eqb. destruct (list_eq_dec N.eq_dec a b); split; intros; congruence.
Qed.

(** Every run of [_check_rate_limits] starts by reading the clock. *)
Lemma check_rate_limits_reads_clock self tr self' r :
  runs (run _check_rate_limits self) tr (self', r) ->
  exists now rest, tr = ETime now :: rest.
Proof.
  intros Hrun. unfold _check_rate_limits in Hrun.
  apply runs_bind in Hrun. destruct Hrun as (tr1 & self1 & r1 & tr2 & H1 & -> & _).
  destruct (@perform_run TimeTime _ _ _ _ H1) as (now & -> & _).
  exists now, tr2. reflexivity.
Qed.

(** A call of the [openai] or of the [anthropic] variant is one
    [requests.post] and nothing else: the tracker is neither read nor
    written. *)
Lemma call_openai_run prompt self tr self' r :
  runs (run (_call_openai_api prompt) self) tr (self', r) ->
  self' = self /\ exists q x, tr = [EPost q x] /\ url q = base_url_openai /\ r = outcome x.
Proof.
  intros Hrun. unfold _call_openai_api in Hrun.
  apply runs_bind in Hrun. destruct Hrun as (tg & sg & rg & tg' & Hg & -> & H2).
  apply get_run in Hg. destruct Hg as (-> & -> & ->). cbv zeta in H2.
  apply runs_bind in H2. destruct H2 as (tp & sp & rp & tp' & Hp & -> & H2).
  apply requests_post_run in Hp. destruct Hp as (-> & ->).
  split; [destruct rp as [e | resp] |].
  - destruct H2 as (_ & -> & _). reflexivity.
  - apply runs_bind in H2. destruct H2 as (tc & sc & rc & tc' & Hc & -> & H2).
    apply raise_if_run in Hc. destruct Hc as (-> & -> & ->).
    destruct (raise_for_status resp).
    + destruct H2 as (_ & -> & _). reflexivity.
    + apply lift_run in H2. destruct H2 as (_ & -> & _). reflexivity.
  - eexists _, rp. unfold outcome. destruct rp as [e | resp].
    + destruct H2 as (-> & _ & ->). repeat split.
    + apply runs_bind in H2. destruct H2 as (tc & sc & rc & tc' & Hc & -> & H2).
      apply raise_if_run in Hc. destruct Hc as (-> & -> & ->).
      destruct (raise_for_status resp).
      * destruct H2 as (-> & _ & ->). repeat split.
      * apply lift_run in H2. destruct H2 as (-> & _ & ->). repeat split.
Qed.

Lemma call_anthropic_run prompt self tr self' r :
  runs (run (_call_anthropic_api prompt) self) tr (self', r) ->
  self' = self /\ exists q x, tr = [EPost q x] /\ url q = base_url_anthropic /\ r = outcome x.
Proof.
  intros Hrun. unfold _call_anthropic_api in Hrun.
  apply runs_bind in Hrun. destruct Hrun as (tg & sg & rg & tg' & Hg & -> & H2).
  apply get_run in Hg. destruct Hg as (-> & -> & ->). cbv zeta in H2.
  apply runs_bind in H2. destruct H2 as (tp & sp & rp & tp' & Hp & -> & H2).
  apply requests_post_run in Hp. destruct Hp as (-> & ->).
  split; [destruct rp as [e | resp] |].
  - destruct H2 as (_ & -> & _). reflexivity.
  - apply runs_bind in H2. destruct H2 as (tc & sc & rc & tc' & Hc & -> & H2).
    apply raise_if_run in Hc. destruct Hc as (-> & -> & ->).
    destruct (raise_for_status resp).
    + destruct H2 as (_ & -> & _). reflexivity.
    + apply lift_run in H2. destruct H2 as (_ & -> & _). reflexivity.
  - eexists _, rp. unfold outcome. destruct rp as [e | resp].
    + destruct H2 as (-> & _ & ->). repeat split.
    + apply runs_bind in H2. destruct H2 as (tc & sc & rc & tc' & Hc & -> & H2).
      apply raise_if_run in Hc. destruct Hc as (-> & -> & ->).
      destruct (raise_for_status resp).
      * destruct H2 as (-> & _ & ->). repeat split.
      * apply lift_run in H2. destruct H2 as (-> & _ & ->). repeat split.
Qed.

(** A call of the [google] variant is a run of the admission check and,
    when the check returned, one [requests.post]; a 2xx answer is counted
    with [len(prompt) // 4] tokens before the envelope is read, any other
    answer leaves the tracker as the check left it. *)
Lemma call_google_run prompt self tr self' r :
  runs (run (_call_google_api prompt) self) tr (self', r) ->
  exists tr1 self1 r1 tr2,
    runs (run _check_rate_limits self) tr1 (self1, r1) /\ tr = tr1 ++ tr2 /\
    no_post tr1 /\
    match r1 with
    | inl e => tr2 = [] /\ self' = self1 /\ r = inl e
    | inr _ =>
        exists q x rest, tr2 = EPost q x :: rest /\ url q = base_url_google /\ no_post rest /\
          r = outcome x /\
          if accepted x
          then tokens_this_minute (usage_tracker self') =
                 (tokens_this_minute (usage_tracker self1) + Py.len prompt / 4)%Z /\
               requests_this_minute (usage_tracker self') =
                 (requests_this_minute (usage_tracker self1) + 1)%Z /\
               requests_today (usage_tracker self') =
                 (requests_today (usage_tracker self1) + 1)%Z
          else self' = self1
    end.
Proof.
  intros Hrun. unfold _call_google_api in Hrun.
  apply runs_bind in Hrun. destruct Hrun as (tr1 & self1 & r1 & tr2 & H1 & -> & H2).
  exists tr1, self1, r1, tr2. split; [exact H1 |]. split; [reflexivity |].
  assert (Hnp : no_post tr1).
  { clear H2. destruct self as [key prov [rm tm rt lr ms]].
    unfold _check_rate_limits in H1. cbn in H1. run_inv. unfold when in H1.
    repeat first
      [ progress run_inv
      | match type of H1 with
        | context [if ?c then _ else _] => destruct c; cbn in H1
        end ];
    intros ? ? Hin; simpl in Hin;
    repeat (destruct Hin as [Hin | Hin]; [discriminate |]); exact Hin. }
  split; [exact Hnp |].
  destruct r1 as [e | []]; [exact H2 |].
  cbv zeta in H2.
  apply runs_bind in H2. destruct H2 as (tg & sg & rg & tg' & Hg & -> & H2).
  apply get_run in Hg. destruct Hg as (-> & -> & ->).
  apply runs_bind in H2. destruct H2 as (tp & sp & rp & tp' & Hp & -> & H2).
  apply requests_post_run in Hp. destruct Hp as (-> & ->).
  eexists _, rp, tp'. split; [reflexivity |]. split; [reflexivity |].
  destruct rp as [e | resp].
  { destruct H2 as (-> & -> & ->). cbn. split; [intros ? ? [] | split; reflexivity]. }
  apply runs_bind in H2. destruct H2 as (tc & sc & rc & tc' & Hc & -> & H2).
  apply raise_if_run in Hc. destruct Hc as (-> & -> & ->).
  unfold outcome, accepted.
  destruct (raise_for_status resp).
  { destruct H2 as (-> & -> & ->). split; [intros ? ? [] | split; reflexivity]. }
  apply runs_bind in H2. destruct H2 as (tu & su & ru & tu' & Hu & -> & H2).
  apply update_usage_tracker_run in Hu.
  destruct Hu as (-> & _ & _ & Hday & Hmin & Htok & _ & now & -> & _).
  apply lift_run in H2. destruct H2 as (-> & -> & ->).
  split; [| split; [reflexivity | repeat split; assumption]].
  intros ? ? [Hin | []]. discriminate.
Qed.

Lemma call_llm_run prompt self tr self' r :
  runs (run (_call_llm_api prompt) self) tr (self', r) ->
  runs (run (if Py.eqb (provider self) (lit "openai") then _call_openai_api prompt
             else if Py.eqb (provider self) (lit "anthropic") then _call_anthropic_api prompt
             else if Py.eqb (provider self) (lit "google") then _call_google_api prompt
             else raise (ValueError (lit "Unsupported provider: " ++ provider self)))
          self) tr (self', r).
Proof.
  intros Hrun. unfold _call_llm_api in Hrun.
  apply runs_bind in Hrun. destruct Hrun as (tg & sg & rg & tg' & Hg & -> & H2).
  apply get_run in Hg. destruct Hg as (-> & -> & ->). exact H2.
Qed.

Lemma call_llm_runs prompt self tr self' r :
  runs (run (if Py.eqb (provider self) (lit "openai") then _call_openai_api prompt
             else if Py.eqb (provider self) (lit "anthropic") then _call_anthropic_api prompt
             else if Py.eqb (provider self) (lit "google") then _call_google_api prompt
             else raise (ValueError (lit "Unsupported provider: " ++ provider self)))
          self) tr (self', r) ->
  runs (run (_call_llm_api prompt) self) tr (self', r).
Proof.
  intros Hrun. unfold _call_llm_api.
  change tr with ([] ++ tr). eapply bind_runs; [| exact Hrun]. cbn. constructor.
Qed.

(** The three provider names are three strings. *)
Lemma provider_names :
  Py.eqb (lit "openai") (lit "openai") = true /\
  Py.eqb (lit "anthropic") (lit "openai") = false /\
  Py.eqb (lit "anthropic") (lit "anthropic") = true /\
  Py.eqb (lit "google") (lit "openai") = false /\
  Py.eqb (lit "google") (lit "anthropic") = false /\
  Py.eqb (lit "google") (lit "google") = true.
Proof. vm_compute. repeat split. Qed.

(** C3, as the code has it. Only the [google] variant checks the rate
    limits: every run of its call starts with a run of
    [_check_rate_limits] (which takes no token estimate), nothing is sent
    during the check, nothing is sent at all when the check raises, and
    when it returns one request follows. When the answer to that request
    is a 2xx, [len(prompt) // 4] is added to [tokens_this_minute] and the
    request is counted, whether or not the envelope of the answer can
    then be read; after any other answer the tracker is as the check left
    it. A call of the [openai] or of the [anthropic] variant is one
    [requests.post] alone, whatever the tracker holds, and leaves the
    instance as it was. *)
Theorem only_google_checks_rate_limits prompt self tr self' r :
  runs (run (_call_llm_api prompt) self) tr (self', r) ->
  (provider self = lit "google" ->
     exists tr1 self1 r1 tr2,
       runs (run _check_rate_limits self) tr1 (self1, r1) /\ tr = tr1 ++ tr2 /\
       no_post tr1 /\
       match r1 with
       | inl e => tr2 = [] /\ self' = self1 /\ r = inl e
       | inr _ =>
           exists q x rest, tr2 = EPost q x :: rest /\ url q = base_url_google /\
             no_post rest /\ r = outcome x /\
             if accepted x
             then tokens_this_minute (usage_tracker self') =
                    (tokens_this_minute (usage_tracker self1) + Py.len prompt / 4)%Z /\
                  requests_this_minute (usage_tracker self') =
                    (requests_this_minute (usage_tracker self1) + 1)%Z /\
                  requests_today (usage_tracker self') =
                    (requests_today (usage_tracker self1) + 1)%Z
             else self' = self1
       end) /\
  (provider self = lit "openai" \/ provider self = lit "anthropic" ->
     self' = self /\ exists q x, tr = [EPost q x] /\ r = outcome x).
Proof.
  intros Hrun. apply call_llm_run in Hrun.
  destruct provider_names as (Hoo & Hao & Haa & Hgo & Hga & Hgg).
  split.
  - intros Hprov. rewrite Hprov, Hgo, Hga, Hgg in Hrun.
    exact (call_google_run Hrun).
  - intros [Hprov | Hprov]; rewrite Hprov in Hrun.
    + rewrite Hoo in Hrun. apply call_openai_run in Hrun.
      destruct Hrun as (-> & q & x & -> & _ & ->). eauto.
    + rewrite Hao, Haa in Hrun. apply call_anthropic_run in Hrun.
      destruct Hrun as (-> & q & x & -> & _ & ->). eauto.
Qed.

(** An [openai] instance whose tracker is at the daily limit, and the
    answer of a provider. *)
Definition openai_at_limit : EmailLLMProcessor :=
  Processor (Some (lit "key")) (lit "openai") (Tracker 0 0 1000 0 0).

Definition ok_response : result response := inr (Response None (inr (lit "{}"))).

Lemma openai_at_limit_runs :
  exists q, runs (run (_call_llm_api (lit "hi")) openai_at_limit) [EPost q ok_response]
              (openai_at_limit, inr (lit "{}")).
Proof.
  eexists. apply call_llm_runs. change (provider openai_at_limit) with (lit "openai").
  rewrite (proj1 provider_names).
  unfold _call_openai_api. cbn.
  apply (runs_call (RequestsPost _) _ ok_response). cbn. constructor.
Qed.

(** C3, counterexample: an [openai] instance at the daily limit, where
    every admission check raises, sends its request all the same; so the
    [openai] variant does not call the admission check before it sends. *)
Lemma openai_sends_without_admission :
  (exists q, runs (run (_call_llm_api (lit "hi")) openai_at_limit) [EPost q ok_response]
               (openai_at_limit, inr (lit "{}"))) /\
  (forall tr1 self1 r1,
      runs (run _check_rate_limits openai_at_limit) tr1 (self1, r1) ->
      r1 = inl daily_limit_error) /\
  ~ admitted_before_sending (lit "openai").
Proof.
  split; [exact openai_at_limit_runs |]. split.
  - intros tr1 self1 r1 Hrun.
    assert (Hday : (requests_today (usage_tracker openai_at_limit)
                    >= requests_per_day rate_limits_google)%Z) by (simpl; lia).
    destruct (check_rate_limits_daily Hday Hrun) as (Hr & _). exact Hr.
  - intros Hclaim. destruct openai_at_limit_runs as (q & Hrun).
    destruct (Hclaim _ _ _ _ _ _ q ok_response Hrun (or_introl eq_refl))
      as (tr1 & self1 & tr2 & Hcheck & Htr & _).
    apply check_rate_limits_reads_clock in Hcheck. destruct Hcheck as (now & rest & ->).
    discriminate Htr.
Qed.

(** A [google] instance at the daily limit: its call stops at the check. *)
Lemma google_at_limit_runs :
  runs (run (_call_llm_api (lit "hi")) (paced 1 1000)) [ETime (inject_Z 100000)]
    (paced 1 1000, inl daily_limit_error).
Proof.
  apply call_llm_runs. change (provider (paced 1 1000)) with (lit "google").
  destruct provider_names as (_ & _ & _ & -> & -> & ->).
  unfold _call_google_api. apply bind_runs_raise.
  unfold _check_rate_limits. cbn.
  apply (runs_call TimeTime _ (inject_Z 100000)). cbn. constructor.
Qed.

(** The answer of a provider with a 2xx status and an envelope that holds
    no completion: reading it raises. *)
Definition no_candidates : exn := LibraryError (lit "KeyError") (lit "'candidates'").

Definition unreadable_answer : result response := inr (Response None (inl no_candidates)).

(** A [google] instance whose request, sent at second 100, is answered
    with that: the request is counted at second 101, with the two tokens
    of a prompt of eight characters, and the call raises. *)
Lemma google_unreadable_runs :
  exists q,
    runs (run (_call_llm_api (lit "hi there")) (google_instance (Tracker 0 0 0 0 0)))
      [ETime 100; EPost q unreadable_answer; ETime 101]
      (google_instance (Tracker 1 2 1 101 100), inl no_candidates).
Proof.
  eexists. apply call_llm_runs.
  change (provider (google_instance (Tracker 0 0 0 0 0))) with (lit "google").
  destruct provider_names as (_ & _ & _ & -> & -> & ->).
  unfold _call_google_api, _check_rate_limits. cbn.
  apply (runs_call TimeTime _ 100). cbn.
  apply (runs_call (RequestsPost _) _ unreadable_answer). cbn.
  apply (runs_call TimeTime _ 101). cbn. constructor.
Qed.

Lemma only_google_checks_rate_limits_witness :
  (* google, after a thousand counted requests: the check raises, nothing is sent *)
  (exists tr1 self1 r1 tr2,
     runs (run _check_rate_limits (paced 1 1000)) tr1 (self1, r1) /\
     [ETime (inject_Z 100000)] = tr1 ++ tr2 /\ no_post tr1 /\
     match r1 with
     | inl e => tr2 = [] /\ paced 1 1000 = self1 /\ (inl daily_limit_error : result str) = inl e
     | inr _ =>
         exists q x rest, tr2 = EPost q x :: rest /\ url q = base_url_google /\
           no_post rest /\ (inl daily_limit_error : result str) = outcome x /\
           if accepted x
           then tokens_this_minute (usage_tracker (paced 1 1000)) =
                  (tokens_this_minute (usage_tracker self1) + Py.len (lit "hi") / 4)%Z /\
                requests_this_minute (usage_tracker (paced 1 1000)) =
                  (requests_this_minute (usage_tracker self1) + 1)%Z /\
                requests_today (usage_tracker (paced 1 1000)) =
                  (requests_today (usage_tracker self1) + 1)%Z
           else paced 1 1000 = self1
     end) /\
  (* google, answered with a 2xx that cannot be read: sent, counted, raised *)
  (exists q0 tr1 self1 r1 tr2,
     runs (run _check_rate_limits (google_instance (Tracker 0 0 0 0 0))) tr1 (self1, r1) /\
     [ETime 100; EPost q0 unreadable_answer; ETime 101] = tr1 ++ tr2 /\ no_post tr1 /\
     match r1 with
     | inl e => tr2 = [] /\ google_instance (Tracker 1 2 1 101 100) = self1 /\
                (inl no_candidates : result str) = inl e
     | inr _ =>
         exists q x rest, tr2 = EPost q x :: rest /\ url q = base_url_google /\
           no_post rest /\ (inl no_candidates : result str) = outcome x /\
           if accepted x
           then 2%Z = (tokens_this_minute (usage_tracker self1) + Py.len (lit "hi there") / 4)%Z /\
                1%Z = (requests_this_minute (usage_tracker self1) + 1)%Z /\
                1%Z = (requests_today (usage_tracker self1) + 1)%Z
           else google_instance (Tracker 1 2 1 101 100) = self1
     end) /\
  (* openai, at the limit: one request *)
  (exists q0, openai_at_limit = openai_at_limit /\
     exists q x, [EPost q0 ok_response] = [EPost q x] /\
       (inr (lit "{}") : result str) = outcome x).
Proof.
  split; [| split].
  - exact (proj1 (@only_google_checks_rate_limits _ _ _ _ _ google_at_limit_runs) eq_refl).
  - destruct google_unreadable_runs as (q0 & Hrun). exists q0.
    exact (proj1 (@only_google_checks_rate_limits _ _ _ _ _ Hrun) eq_refl).
  - destruct openai_at_limit_runs as (q0 & Hrun). exists q0.
    exact (proj2 (@only_google_checks_rate_limits _ _ _ _ _ Hrun) (or_introl eq_refl)).
Defined.

(** ** Strings *)

Lemma startswith_single c s :
  Py.startswith [c] s = true <-> exists s', s = c :: s'.
Proof.
  destruct s as [| b s']; simpl.
  - split; [discriminate | intros (? & ?); discriminate].
  - rewrite andb_true_r, N.eqb_eq. split.
    + intros ->. eauto.
    + intros (? & H). congruence.
Qed.

Lemma index_of_single_none c s : Py.index_of [c] s = None <-> ~ In c s.
Proof.
  induction s as [| b s' IH].
  - simpl. split; [auto | reflexivity].
  - cbn [Py.index_of]. destruct (Py.startswith [c] (b :: s')) eqn:Hs.
    + apply startswith_single in Hs. destruct Hs as (? & Hs). inversion Hs; subst.
      split; [discriminate | intros H; exfalso; apply H; left; reflexivity].
    + assert (Hne : b <> c).
      { intros ->. assert (Py.startswith [c] (c :: s') = true)
          by (apply startswith_single; eauto). congruence. }
      destruct (Py.index_of [c] s') eqn:Hi; simpl.
      * split; [discriminate |]. intros H. exfalso. apply H. right.
        destruct (in_dec N.eq_dec c s') as [Hin | Hout]; [exact Hin |].
        apply IH in Hout. discriminate.
      * split; [| reflexivity]. intros _ [Hin | Hin]; [congruence |].
        apply (proj1 IH eq_refl). exact Hin.
Qed.









Lemma strip_fences_plain response :
  Py.contains (lit "```json") response = false -> strip_fences response = response.
Proof. unfold strip_fences. intros ->. reflexivity. Qed.

(** ** Printing *)

Lemma encode_failure_none : forall s i, encode_failure i s = None <-> encodable s = true.
Proof.
  unfold encodable. induction s as [| c s IH]; intros i; simpl.
  - split; reflexivity.
  - destruct (is_surrogate c); simpl; [split; discriminate | apply IH].
Qed.

Lemma encode_failure_some : forall s i e,
  encode_failure i s = Some e -> exists msg, e = LibraryError (lit "UnicodeEncodeError") msg.
Proof.
  induction s as [| c s IH]; intros i e H; simpl in H; [discriminate |].
  destruct (is_surrogate c); [inversion H; eauto | eapply IH; exact H].
Qed.

(** A print fails exactly on a text that holds a surrogate, and then with
    a [UnicodeEncodeError]. *)
Lemma py_print_encodable text : encodable text = true -> py_print text = inr tt.
Proof.
  intros H. unfold py_print. apply (encode_failure_none text 0) in H. rewrite H. reflexivity.
Qed.

Lemma py_print_raises text :
  encodable text = false ->
  exists msg, py_print text = inl (LibraryError (lit "UnicodeEncodeError") msg).
Proof.
  intros H. unfold py_print. destruct (encode_failure 0 text) as [e |] eqn:He.
  - apply encode_failure_some in He. destruct He as (msg & ->). eauto.
  - apply encode_failure_none in He. congruence.
Qed.

Lemma encodable_app a b : encodable (a ++ b) = encodable a && encodable b.
Proof. unfold encodable. rewrite existsb_app, negb_orb. reflexivity. Qed.

Lemma encodable_chars s : encodable s = true <-> forall c, In c s -> is_surrogate c = false.
Proof.
  unfold encodable. rewrite negb_true_iff. split.
  - intros H c Hin. destruct (is_surrogate c) eqn:Hc; [| reflexivity].
    assert (existsb is_surrogate s = true) by (apply existsb_exists; eauto). congruence.
  - intros H. destruct (existsb is_surrogate s) eqn:He; [| reflexivity].
    apply existsb_exists in He. destruct He as (c & Hin & Hc). rewrite (H c Hin) in Hc.
    discriminate.
Qed.

Lemma digits_go_encodable : forall fuel n acc,
  encodable acc = true -> encodable (Py.digits_go fuel n acc) = true.
Proof.
  induction fuel as [| fuel IH]; intros n acc H; simpl; [exact H |].
  assert (Hs : is_surrogate (48 + n mod 10) = false).
  { pose proof (N.mod_upper_bound n 10 ltac:(discriminate)) as Hm. revert Hm.
    generalize (n mod 10)%N. intros m Hm. unfold is_surrogate.
    destruct (N.leb_spec 55296 (48 + m)); [lia | reflexivity]. }
  assert (Hd : encodable ((48 + n mod 10)%N :: acc) = true).
  { unfold encodable in *. cbn [existsb]. rewrite Hs. exact H. }
  destruct (n <? 10)%N; [exact Hd | apply IH; exact Hd].
Qed.

Lemma str_of_Z_encodable z : encodable (Py.str_of_Z z) = true.
Proof.
  unfold Py.str_of_Z. cbv zeta.
  pose proof (@digits_go_encodable (S (N.to_nat (N.log2 (Z.to_N (Z.abs z)))))
                (Z.to_N (Z.abs z)) [] eq_refl) as H.
  destruct (z <? 0)%Z; [| exact H].
  unfold encodable in *. simpl. exact H.
Qed.

(** ** The messages of the decoder *)

(** The message of a failure that is a [JSONDecodeError] is plain text. *)
Definition plain_failure (f : Json.failure) : Prop :=
  match f with
  | Malformed (DecodeError msg _) => encodable msg = true
  | _ => True
  end.


Lemma scanstring_plain n start : forall k s acc msg pos,
  (length s <= k)%nat ->
  Json.scanstring n start s acc = inl (DecodeError msg pos) -> encodable msg = true.
Proof.
  induction k as [| k IH]; intros s acc msg pos Hk H.
  - destruct s; [| simpl in Hk; lia]. simpl in H. inversion H. reflexivity.
  - destruct s as [| c s1]; [simpl in H; inversion H; reflexivity |].
    cbn [Json.scanstring] in H. simpl in Hk.
    destruct (c =? 34)%N; [discriminate |].
    destruct (c =? 92)%N.
    2: { destruct (c <? 32)%N; [inversion H; reflexivity |]. eapply IH; [| exact H]. lia. }
    destruct s1 as [| e s2]; [inversion H; reflexivity |].
    simpl in Hk.
    destruct (e =? 117)%N.
    2: { destruct (Json.escape e); [| inversion H; reflexivity]. eapply IH; [| exact H]. lia. }
    destruct s2 as [| h1 [| h2 [| h3 [| h4 [| b s3]]]]]; [inversion H; reflexivity .. |].
    destruct (Json.hex4 h1 h2 h3 h4) as [u |]; [| inversion H; reflexivity].
    simpl in Hk.
    destruct s3 as [| v [| g1 [| g2 [| g3 [| g4 [| y s4]]]]]];
      cbn [Datatypes.length] in Hk;
      try (eapply IH; [| exact H]; cbn [Datatypes.length]; lia).
    destruct (Json.is_high_surrogate u && (b =? 92)%N && (v =? 117)%N);
      [| eapply IH; [| exact H]; cbn [Datatypes.length]; lia].
    destruct (Json.hex4 g1 g2 g3 g4) as [u2 |]; [| inversion H; reflexivity].
    destruct (Json.is_low_surrogate u2); eapply IH; try exact H; cbn [Datatypes.length]; lia.
Qed.

Definition plain_scan (scan : str -> Json.failure + (Json.value * str)) : Prop :=
  forall s f, scan s = inl f -> plain_failure f.

Lemma object_items_plain scan : plain_scan scan ->
  forall fuel n s acc f, Json.object_items scan fuel n s acc = inl f -> plain_failure f.
Proof.
  intros Hscan. induction fuel as [| fuel IH]; intros n s acc f H.
  - simpl in H. inversion H. reflexivity.
  - cbn [Json.object_items] in H. cbv zeta in H.
    destruct s as [| c s1]; [inversion H; reflexivity |].
    destruct (negb (c =? 34)%N); [inversion H; reflexivity |].
    destruct (Json.scanstring n (Json.pos_of n (c :: s1)) s1 []) as [[msg pos] | [key s2]] eqn:Hkey.
    { inversion H; subst. simpl. eapply scanstring_plain; [apply le_n | exact Hkey]. }
    destruct (Json.skip_ws s2) as [| d s3]; [inversion H; reflexivity |].
    destruct (negb (d =? 58)%N); [inversion H; reflexivity |].
    destruct (scan (Json.skip_ws s3)) as [e | [v s4]] eqn:Hv.
    { inversion H; subst. eapply Hscan. exact Hv. }
    destruct (Json.skip_ws s4) as [| g s5]; [inversion H; reflexivity |].
    destruct (g =? 125)%N; [discriminate |].
    destruct (g =? 44)%N; [| inversion H; reflexivity].
    eapply IH. exact H.
Qed.

Lemma array_items_plain scan : plain_scan scan ->
  forall fuel n s acc f, Json.array_items scan fuel n s acc = inl f -> plain_failure f.
Proof.
  intros Hscan. induction fuel as [| fuel IH]; intros n s acc f H.
  - simpl in H. inversion H. reflexivity.
  - cbn [Json.array_items] in H.
    destruct (scan s) as [e | [v s1]] eqn:Hv.
    { inversion H; subst. eapply Hscan. exact Hv. }
    destruct (Json.skip_ws s1) as [| g s2]; [inversion H; reflexivity |].
    destruct (g =? 93)%N; [discriminate |].
    destruct (g =? 44)%N; [| inversion H; reflexivity].
    eapply IH. exact H.
Qed.

Lemma match_number_plain max_digits s f :
  Json.match_number max_digits s = Some (inl f) -> plain_failure f.
Proof.
  unfold Json.match_number. intros H.
  destruct (match s with
            | c :: t => if (c =? 45)%N then (true, t) else (false, s)
            | [] => (false, s)
            end) as [neg s1].
  destruct (match s1 with
            | c :: t =>
                if (c =? 48)%N then Some ([c], t)
                else if Json.is_digit c then Some (Json.span_digits s1) else None
            | [] => None
            end) as [[ds s2] |]; [| discriminate].
  match type of H with
  | (let (_, _) := ?x in _) = _ => destruct x as [frac s3]
  end.
  match type of H with
  | (let (_, _) := ?x in _) = _ => destruct x as [exp s4]
  end.
  destruct frac; [| discriminate]. destruct exp; [| discriminate].
  unfold Json.int_of_digits in H.
  match type of H with
  | context [if ?x then _ else _] => destruct x
  end; [| discriminate].
  inversion H. exact I.
Qed.

Lemma scan_once_plain max_digits n : forall room, plain_scan (Json.scan_once room max_digits n).
Proof.
  assert (Hstep : forall room,
             (forall inner, room = S inner -> plain_scan (Json.scan_once inner max_digits n)) ->
             plain_scan (Json.scan_once room max_digits n)).
  { intros room IH s f H. destruct s as [| c s1].
    { destruct room; simpl in H; inversion H; reflexivity. }
    assert (Hbody :
      Json.scan_once room max_digits n (c :: s1) =
      if (c =? 34)%N then
        match Json.scanstring n (Json.pos_of n (c :: s1)) s1 [] with
        | inl e => inl (Malformed e)
        | inr (text, rest) => inr (JStr text, rest)
        end
      else if (c =? 123)%N then
        match room with
        | O => inl (TooDeep (lit "object"))
        | S inner =>
            match Json.skip_ws s1 with
            | d :: s2 =>
                if (d =? 125)%N then inr (JDict [], s2)
                else Json.object_items (Json.scan_once inner max_digits n)
                       (Datatypes.length s1) n (Json.skip_ws s1) []
            | [] => Json.object_items (Json.scan_once inner max_digits n)
                      (Datatypes.length s1) n [] []
            end
        end
      else if (c =? 91)%N then
        match room with
        | O => inl (TooDeep (lit "array"))
        | S inner =>
            match Json.skip_ws s1 with
            | d :: s2 =>
                if (d =? 93)%N then inr (JList [], s2)
                else Json.array_items (Json.scan_once inner max_digits n)
                       (Datatypes.length s1) n (Json.skip_ws s1) []
            | [] => Json.array_items (Json.scan_once inner max_digits n)
                      (Datatypes.length s1) n [] []
            end
        end
      else if Py.startswith (lit "null") (c :: s1) then inr (JNull, skipn 4 (c :: s1))
      else if Py.startswith (lit "true") (c :: s1) then inr (JBool true, skipn 4 (c :: s1))
      else if Py.startswith (lit "false") (c :: s1) then inr (JBool false, skipn 5 (c :: s1))
      else if Py.startswith (lit "NaN") (c :: s1) then inr (JFloat (lit "NaN"), skipn 3 (c :: s1))
      else if Py.startswith (lit "Infinity") (c :: s1)
           then inr (JFloat (lit "Infinity"), skipn 8 (c :: s1))
      else if Py.startswith (lit "-Infinity") (c :: s1)
           then inr (JFloat (lit "-Infinity"), skipn 9 (c :: s1))
      else match Json.match_number max_digits (c :: s1) with
           | Some r => r
           | None => Json.malformed "Expecting value" (Json.pos_of n (c :: s1))
           end).
    { destruct room; reflexivity. }
    rewrite Hbody in H. clear Hbody.
    destruct (c =? 34)%N.
    { destruct (Json.scanstring n (Json.pos_of n (c :: s1)) s1 []) as [[msg pos] | [text rest]] eqn:Hs;
        [| discriminate].
      inversion H; subst. simpl. eapply scanstring_plain; [apply le_n | exact Hs]. }
    destruct (c =? 123)%N.
    { destruct room as [| inner]; [inversion H; exact I |].
      specialize (IH inner eq_refl).
      destruct (Json.skip_ws s1) as [| d s2].
      - eapply object_items_plain; [exact IH | exact H].
      - destruct (d =? 125)%N; [discriminate |].
        eapply object_items_plain; [exact IH | exact H]. }
    destruct (c =? 91)%N.
    { destruct room as [| inner]; [inversion H; exact I |].
      specialize (IH inner eq_refl).
      destruct (Json.skip_ws s1) as [| d s2].
      - eapply array_items_plain; [exact IH | exact H].
      - destruct (d =? 93)%N; [discriminate |].
        eapply array_items_plain; [exact IH | exact H]. }
    repeat match type of H with
           | context [if ?x then _ else _] => destruct x; [discriminate |]
           end.
    destruct (Json.match_number max_digits (c :: s1)) as [r |] eqn:Hn.
    - subst r. eapply match_number_plain. exact Hn.
    - inversion H. reflexivity. }
  induction room as [| room IH]; apply Hstep.
  - intros inner Habs. discriminate.
  - intros inner Heq. inversion Heq; subst. exact IH.
Qed.

(** The text of a [JSONDecodeError] holds no surrogate. *)
Lemma loads_error_encodable room max_digits s e :
  Json.loads room max_digits s = inl (Malformed e) -> encodable (Json.error_text s e) = true.
Proof.
  intros H.
  assert (Hplain : plain_failure (Malformed e)).
  { unfold Json.loads in H.
    destruct (Py.startswith [65279%N] s); [inversion H; reflexivity |].
    cbv zeta in H.
    destruct (Json.scan_once room max_digits (length s) (Json.skip_ws s)) as [f | [v rest]] eqn:Hs.
    - inversion H; subst. eapply scan_once_plain. exact Hs.
    - destruct (Json.skip_ws rest); [discriminate | inversion H; reflexivity]. }
  destruct e as [msg pos]. simpl in Hplain. unfold Json.error_text.
  rewrite !encodable_app, Hplain, !str_of_Z_encodable. reflexivity.
Qed.

(** ** The response parser *)

Lemma fallback_response_shaped summary notes : fully_shaped (fallback_response summary notes).
Proof.
  unfold fully_shaped, has_value, fallback_response.
  repeat split; eexists _, _; (split; [reflexivity |]); (split; [reflexivity | discriminate]).
Qed.

(** With both braces the [try] block is [json.loads] of the text between
    them. *)
Lemma parse_json_object_braces rt response :
  Py.contains (lit "{") response && Py.contains (lit "}") response = true ->
  parse_json_object rt response = json_loads rt (json_text response).
Proof.
  intros Hb. unfold parse_json_object, json_text. rewrite Hb. cbv zeta.
  destruct (json_loads rt _); reflexivity.
Qed.

(** Without both braces the [try] block returns the fallback dict: the
    response cut to 500 characters. *)
Lemma parse_json_object_no_braces rt response :
  Py.contains (lit "{") response = false \/ Py.contains (lit "}") response = false ->
  parse_json_object rt response =
    inr (fallback_response (ellipsis 500 response) (lit "Response parsing failed")).
Proof.
  intros H. unfold parse_json_object.
  destruct H as [-> | ->]; [| rewrite andb_false_r]; reflexivity.
Qed.

(** What [json.loads] raises: a [JSONDecodeError] whose text can be
    printed, a [RecursionError] or a [ValueError]. *)
Lemma json_loads_raises rt s e :
  json_loads rt s = inl e ->
  (exists msg, e = JSONDecodeError msg /\ encodable msg = true) \/
  (exists msg, e = LibraryError (lit "RecursionError") msg) \/
  (exists msg, e = ValueError msg).
Proof.
  unfold json_loads.
  destruct (Json.loads (recursion_room rt) (int_max_str_digits rt) s) as [[d | c | l n] | v] eqn:Hl;
    intros H; inversion H; subst.
  - left. eexists. split; [reflexivity |]. eapply loads_error_encodable. exact Hl.
  - right. left. eauto.
  - right. right. eauto.
Qed.

Lemma decode_error_handler_fallback response e :
  exists summary,
    decode_error_handler response e =
      fallback_response summary
        (lit "JSON parsing error: " ++ e ++ lit ". Using extracted summary instead.").
Proof.
  unfold decode_error_handler. cbv zeta.
  destruct (if Py.contains (lit "comprehensive_summary") response then _ else _); eauto.
Qed.

(** The prints of the handler: the first never fails, the second fails
    when the first 200 characters of the response hold a surrogate. *)
Lemma decode_error_prints_run response e :
  encodable e = true ->
  if encodable (Py.slice_to 200 response)
  then decode_error_prints response e = inr tt
  else exists msg,
         decode_error_prints response e = inl (LibraryError (lit "UnicodeEncodeError") msg).
Proof.
  intros He. unfold decode_error_prints.
  rewrite py_print_encodable by (rewrite encodable_app, He; reflexivity).
  destruct (encodable (Py.slice_to 200 response)) eqn:Hp.
  - apply py_print_encodable. rewrite !encodable_app, Hp. reflexivity.
  - apply py_print_raises. rewrite !encodable_app, Hp. reflexivity.
Qed.

(** *** A decoded object is a dict *)

Lemma object_items_dict scan : forall fuel n s acc v rest,
  Json.object_items scan fuel n s acc = inr (v, rest) -> exists d, v = JDict d.
Proof.
  induction fuel as [| f IH]; intros n s acc v rest H; [discriminate |].
  cbn [Json.object_items] in H. cbv zeta in H.
  destruct s as [| c s1]; [discriminate |].
  destruct (negb (c =? 34)%N); [discriminate |].
  destruct (Json.scanstring n (Json.pos_of n (c :: s1)) s1 []) as [? | [key s2]]; [discriminate |].
  destruct (Json.skip_ws s2) as [| d s3]; [discriminate |].
  destruct (negb (d =? 58)%N); [discriminate |].
  destruct (scan (Json.skip_ws s3)) as [? | [v' s4]]; [discriminate |].
  destruct (Json.skip_ws s4) as [| g s5]; [discriminate |].
  destruct (g =? 125)%N; [inversion H; eauto |].
  destruct (g =? 44)%N; [| discriminate].
  eapply IH. exact H.
Qed.

Lemma loads_object room max_digits s v :
  Json.loads room max_digits (123%N :: s) = inr v -> exists d, v = JDict d.
Proof.
  unfold Json.loads. change (Py.startswith [65279%N] (123%N :: s)) with false. cbv iota zeta.
  change (Json.skip_ws (123%N :: s)) with (123%N :: s).
  destruct (Json.scan_once _ _ _ _) as [e | [v' rest]] eqn:Hscan; [discriminate |].
  destruct (Json.skip_ws rest); [| discriminate]. intros H. inversion H; subst.
  destruct room as [| inner]; [discriminate |].
  cbn [Json.scan_once] in Hscan.
  change ((123 =? 34)%N) with false in Hscan. change ((123 =? 123)%N) with true in Hscan.
  cbv iota in Hscan.
  destruct (Json.skip_ws s) as [| d s2] eqn:Hws.
  - eapply object_items_dict. exact Hscan.
  - destruct (d =? 125)%N.
    + inversion Hscan. eauto.
    + eapply object_items_dict. exact Hscan.
Qed.

Lemma index_of_single_some c : forall s i,
  Py.index_of [c] s = Some i -> exists rest, skipn i s = c :: rest /\ (i < length s)%nat.
Proof.
  induction s as [| b s' IH]; intros i H.
  - simpl in H. discriminate.
  - cbn [Py.index_of] in H. destruct (Py.startswith [c] (b :: s')) eqn:Hs.
    + inversion H; subst. apply startswith_single in Hs. destruct Hs as (t & Hs).
      inversion Hs; subst. exists t. simpl. split; [reflexivity | lia].
    + destruct (Py.index_of [c] s') as [j |] eqn:Hj; simpl in H; [| discriminate].
      inversion H; subst. destruct (IH j eq_refl) as (rest & Hr & Hlt).
      exists rest. simpl. split; [exact Hr | lia].
Qed.

Lemma lstrip_app_solid c : forall s,
  Py.isspace c = false -> exists s', Py.lstrip (s ++ [c]) = s' ++ [c].
Proof.
  induction s as [| b s IH]; intros Hc; simpl.
  - rewrite Hc. exists []. reflexivity.
  - destruct (Py.isspace b).
    + apply IH. exact Hc.
    + exists (b :: s). reflexivity.
Qed.

(** A string that starts with a character that is no space keeps it when
    stripped. *)
Lemma strip_solid c s :
  Py.isspace c = false -> exists s', Py.strip (c :: s) = c :: s'.
Proof.
  intros Hc. unfold Py.strip, Py.rstrip. simpl Py.lstrip. rewrite Hc. simpl rev.
  destruct (@lstrip_app_solid c (rev s) Hc) as (s' & ->).
  rewrite rev_app_distr. simpl. eauto.
Qed.

(** What is cut from the first [c] of a string on starts with [c], or is
    empty. *)
Lemma slice_from_find c s b :
  Py.contains [c] s = true ->
  Py.slice (Py.find [c] s) b s = [] \/ exists rest, Py.slice (Py.find [c] s) b s = c :: rest.
Proof.
  unfold Py.contains, Py.find. destruct (Py.index_of [c] s) as [i |] eqn:Hi; [| discriminate].
  intros _. apply index_of_single_some in Hi. destruct Hi as (rest & Hskip & Hlt).
  unfold Py.slice.
  assert (Hclip : Py.clip (length s) (Z.of_nat i) = i).
  { unfold Py.clip. destruct (Z.ltb_spec (Z.of_nat i) 0); [lia |].
    rewrite Nat2Z.id. lia. }
  rewrite Hclip, Hskip.
  destruct (Py.clip (length s) b - i)%nat; simpl; eauto.
Qed.

(** What [json.loads] returns for the text between the braces is a dict. *)
Lemma json_text_dict rt response v :
  Py.contains (lit "{") response = true ->
  json_loads rt (json_text response) = inr v -> exists d, v = JDict d.
Proof.
  intros Hopen. unfold json_text, json_loads. cbv zeta.
  change (lit "{") with [123%N] in *.
  destruct (@slice_from_find 123%N response (Py.rfind (lit "}") response + 1)%Z Hopen)
    as [-> | (rest & ->)].
  - change (Py.strip []) with (@nil N).
    destruct (recursion_room rt), (int_max_str_digits rt); vm_compute; discriminate.
  - destruct (@strip_solid 123%N rest eq_refl) as (s' & ->).
    destruct (Json.loads _ _ (123%N :: s')) as [[? | ? | ? ?] | v'] eqn:Hl; try discriminate.
    intros H. inversion H; subst. eapply loads_object. exact Hl.
Qed.

(** What [_parse_batch_response] does with each outcome of the [try]
    block. *)
Lemma parse_batch_response_handled rt response :
  let text := strip_fences response in
  match parse_json_object rt text with
  | inr parsed => _parse_batch_response rt response = inr parsed
  | inl (JSONDecodeError e) =>
      match decode_error_prints text e with
      | inl raised => _parse_batch_response rt response = inl raised
      | inr _ => _parse_batch_response rt response = inr (decode_error_handler text e)
      end
  | inl raised => _parse_batch_response rt response = inl raised
  end.
Proof.
  unfold _parse_batch_response. cbv zeta.
  destruct (parse_json_object rt (strip_fences response)) as [[] |]; try reflexivity.
  destruct (decode_error_prints _ _); reflexivity.
Qed.

(** C1, as the code has it. Without both braces the response, markdown
    fences removed, is returned in a fallback dict, in which
    [high_priority_emails] and [action_items] are the empty list and
    [email_categories] is the empty dict. With both braces the text from
    the first [{] to the last [}] goes to [json.loads]: the object it
    decodes is returned as it is, a dict whatever its keys; a
    [JSONDecodeError] is handled, and a fallback dict returned, unless the
    first 200 characters of the response hold a surrogate, which the
    handler's print of the preview raises as a [UnicodeEncodeError]; the
    [RecursionError] of a text nested too deep and the [ValueError] of an
    integer literal with too many digits are not handled and leave the
    method. *)
Theorem parse_batch_response_returns_or_raises rt response :
  let text := strip_fences response in
  if Py.contains (lit "{") text && Py.contains (lit "}") text then
    match json_loads rt (json_text text) with
    | inr parsed =>
        _parse_batch_response rt response = inr parsed /\ exists d, parsed = JDict d
    | inl (JSONDecodeError e) =>
        if encodable (Py.slice_to 200 text)
        then exists summary,
               let fallback :=
                 fallback_response summary
                   (lit "JSON parsing error: " ++ e ++ lit ". Using extracted summary instead.") in
               _parse_batch_response rt response = inr fallback /\ fully_shaped fallback
        else exists msg,
               _parse_batch_response rt response =
                 inl (LibraryError (lit "UnicodeEncodeError") msg)
    | inl raised =>
        _parse_batch_response rt response = inl raised /\
        exists msg, raised = LibraryError (lit "RecursionError") msg \/ raised = ValueError msg
    end
  else
    let fallback :=
      fallback_response (ellipsis 500 text) (lit "Response parsing failed") in
    _parse_batch_response rt response = inr fallback /\ fully_shaped fallback.
Proof.
  intros text. pose proof (parse_batch_response_handled rt response) as Hh.
  cbv zeta in Hh. fold text in Hh.
  destruct (Py.contains (lit "{") text && Py.contains (lit "}") text) eqn:Hb.
  - rewrite (parse_json_object_braces rt _ Hb) in Hh.
    apply andb_true_iff in Hb. destruct Hb as (Hopen & _).
    destruct (json_loads rt (json_text text)) as [e | parsed] eqn:Hl.
    + destruct (json_loads_raises _ _ Hl) as [(msg & -> & Hmsg) | [(msg & ->) | (msg & ->)]].
      * pose proof (@decode_error_prints_run text msg Hmsg) as Hp.
        destruct (encodable (Py.slice_to 200 text)).
        -- rewrite Hp in Hh. destruct (decode_error_handler_fallback text msg) as (summary & Hs).
           exists summary. cbv zeta. rewrite Hh, Hs.
           split; [reflexivity | apply fallback_response_shaped].
        -- destruct Hp as (m & Hp). rewrite Hp in Hh. eauto.
      * split; [exact Hh | eauto].
      * split; [exact Hh | eauto].
    + split; [exact Hh |]. eapply json_text_dict; eassumption.
  - rewrite parse_json_object_no_braces in Hh
      by (apply andb_false_iff in Hb; exact Hb).
    cbv zeta. split; [exact Hh | apply fallback_response_shaped].
Qed.

(** C1, counterexample: the response [{}] decodes to the empty dict, which
    is returned as it is, and a [null] in the response stays [None]: the
    three keys are then missing or null. With CPython's default limits, an
    object that holds 1500 arrays one inside the other leaves the method
    with a [RecursionError], an integer of 5000 digits with a
    [ValueError], and a lone surrogate between the braces, which is no
    JSON, with the [UnicodeEncodeError] of the handler's print. *)
Lemma parser_returns_unshaped_or_raises :
  _parse_batch_response ascii_runtime (lit "{}") = inr (JDict []) /\
  ~ fully_shaped (JDict []) /\
  _parse_batch_response ascii_runtime (quoted "{^action_items^: null}")
    = inr (JDict [(lit "action_items", JNull)]) /\
  ~ fully_shaped (JDict [(lit "action_items", JNull)]) /\
  _parse_batch_response ascii_runtime (quoted "{^a^:" ++ repeat 91%N 1500 ++ lit "}")
    = inl (LibraryError (lit "RecursionError")
             (lit "maximum recursion depth exceeded while decoding a JSON array from a unicode string")) /\
  _parse_batch_response ascii_runtime (quoted "{^a^: " ++ repeat 49%N 5000 ++ lit "}")
    = inl (ValueError
             (lit "Exceeds the limit (4300 digits) for integer string conversion: value has 5000 digits; use sys.set_int_max_str_digits() to increase the limit")) /\
  _parse_batch_response ascii_runtime (lit "{" ++ [55296%N] ++ lit "}")
    = inl (LibraryError (lit "UnicodeEncodeError")
             (lit "'utf-8' codec can't encode character '\ud800' in position 19: surrogates not allowed")).
Proof.
  split; [vm_compute; reflexivity |]. split.
  { intros ((d & x & Hd & Hl & _) & _). inversion Hd; subst. discriminate. }
  split; [vm_compute; reflexivity |]. split.
  { intros (_ & (d & x & Hd & Hl & Hx) & _). inversion Hd; subst.
    vm_compute in Hl. inversion Hl; subst. apply Hx. reflexivity. }
  split; [vm_compute; reflexivity |]. split; vm_compute; reflexivity.
Qed.

(** ** The summary of a response without braces *)









(** ** The prompt *)

Lemma slice_to_firstn (b : Z) (s : str) :
  (0 <= b)%Z -> Py.slice_to b s = firstn (Z.to_nat b) s.
Proof.
  intros Hb. unfold Py.slice_to, Py.slice, Py.clip.
  change (0 <? 0)%Z with false. destruct (Z.ltb_spec b 0); [lia |]. cbv iota.
  change (Z.to_nat 0) with 0%nat. rewrite Nat.min_0_r, Nat.sub_0_r. simpl skipn.
  destruct (Nat.le_ge_cases (length s) (Z.to_nat b)) as [Hle | Hge].
  - rewrite Nat.min_l by exact Hle. rewrite !firstn_all2 by lia. reflexivity.
  - rewrite Nat.min_r by exact Hge. reflexivity.
Qed.

Lemma email_summaries_nth : forall emails start i email,
  nth_error emails i = Some email ->
  nth_error (email_summaries start emails) i
    = Some (email_summary (start + Z.of_nat i) email).
Proof.
  induction emails as [| e emails IH]; intros start i email H.
  - destruct i; discriminate.
  - destruct i as [| i]; simpl in *.
    + inversion H; subst. rewrite Z.add_0_r. reflexivity.
    + rewrite (IH (start + 1)%Z i email H). f_equal. f_equal. lia.
Qed.

(** A part of a joined string stands in it whole. *)
Lemma join_nth sep : forall parts i p,
  nth_error parts i = Some p ->
  exists before after, Py.join sep parts = before ++ p ++ after.
Proof.
  induction parts as [| a parts IH]; intros i p H.
  - destruct i; discriminate.
  - destruct i as [| i]; simpl in H.
    + inversion H; subst. exists []. destruct parts as [| b parts].
      * exists []. simpl. rewrite app_nil_r. reflexivity.
      * exists (sep ++ Py.join sep (b :: parts)). reflexivity.
    + destruct (IH i p H) as (before & after & Hj).
      destruct parts as [| b parts]; [destruct i; discriminate |].
      exists (a ++ sep ++ before), after.
      change (Py.join sep (a :: b :: parts)) with (a ++ sep ++ Py.join sep (b :: parts)).
      rewrite Hj, <- !app_assoc. reflexivity.
Qed.

(** C7, as the code has it. For every sequence of records, the block of
    the record at index [i] is numbered [i + 1] and ends with the first
    500 characters of the record's content followed by ["..."], whatever
    the length of the content: the marker is not kept for content that was
    cut. The block stands whole in the prompt. *)
Theorem prompt_content_is_cut_and_always_marked emails i email :
  nth_error emails i = Some email ->
  let block := email_summary (Z.of_nat i + 1) email in
  nth_error (email_summaries 1 emails) i = Some block /\
  (exists head,
     block = head ++ lit "- Content: " ++ firstn 500 (text email) ++ lit "...") /\
  (length (firstn 500 (text email)) <= 500)%nat /\
  (exists before after, _create_batch_analysis_prompt emails = before ++ block ++ after).
Proof.
  intros Hnth block.
  assert (Hblock : nth_error (email_summaries 1 emails) i = Some block).
  { rewrite (email_summaries_nth _ 1 _ Hnth). unfold block. f_equal. f_equal. lia. }
  split; [exact Hblock |]. split; [| split].
  - unfold block, email_summary. rewrite slice_to_firstn by lia.
    change (Z.to_nat 500) with 500%nat.
    eexists. rewrite !app_assoc. reflexivity.
  - apply firstn_le_length.
  - destruct (join_nth nl _ _ Hblock) as (before & after & Hj).
    unfold _create_batch_analysis_prompt. cbv zeta. rewrite Hj.
    generalize prompt_instructions. intros instructions.
    generalize (lit "Please analyze the following "). intros opening.
    generalize (Py.str_of_Z (Z.of_nat (length emails))). intros count.
    generalize (lit " emails and provide a comprehensive summary. Focus on identifying high-priority emails and actionable items."). intros focus.
    exists (nl ++ opening ++ count ++ focus ++ nl ++ nl ++ before),
           (after ++ nl ++ instructions).
    generalize block. intros b. clear.
    rewrite <- !app_assoc. reflexivity.
Qed.

(** A record whose content is two characters long. *)
Definition short_email : EmailRecord := Email (lit "T") (lit "S") (lit "D") (lit "hi").

Lemma prompt_content_is_cut_and_always_marked_witness :
  let block := email_summary (Z.of_nat 0 + 1) short_email in
  nth_error (email_summaries 1 [short_email]) 0 = Some block /\
  (exists head,
     block = head ++ lit "- Content: " ++ firstn 500 (text short_email) ++ lit "...") /\
  (length (firstn 500 (text short_email)) <= 500)%nat /\
  (exists before after,
     _create_batch_analysis_prompt [short_email] = before ++ block ++ after).
Proof.
  exact (@prompt_content_is_cut_and_always_marked [short_email] 0 short_email eq_refl).
Defined.

(** C7, counterexample: a content of two characters is followed by the
    marker in the prompt, where the specification has it stand alone. *)
Lemma short_content_is_marked :
  Py.len (text short_email) = 2%Z /\
  email_summary 1 short_email
    = nl ++ lit "Email 1:" ++ nl ++ lit "- Subject: T" ++ nl ++ lit "- From: S" ++ nl
         ++ lit "- Date: D" ++ nl ++ lit "- Content: hi..." /\
  email_summary_as_specified 1 short_email
    = nl ++ lit "Email 1:" ++ nl ++ lit "- Subject: T" ++ nl ++ lit "- From: S" ++ nl
         ++ lit "- Date: D" ++ nl ++ lit "- Content: hi" /\
  email_summary 1 short_email <> email_summary_as_specified 1 short_email.
Proof.
  repeat split; try (vm_compute; reflexivity). vm_compute. discriminate.
Qed.

(** ** The record parser *)

Lemma split_go_length_pos sep : forall s cur skip,
  (1 <= length (Py.split_go sep s cur skip))%nat.
Proof.
  induction s as [| c s IH]; intros cur skip; simpl; [lia |].
  destruct skip; [| apply IH].
  destruct (Py.startswith sep (c :: s)); [simpl; lia | apply IH].
Qed.

(** A string that holds the separator splits in two pieces at least. *)
Lemma split_go_found sep : forall s cur i,
  sep <> [] -> Py.index_of sep s = Some i ->
  (2 <= length (Py.split_go sep s cur 0))%nat.
Proof.
  induction s as [| c s IH]; intros cur i Hsep Hi.
  - destruct sep; [congruence | simpl in Hi; discriminate].
  - cbn [Py.index_of] in Hi. cbn [Py.split_go].
    destruct (Py.startswith sep (c :: s)).
    + simpl. pose proof (split_go_length_pos sep s [] (length sep - 1)). lia.
    + destruct (Py.index_of sep s) as [j |] eqn:Hj; [| discriminate].
      eapply IH; [exact Hsep | reflexivity].
Qed.

(** The line that follows a label is read without an [IndexError]. *)
Lemma labelled_line_returns label default section :
  label <> [] -> exists line, labelled_line label default section = inr line.
Proof.
  intros Hlabel. unfold labelled_line, Py.contains.
  destruct (Py.index_of label section) as [i |] eqn:Hi; [| eauto].
  pose proof (split_go_found section [] Hlabel Hi) as Hlen.
  unfold getitem, Py.split.
  destruct (Py.split_go label section [] 0) as [| p0 [| p1 rest]]; simpl in Hlen; try lia.
  simpl nth_error. cbv iota.
  pose proof (split_go_length_pos nl p1 [] 0) as Hlen1.
  destruct (Py.split_go nl p1 [] 0) as [| q0 rest1]; simpl in Hlen1; [lia |].
  simpl. eauto.
Qed.

Lemma section_fields_returns section :
  exists email, section_fields section = inr email.
Proof.
  unfold section_fields.
  destruct (@labelled_line_returns (lit "Title: ") (lit "No Subject") section)
    as (t & ->); [discriminate |].
  destruct (@labelled_line_returns (lit "From: ") (lit "Unknown Sender") section)
    as (s & ->); [discriminate |].
  destruct (@labelled_line_returns (lit "Date: ") (lit "Unknown Date") section)
    as (d & ->); [discriminate |].
  eauto.
Qed.

(** The emails of the sections kept, in order. *)
Definition kept_emails (sections : list str) : list EmailRecord :=
  flat_map (fun section => match parse_section section with
                           | inr (Some email) => [email]
                           | _ => []
                           end) sections.

(** A run of [try: c except Exception as e: h e]. *)
Lemma runs_catch {A : Type} (c : M A) (h : exn -> M A) self tr self' r :
  runs (run (catch c h) self) tr (self', r) ->
  exists tr1 self1 r1 tr2,
    runs (run c self) tr1 (self1, r1) /\ tr = tr1 ++ tr2 /\
    match r1 with
    | inl e => runs (run (h e) self1) tr2 (self', r)
    | inr a => tr2 = [] /\ self' = self1 /\ r = inr a
    end.
Proof.
  intros H. cbn in H. apply runs_io_bind in H.
  destruct H as (tr1 & [self1 r1] & tr2 & H1 & H2 & ->).
  exists tr1, self1, r1, tr2. repeat split; [assumption |].
  destruct r1 as [e | a]; [assumption |]. run_inv. auto.
Qed.

Lemma catch_runs_raised {A : Type} (c : M A) (h : exn -> M A) self tr1 self1 e tr2 self' r :
  runs (run c self) tr1 (self1, inl e) ->
  runs (run (h e) self1) tr2 (self', r) ->
  runs (run (catch c h) self) (tr1 ++ tr2) (self', r).
Proof. intros H1 H2. cbn. eapply io_bind_runs; [exact H1 | exact H2]. Qed.


(** A section is read without an exception, and appended when it is not
    blank and its title and its content are not empty. *)
Lemma parse_section_kept section :
  exists email,
    section_fields section = inr email /\
    parse_section section
      = inr (if Py.truthy (Py.strip section)
                && (Py.truthy (title email) && Py.truthy (text email))
             then Some email else None).
Proof.
  destruct (section_fields_returns section) as (email & Hf).
  exists email. split; [exact Hf |].
  unfold parse_section. rewrite Hf. unfold appended.
  destruct (Py.truthy (Py.strip section)); simpl; [| reflexivity].
  destruct (Py.truthy (title email) && Py.truthy (text email)); reflexivity.
Qed.

(** The loop runs to its end. *)
Lemma parse_sections_kept : forall sections emails,
  parse_sections sections emails = (emails ++ kept_emails sections, None).
Proof.
  induction sections as [| s sections IH]; intros emails; simpl.
  - rewrite app_nil_r. reflexivity.
  - destruct (parse_section_kept s) as (email & _ & ->).
    destruct (Py.truthy (Py.strip s) && (Py.truthy (title email) && Py.truthy (text email))).
    + rewrite IH, <- app_assoc. reflexivity.
    + rewrite IH. reflexivity.
Qed.


(** A file that is read: its emails are returned. *)
Lemma parse_extracted_file_runs path self content :
  runs (run (_parse_extracted_file path) self) [ERead path (inr content)]
    (self, inr (parse_content content)).
Proof.
  unfold _parse_extracted_file.
  change [ERead path (inr content)] with ([ERead path (inr content)] ++ []).
  eapply bind_runs.
  - unfold attempt, read_file. cbn.
    apply (runs_call (ReadFile path) _ (inr content)). cbn. constructor.
  - cbv iota beta. rewrite parse_sections_kept. cbn. constructor.
Qed.

(** C6, as the code has it. Every section yields its record without an
    exception, so the loop never stops early: the emails returned are
    those of the sections kept, in order, whatever the other sections
    hold, and a file that could be read is parsed to its end without a
    print of the handler. A section is appended exactly when it is not
    blank and both its title and its content are non-empty; it is dropped,
    silently, as soon as it is blank or either of the two is empty. *)
Theorem section_kept_iff_title_and_content section :
  (exists email,
     section_fields section = inr email /\
     parse_section section
       = inr (if Py.truthy (Py.strip section)
                 && (Py.truthy (title email) && Py.truthy (text email))
              then Some email else None)) /\
  (forall sections emails,
     parse_sections sections emails = (emails ++ kept_emails sections, None)) /\
  (forall content, parse_content content = kept_emails (email_sections content)) /\
  (forall path content self,
     runs (run (_parse_extracted_file path) self) [ERead path (inr content)]
       (self, inr (kept_emails (email_sections content)))).
Proof.
  split; [apply parse_section_kept |]. split; [exact parse_sections_kept |].
  assert (Hcontent : forall content,
             parse_content content = kept_emails (email_sections content)).
  { intros content. unfold parse_content. rewrite parse_sections_kept. reflexivity. }
  split; [exact Hcontent |].
  intros path content self. rewrite <- Hcontent. apply parse_extracted_file_runs.
Qed.

(** A section with a title and an empty content block. *)
Definition titled_section : str :=
  lit "1" ++ nl ++ lit "Title: Hello" ++ nl ++ lit "Content:" ++ nl.

(** C6, counterexample: a section with the title [Hello] and no content
    has one of the two, and is dropped all the same. *)
Lemma titled_section_without_content_is_dropped :
  section_fields titled_section
    = inr (Email (lit "Hello") (lit "Unknown Sender") (lit "Unknown Date") (lit "")) /\
  kept_as_specified (Email (lit "Hello") (lit "Unknown Sender") (lit "Unknown Date") (lit ""))
    = true /\
  parse_section titled_section = inr None /\
  parse_content (lit "EMAIL " ++ titled_section) = [].
Proof. vm_compute. repeat split. Qed.

(** ** The entry point *)

(** What follows a print: the exception the print raised, or [next]. *)
Definition and_then {A : Type} (printed : result unit) (next : result A) : result A :=
  match printed with
  | inl raised => inl raised
  | inr _ => next
  end.

Lemma py_print_error text raised :
  py_print text = inl raised -> exists msg, raised = LibraryError (lit "UnicodeEncodeError") msg.
Proof.
  unfold py_print. destruct (encode_failure 0 text) as [e |] eqn:He; [| discriminate].
  intros H. inversion H; subst. eapply encode_failure_some. exact He.
Qed.


(** A print and what follows it, as statements. *)
Lemma print_then_run {A : Type} (printed : result unit) (k : M A) self tr self' r :
  runs (run (lift printed ;; k) self) tr (self', r) ->
  match printed with
  | inl raised => tr = [] /\ self' = self /\ r = inl raised
  | inr _ => runs (run k self) tr (self', r)
  end.
Proof.
  intros H. apply runs_bind in H. destruct H as (tp & sp & rp & tp' & Hp & -> & H).
  apply lift_run in Hp. destruct Hp as (-> & -> & ->).
  destruct printed as [raised | []]; [| exact H].
  destruct H as (-> & -> & ->). auto.
Qed.

Lemma print_then_runs {A : Type} (printed : result unit) (k : M A) self tr self' r :
  printed = inr tt ->
  runs (run k self) tr (self', r) ->
  runs (run (lift printed ;; k) self) tr (self', r).
Proof.
  intros Hp H. change tr with ([] ++ tr). eapply bind_runs; [| exact H].
  rewrite Hp. cbn. constructor.
Qed.




(** [_save_results] makes one [json.dump] and leaves the instance alone;
    it raises what the print of its handler raises. *)
Lemma save_results_run v path self tr self' r :
  runs (run (_save_results v path) self) tr (self', r) ->
  self' = self /\ exists x, tr = [EDump path v x] /\
  r = match x with
      | Some e => py_print (lit "❌ Error saving results: " ++ exn_message e)
      | None =>
          match py_print (lit "💾 Processed results saved to: " ++ path) with
          | inl e => py_print (lit "❌ Error saving results: " ++ exn_message e)
          | inr _ => inr tt
          end
      end.
Proof.
  intros H. unfold _save_results in H. apply runs_catch in H.
  destruct H as (tr1 & self1 & r1 & tr2 & H1 & -> & H2).
  apply runs_bind in H1. destruct H1 as (ta & sa & ra & tb & Ha & -> & Hb).
  unfold json_dump in Ha. apply runs_bind in Ha.
  destruct Ha as (tc & sc & rc & td & Hc & -> & Hd).
  destruct (@perform_run (JsonDump path v) _ _ _ _ Hc) as (x & -> & -> & ->).
  apply raise_if_run in Hd. destruct Hd as (-> & -> & ->).
  destruct x as [e |].
  - destruct Hb as (-> & -> & ->).
    apply lift_run in H2. destruct H2 as (-> & -> & ->).
    split; [reflexivity |]. exists (Some e). auto.
  - apply lift_run in Hb. destruct Hb as (-> & -> & ->).
    destruct (py_print (lit "💾 Processed results saved to: " ++ path)) as [e | []].
    + apply lift_run in H2. destruct H2 as (-> & -> & ->).
      split; [reflexivity |]. exists None. auto.
    + destruct H2 as (-> & -> & ->). split; [reflexivity |]. exists None. auto.
Qed.

Lemma save_results_error v path self tr self' raised :
  runs (run (_save_results v path) self) tr (self', inl raised) ->
  exists msg, raised = LibraryError (lit "UnicodeEncodeError") msg.
Proof.
  intros H. apply save_results_run in H. destruct H as (_ & x & _ & Hr).
  destruct x as [e |].
  - eapply py_print_error. symmetry. exact Hr.
  - destruct (py_print (lit "💾 Processed results saved to: " ++ path)) as [e | []];
      [| discriminate].
    eapply py_print_error. symmetry. exact Hr.
Qed.

(** The text [process_emails_from_file] prints before its [try] block. *)
Definition batch_announcement (rt : PyRuntime) (emails : list EmailRecord) (provider : str)
  : str :=
  lit "📧 Processing " ++ str_of_len emails ++ lit " emails through "
    ++ str_upper rt provider ++ lit " in batch...".



Definition local_instance : EmailLLMProcessor :=
  Processor (Some (lit "key")) (lit "local") (Tracker 0 0 0 0 0).


Definition one_email_file : str :=
  lit "Extracted" ++ nl ++ lit "EMAIL 1" ++ nl ++ lit "Title: Invoice Due" ++ nl
    ++ lit "From: billing@x.com" ++ nl ++ lit "Date: 2025-01-01" ++ nl
    ++ lit "Content: Pay by Friday" ++ nl.

Definition invoice : EmailRecord :=
  Email (lit "Invoice Due") (lit "billing@x.com") (lit "2025-01-01") (lit "Pay by Friday").

Lemma one_email_file_parsed : parse_content one_email_file = [invoice].
Proof. vm_compute. reflexivity. Qed.

(** The start of a run on an instance with a key: the file is read. *)
Lemma process_runs_from_file rt path out self content tr self' r :
  given (api_key self) = true ->
  runs (run (match parse_content content with
             | [] =>
                 lift (py_print (lit "❌ No emails found in " ++ path)) ;;
                 ret (JList [])
             | _ :: _ =>
                 lift (py_print (batch_announcement rt (parse_content content) (provider self))) ;;
                 catch
                   (comprehensive_analysis <-
                      _process_all_emails_batch rt (parse_content content) ;;
                    match out with
                    | Some file =>
                        when (Py.truthy file) (_save_results comprehensive_analysis file)
                    | None => ret tt
                    end ;;
                    ret comprehensive_analysis)
                   (fun e =>
                      lift (py_print (lit "⚠️ Error processing emails in batch: "
                                        ++ exn_message e)) ;;
                      ret (JList []))
             end) self) tr (self', r) ->
  runs (run (process_emails_from_file rt path out) self)
    (ERead path (inr content) :: tr) (self', r).
Proof.
  intros Hkey Hrun. unfold process_emails_from_file.
  change (ERead path (inr content) :: tr) with ([] ++ [ERead path (inr content)] ++ tr).
  eapply bind_runs; [cbn; constructor |]. rewrite Hkey. simpl negb. cbv iota.
  eapply bind_runs; [apply parse_extracted_file_runs |].
  destruct (parse_content content); exact Hrun.
Qed.

(** A provider the processor does not support: the batch raises before
    anything is sent. *)
Lemma local_batch_raises :
  runs (run (_process_all_emails_batch ascii_runtime [invoice]) local_instance) []
    (local_instance, inl (ValueError (lit "Unsupported provider: " ++ lit "local"))).
Proof.
  unfold _process_all_emails_batch. cbv zeta.
  change (@nil event) with (@nil event ++ []).
  eapply bind_runs; [cbn; constructor |].
  apply print_then_runs; [vm_compute; reflexivity |].
  apply bind_runs_raise.
  apply call_llm_runs. change (provider local_instance) with (lit "local").
  replace (Py.eqb (lit "local") (lit "openai")) with false by (vm_compute; reflexivity).
  replace (Py.eqb (lit "local") (lit "anthropic")) with false by (vm_compute; reflexivity).
  replace (Py.eqb (lit "local") (lit "google")) with false by (vm_compute; reflexivity).
  cbn. constructor.
Qed.


Lemma local_instance_runs :
  runs (run (process_emails_from_file ascii_runtime (lit "mail.txt") None) local_instance)
    [ERead (lit "mail.txt") (inr one_email_file)] (local_instance, inr (JList [])).
Proof.
  apply process_runs_from_file; [reflexivity |].
  rewrite one_email_file_parsed.
  apply print_then_runs; [vm_compute; reflexivity |].
  change (@nil event) with (@nil event ++ []).
  eapply catch_runs_raised.
  - apply bind_runs_raise. exact local_batch_raises.
  - apply print_then_runs; [vm_compute; reflexivity |]. cbn. constructor.
Qed.





(** ** The report *)






(** *** Renderings that exist *)









(* ===================================================================== *)
(** * Further properties of the processor *)
(* ===================================================================== *)

(** ** The admission check, case by case *)

Lemma Qgt_bool_lt (a b : Q) : Qgt_bool a b = true <-> b < a.
Proof.
  unfold Qgt_bool. rewrite negb_true_iff. split.
  - intros H. apply Qnot_le_lt. intros Hle. apply Qle_bool_iff in Hle. congruence.
  - intros H. destruct (Qle_bool a b) eqn:E; [| reflexivity].
    apply Qle_bool_iff in E. exfalso. apply (Qlt_not_le _ _ H). exact E.
Qed.

Lemma Qlt_bool_lt (a b : Q) : Qlt_bool a b = true <-> a < b.
Proof. unfold Qlt_bool. apply (Qgt_bool_lt b a). Qed.

Lemma Qlt_bool_ge (a b : Q) : Qlt_bool a b = false <-> b <= a.
Proof.
  unfold Qlt_bool. rewrite negb_false_iff. apply Qle_bool_iff.
Qed.

Lemma Qge_bool_le (a b : Q) : Qge_bool a b = true <-> b <= a.
Proof. unfold Qge_bool. apply Qle_bool_iff. Qed.

Lemma Qge_bool_lt (a b : Q) : Qge_bool a b = false <-> a < b.
Proof.
  unfold Qge_bool. split.
  - intros H. apply Qnot_le_lt. intros Hle. apply Qle_bool_iff in Hle. congruence.
  - intros H. destruct (Qle_bool b a) eqn:E; [| reflexivity].
    apply Qle_bool_iff in E. exfalso. apply (Qlt_not_le _ _ H). exact E.
Qed.

(** Inside the window the wait for its end is positive. *)
Lemma window_open (d : Q) : Qge_bool d 60 = false -> Qgt_bool (60 - d) 0 = true.
Proof. rewrite Qge_bool_lt, Qgt_bool_lt. intros H. lra. Qed.

(** Every way through [_check_rate_limits]: the run [Hrun] of an instance
    given by its fields is taken apart, one goal for each path, with the
    outcome of each comparison among the hypotheses. *)
Ltac check_cases Hrun :=
  unfold _check_rate_limits in Hrun; cbn in Hrun; run_inv; unfold when in Hrun;
  match type of Hrun with
  | context [Qge_bool ?d 60] =>
      let Hopen := fresh "Hopen" in
      let Hreset := fresh "Hreset" in
      pose proof (@window_open d) as Hopen;
      destruct (Qge_bool d 60) eqn:Hreset; cbn in Hrun;
      [ clear Hopen | specialize (Hopen eq_refl) ]
  end;
  repeat first
    [ progress run_inv
    | match type of Hrun with
      | context [(?a >=? ?b)%Z] => destruct (Z.geb_spec a b); cbn in Hrun
      | context [Qgt_bool ?a ?b] => destruct (Qgt_bool a b) eqn:?; cbn in Hrun
      | context [Qlt_bool ?a ?b] => destruct (Qlt_bool a b) eqn:?; cbn in Hrun
      end ];
  repeat match goal with
         | u : answer (TimeSleep _) |- _ => destruct u
         end;
  try congruence.

Lemma check_rate_limits_room self tr self' :
  runs (run _check_rate_limits self) tr (self', inr tt) ->
  (requests_this_minute (usage_tracker self') < 15)%Z /\
  (tokens_this_minute (usage_tracker self') < 250000)%Z /\
  (requests_today (usage_tracker self') < 1000)%Z.
Proof.
  intros Hrun. destruct self as [key prov [rm tm rt lr ms]].
  check_cases Hrun; cbn; repeat split; lia.
Qed.

Lemma get_usage_status_run self tr self' r :
  runs (run get_usage_status self) tr (self', r) ->
  self' = self /\
  exists now, tr = [ETime now] /\
    r = inr (Status (requests_this_minute (usage_tracker self))
               (tokens_this_minute (usage_tracker self))
               (requests_today (usage_tracker self))
               (Qmax 0 (60 - (now - minute_start_time (usage_tracker self))))
               ((requests_this_minute (usage_tracker self) <? 15)%Z
                && (tokens_this_minute (usage_tracker self) <? 250000)%Z
                && (requests_today (usage_tracker self) <? 1000)%Z)).
Proof.
  intros Hrun. destruct self as [key prov [rm tm rt lr ms]].
  unfold get_usage_status in Hrun. cbn in Hrun. run_inv.
  split; [reflexivity |]. eexists. split; reflexivity.
Qed.

(** X1. When [_check_rate_limits] returns, the three counters are below
    their limits, whatever the clock answered on the way; a call of
    [get_usage_status] made then reports [can_make_request] as true. *)
Theorem admission_leaves_room self tr self' :
  runs (run _check_rate_limits self) tr (self', inr tt) ->
  ((requests_this_minute (usage_tracker self') < requests_per_minute rate_limits_google)%Z /\
   (tokens_this_minute (usage_tracker self') < tokens_per_minute rate_limits_google)%Z /\
   (requests_today (usage_tracker self') < requests_per_day rate_limits_google)%Z) /\
  forall tr2 self2 r,
    runs (run get_usage_status self') tr2 (self2, r) ->
    exists status, r = inr status /\ can_make_request status = true.
Proof.
  intros Hrun. apply check_rate_limits_room in Hrun. destruct Hrun as (Hrm & Htm & Hrt).
  split; [cbn; auto |].
  intros tr2 self2 r Hstatus. apply get_usage_status_run in Hstatus.
  destruct Hstatus as (_ & now & _ & ->). eexists. split; [reflexivity |]. cbn.
  rewrite !andb_true_iff, !Z.ltb_lt. auto.
Qed.

Lemma admission_leaves_room_witness :
  ((requests_this_minute (usage_tracker (google_instance (Tracker 0 0 15 5 60)))
      < requests_per_minute rate_limits_google)%Z /\
   (tokens_this_minute (usage_tracker (google_instance (Tracker 0 0 15 5 60)))
      < tokens_per_minute rate_limits_google)%Z /\
   (requests_today (usage_tracker (google_instance (Tracker 0 0 15 5 60)))
      < requests_per_day rate_limits_google)%Z) /\
  forall tr2 self2 r,
    runs (run get_usage_status (google_instance (Tracker 0 0 15 5 60))) tr2 (self2, r) ->
    exists status, r = inr status /\ can_make_request status = true.
Proof.
  apply (@admission_leaves_room (google_instance (Tracker 15 100 15 5 0))
           [ETime 10; ESleep 50; ETime 60]).
  unfold _check_rate_limits. cbn.
  apply (runs_call TimeTime _ 10). cbn.
  apply (runs_call (TimeSleep _) _ tt). cbn.
  apply (runs_call TimeTime _ 60). cbn. constructor.
Defined.

(** X2. [get_usage_status] reads the clock once and nothing else, never
    raises and leaves the instance as it is. It reports the three counters
    of the tracker; [time_until_minute_reset] is never negative, is zero
    once the window is a minute old and at most 60 when the clock is not
    behind the start of the window; [can_make_request] is true exactly
    when the three counters are below their limits. *)
Theorem usage_status_reports_the_tracker self tr self' r :
  runs (run get_usage_status self) tr (self', r) ->
  self' = self /\
  exists now status,
    tr = [ETime now] /\ r = inr status /\
    status_requests_this_minute status = requests_this_minute (usage_tracker self) /\
    status_tokens_this_minute status = tokens_this_minute (usage_tracker self) /\
    status_requests_today status = requests_today (usage_tracker self) /\
    0 <= time_until_minute_reset status /\
    (60 <= now - minute_start_time (usage_tracker self) ->
       time_until_minute_reset status == 0) /\
    (minute_start_time (usage_tracker self) <= now -> time_until_minute_reset status <= 60) /\
    (can_make_request status = true <->
       (requests_this_minute (usage_tracker self) < requests_per_minute rate_limits_google)%Z /\
       (tokens_this_minute (usage_tracker self) < tokens_per_minute rate_limits_google)%Z /\
       (requests_today (usage_tracker self) < requests_per_day rate_limits_google)%Z).
Proof.
  intros Hrun. apply get_usage_status_run in Hrun. destruct Hrun as (-> & now & -> & ->).
  split; [reflexivity |]. eexists _, _. split; [reflexivity |]. split; [reflexivity |].
  cbn [status_requests_this_minute status_tokens_this_minute status_requests_today
       time_until_minute_reset can_make_request].
  repeat split.
  - apply Q.le_max_l.
  - intros Hold. apply Q.max_l. lra.
  - intros Hclock. apply Q.max_lub; lra.
  - rewrite !andb_true_iff, !Z.ltb_lt in H. cbn. tauto.
  - rewrite !andb_true_iff, !Z.ltb_lt in H. cbn. tauto.
  - rewrite !andb_true_iff, !Z.ltb_lt in H. cbn. tauto.
  - intros (? & ? & ?). rewrite !andb_true_iff, !Z.ltb_lt. cbn in *. tauto.
Qed.

Lemma usage_status_reports_the_tracker_witness :
  exists self' r,
    runs (run get_usage_status (google_instance (Tracker 3 100 7 5 0))) [ETime 20] (self', r) /\
    self' = google_instance (Tracker 3 100 7 5 0) /\
    exists now status,
      [ETime 20] = [ETime now] /\ r = inr status /\
      status_requests_this_minute status = 3%Z /\
      status_tokens_this_minute status = 100%Z /\
      status_requests_today status = 7%Z /\
      0 <= time_until_minute_reset status /\
      (60 <= now - 0 -> time_until_minute_reset status == 0) /\
      (0 <= now -> time_until_minute_reset status <= 60) /\
      (can_make_request status = true <->
         (3 < requests_per_minute rate_limits_google)%Z /\
         (100 < tokens_per_minute rate_limits_google)%Z /\
         (7 < requests_per_day rate_limits_google)%Z).
Proof.
  eexists _, _. split.
  - unfold get_usage_status. cbn. apply (runs_call TimeTime _ 20). cbn. constructor.
  - refine (@usage_status_reports_the_tracker (google_instance (Tracker 3 100 7 5 0))
              [ETime 20] _ _ _).
    unfold get_usage_status. cbn. apply (runs_call TimeTime _ 20). cbn. constructor.
Defined.

(** ** How long the admission check waits *)

Lemma slept_cons_sleep d u tr : slept (Event (TimeSleep d) u :: tr) = d + slept tr.
Proof. reflexivity. Qed.

(** X5. [_check_rate_limits] calls [time.sleep] at most twice, and never
    with a duration that is not positive. When the first reading of the
    clock is not behind the start of the window nor behind the last
    request, no wait is longer than a minute and the check sleeps 64
    seconds at most in all. *)
Theorem admission_waits_are_short self tr self' r :
  runs (run _check_rate_limits self) tr (self', r) ->
  (length (sleeps tr) <= 2)%nat /\
  Forall (fun seconds => 0 < seconds) (sleeps tr) /\
  forall now,
    hd_error (readings tr) = Some now ->
    minute_start_time (usage_tracker self) <= now ->
    last_request_time (usage_tracker self) <= now ->
    Forall (fun seconds => seconds <= 60) (sleeps tr) /\ slept tr <= 64.
Proof.
  intros Hrun. destruct self as [key prov [rm tm rt lr ms]].
  check_cases Hrun;
    repeat match goal with
           | H : Qgt_bool _ _ = true |- _ => apply Qgt_bool_lt in H
           | H : Qlt_bool _ _ = true |- _ => apply Qlt_bool_lt in H
           | H : Qge_bool _ _ = true |- _ => apply Qge_bool_le in H
           | H : Qge_bool _ _ = false |- _ => apply Qge_bool_lt in H
           end;
    (split; [cbn; lia |]);
    (split; [cbn; repeat (constructor; try lra) |]);
    intros now Hnow Hms Hlr; cbn in Hnow; inversion Hnow; subst;
    cbn [minute_start_time last_request_time usage_tracker] in Hms, Hlr;
    (split; [cbn; repeat (constructor; try lra) | unfold slept; cbn; lra]).
Qed.

(** The wait for the request limit: fifteen requests in a window that
    started ten seconds ago. *)
Lemma request_wait_runs lr :
  Qlt_bool (10 - lr) 4 = false ->
  runs (run _check_rate_limits (google_instance (Tracker 15 100 15 lr 0)))
    [ETime 10; ESleep 50; ETime 60] (google_instance (Tracker 0 0 15 lr 60), inr tt).
Proof.
  intros Hdelay. unfold _check_rate_limits. cbn.
  apply (runs_call TimeTime _ 10). cbn.
  apply (runs_call (TimeSleep _) _ tt). cbn.
  apply (runs_call TimeTime _ 60). cbn. rewrite Hdelay. cbn. constructor.
Qed.

(** The same wait two seconds after the last request: two more seconds
    are slept at the end. *)
Lemma two_waits_run :
  runs (run _check_rate_limits (google_instance (Tracker 15 100 15 8 0)))
    [ETime 10; ESleep 50; ETime 60; ESleep 2] (google_instance (Tracker 0 0 15 8 60), inr tt).
Proof.
  unfold _check_rate_limits. cbn.
  apply (runs_call TimeTime _ 10). cbn.
  apply (runs_call (TimeSleep _) _ tt). cbn.
  apply (runs_call TimeTime _ 60). cbn.
  apply (runs_call (TimeSleep _) _ tt). cbn. constructor.
Qed.

Lemma admission_waits_are_short_witness :
  (length (sleeps [ETime 10; ESleep 50; ETime 60; ESleep 2]) <= 2)%nat /\
  Forall (fun seconds => 0 < seconds) (sleeps [ETime 10; ESleep 50; ETime 60; ESleep 2]) /\
  forall now,
    hd_error (readings [ETime 10; ESleep 50; ETime 60; ESleep 2]) = Some now ->
    minute_start_time (usage_tracker (google_instance (Tracker 15 100 15 8 0))) <= now ->
    last_request_time (usage_tracker (google_instance (Tracker 15 100 15 8 0))) <= now ->
    Forall (fun seconds => seconds <= 60) (sleeps [ETime 10; ESleep 50; ETime 60; ESleep 2]) /\
    slept [ETime 10; ESleep 50; ETime 60; ESleep 2] <= 64.
Proof.
  exact (@admission_waits_are_short _ _ _ _ two_waits_run).
Defined.

(** X6. When [_check_rate_limits] returns, the seconds it slept and the
    seconds that lay between the last counted request and its first
    reading of the clock add up to the minimum delay of four seconds at
    least. *)
Theorem admission_keeps_the_minimum_delay self tr self' now :
  runs (run _check_rate_limits self) tr (self', inr tt) ->
  hd_error (readings tr) = Some now ->
  min_delay_between_requests rate_limits_google
    <= (now - last_request_time (usage_tracker self)) + slept tr.
Proof.
  intros Hrun. destruct self as [key prov [rm tm rt lr ms]].
  check_cases Hrun;
    repeat match goal with
           | H : Qgt_bool _ _ = true |- _ => apply Qgt_bool_lt in H
           | H : Qlt_bool _ _ = true |- _ => apply Qlt_bool_lt in H
           | H : Qlt_bool _ _ = false |- _ => apply Qlt_bool_ge in H
           end;
    intros Hnow; cbn in Hnow; inversion Hnow; subst;
    unfold slept; cbn; lra.
Qed.

Lemma admission_keeps_the_minimum_delay_witness :
  min_delay_between_requests rate_limits_google
    <= (10 - last_request_time (usage_tracker (google_instance (Tracker 15 100 15 8 0))))
       + slept [ETime 10; ESleep 50; ETime 60; ESleep 2].
Proof.
  exact (@admission_keeps_the_minimum_delay _ _ _ 10 two_waits_run eq_refl).
Defined.

(** ** The provider calls, answer by answer *)

Lemma posts_app tr1 tr2 : posts (tr1 ++ tr2) = posts tr1 ++ posts tr2.
Proof.
  induction tr1 as [| e tr1 IH]; [reflexivity |].
  simpl. destruct (posted e); rewrite IH; reflexivity.
Qed.

Lemma check_rate_limits_posts self tr self' r :
  runs (run _check_rate_limits self) tr (self', r) -> posts tr = [].
Proof.
  intros Hrun. destruct self as [key prov [rm tm rt lr ms]].
  check_cases Hrun; reflexivity.
Qed.

(** The tail of the three provider calls: the answer is checked and the
    completion text read. *)
Lemma call_openai_outcome prompt self tr self' r :
  runs (run (_call_openai_api prompt) self) tr (self', r) ->
  self' = self /\
  exists q x, tr = [EPost q x] /\ url q = base_url_openai /\ r = outcome x.
Proof.
  intros Hrun. unfold _call_openai_api in Hrun.
  apply runs_bind in Hrun. destruct Hrun as (tg & sg & rg & tg' & Hg & -> & H2).
  apply get_run in Hg. destruct Hg as (-> & -> & ->). cbv zeta in H2.
  apply runs_bind in H2. destruct H2 as (tp & sp & rp & tp' & Hp & -> & H2).
  apply requests_post_run in Hp. destruct Hp as (-> & ->).
  destruct rp as [e | resp].
  - destruct H2 as (-> & -> & ->). split; [reflexivity |].
    eexists _, _. split; [reflexivity |]. split; reflexivity.
  - apply runs_bind in H2. destruct H2 as (tc & sc & rc & tc' & Hc & -> & H2).
    apply raise_if_run in Hc. destruct Hc as (-> & -> & ->).
    destruct (raise_for_status resp) eqn:Hstatus.
    + destruct H2 as (-> & -> & ->). split; [reflexivity |].
      eexists _, _. split; [reflexivity |]. split; [reflexivity |].
      unfold outcome. rewrite Hstatus. reflexivity.
    + apply lift_run in H2. destruct H2 as (-> & -> & ->). split; [reflexivity |].
      eexists _, _. split; [reflexivity |]. split; [reflexivity |].
      unfold outcome. rewrite Hstatus. reflexivity.
Qed.

Lemma call_anthropic_outcome prompt self tr self' r :
  runs (run (_call_anthropic_api prompt) self) tr (self', r) ->
  self' = self /\
  exists q x, tr = [EPost q x] /\ url q = base_url_anthropic /\ r = outcome x.
Proof.
  intros Hrun. unfold _call_anthropic_api in Hrun.
  apply runs_bind in Hrun. destruct Hrun as (tg & sg & rg & tg' & Hg & -> & H2).
  apply get_run in Hg. destruct Hg as (-> & -> & ->). cbv zeta in H2.
  apply runs_bind in H2. destruct H2 as (tp & sp & rp & tp' & Hp & -> & H2).
  apply requests_post_run in Hp. destruct Hp as (-> & ->).
  destruct rp as [e | resp].
  - destruct H2 as (-> & -> & ->). split; [reflexivity |].
    eexists _, _. split; [reflexivity |]. split; reflexivity.
  - apply runs_bind in H2. destruct H2 as (tc & sc & rc & tc' & Hc & -> & H2).
    apply raise_if_run in Hc. destruct Hc as (-> & -> & ->).
    destruct (raise_for_status resp) eqn:Hstatus.
    + destruct H2 as (-> & -> & ->). split; [reflexivity |].
      eexists _, _. split; [reflexivity |]. split; [reflexivity |].
      unfold outcome. rewrite Hstatus. reflexivity.
    + apply lift_run in H2. destruct H2 as (-> & -> & ->). split; [reflexivity |].
      eexists _, _. split; [reflexivity |]. split; [reflexivity |].
      unfold outcome. rewrite Hstatus. reflexivity.
Qed.

(** A call of the [google] variant: the admission check and, when it
    returned, one request; the tracker counts it when the answer was
    accepted, and is left as the check left it otherwise. *)
Lemma call_google_outcome prompt self tr self' r :
  runs (run (_call_google_api prompt) self) tr (self', r) ->
  exists tr1 self1 r1,
    runs (run _check_rate_limits self) tr1 (self1, r1) /\
    match r1 with
    | inl e => tr = tr1 /\ self' = self1 /\ r = inl e
    | inr _ =>
        exists q x, url q = base_url_google /\ r = outcome x /\
          if accepted x
          then exists now,
                 tr = tr1 ++ [EPost q x; ETime now] /\
                 self' = Processor (api_key self1) (provider self1)
                           (Tracker (requests_this_minute (usage_tracker self1) + 1)
                                    (tokens_this_minute (usage_tracker self1) + Py.len prompt / 4)
                                    (requests_today (usage_tracker self1) + 1)
                                    now (minute_start_time (usage_tracker self1)))
          else tr = tr1 ++ [EPost q x] /\ self' = self1
    end.
Proof.
  intros Hrun. unfold _call_google_api in Hrun.
  apply runs_bind in Hrun. destruct Hrun as (tr1 & self1 & r1 & tr2 & H1 & -> & H2).
  exists tr1, self1, r1. split; [exact H1 |].
  destruct r1 as [e | []].
  { destruct H2 as (-> & -> & ->). rewrite app_nil_r. auto. }
  cbv zeta in H2.
  apply runs_bind in H2. destruct H2 as (tg & sg & rg & tg' & Hg & -> & H2).
  apply get_run in Hg. destruct Hg as (-> & -> & ->).
  apply runs_bind in H2. destruct H2 as (tp & sp & rp & tp' & Hp & -> & H2).
  match type of Hp with
  | runs (run (requests_post ?request) _) _ _ => exists request, rp
  end.
  apply requests_post_run in Hp. destruct Hp as (-> & ->).
  split; [reflexivity |].
  destruct rp as [e | resp].
  { destruct H2 as (-> & -> & ->). cbn. auto. }
  apply runs_bind in H2. destruct H2 as (tc & sc & rc & tc' & Hc & -> & H2).
  apply raise_if_run in Hc. destruct Hc as (-> & -> & ->).
  unfold outcome, accepted. destruct (raise_for_status resp).
  { destruct H2 as (-> & -> & ->). auto. }
  apply runs_bind in H2. destruct H2 as (tu & su & ru & tu' & Hu & -> & H2).
  destruct self1 as [key prov [rm tm rt lr ms]].
  unfold _update_usage_tracker in Hu. cbn in Hu. run_inv.
  apply lift_run in H2. destruct H2 as (-> & -> & ->).
  split; [reflexivity |]. eexists. split; reflexivity.
Qed.

(** X4. A call of [_call_google_api] adds one to [requests_today] exactly
    when one request was sent and the provider answered it with a 2xx
    status; the call then returns what reading the completion text gives.
    In every other case -- the admission check raised, the transport
    failed, the status was an error -- the call raises, and
    [requests_today] and [last_request_time] are left as they were. *)
Theorem request_counted_iff_accepted prompt self tr self' r :
  runs (run (_call_google_api prompt) self) tr (self', r) ->
  (exists q x,
     posts tr = [(q, x)] /\ accepted x = true /\ r = outcome x /\
     requests_today (usage_tracker self') = (requests_today (usage_tracker self) + 1)%Z) \/
  ((posts tr = [] \/ exists q x, posts tr = [(q, x)] /\ accepted x = false) /\
   (exists e, r = inl e) /\
   requests_today (usage_tracker self') = requests_today (usage_tracker self) /\
   last_request_time (usage_tracker self') = last_request_time (usage_tracker self)).
Proof.
  intros Hrun. apply call_google_outcome in Hrun.
  destruct Hrun as (tr1 & self1 & r1 & Hcheck & Hrest).
  pose proof (check_rate_limits_posts Hcheck) as Hposts.
  pose proof (check_rate_limits_same Hcheck) as (_ & _ & Hrt & Hlr).
  destruct r1 as [e | []].
  - destruct Hrest as (-> & -> & ->). right. split; [left; exact Hposts |].
    split; [eauto |]. auto.
  - destruct Hrest as (q & x & _ & -> & Hrest).
    destruct (accepted x) eqn:Hacc.
    + destruct Hrest as (now & -> & ->). left. exists q, x.
      rewrite posts_app, Hposts. split; [reflexivity |]. split; [exact Hacc |].
      split; [reflexivity |]. cbn. rewrite Hrt. reflexivity.
    + destruct Hrest as (-> & ->). right. rewrite posts_app, Hposts.
      split; [right; exists q, x; split; [reflexivity | exact Hacc] |].
      split; [| auto].
      unfold accepted in Hacc. unfold outcome. destruct x as [e | resp]; [eauto |].
      destruct (raise_for_status resp); [eauto | discriminate].
Qed.

Lemma request_counted_iff_accepted_witness :
  exists tr self',
    runs (run (_call_google_api (lit "hi")) (google_instance (Tracker 0 0 0 0 0))) tr
      (self', inr (lit "{}")) /\
    ((exists q x,
        posts tr = [(q, x)] /\ accepted x = true /\ (inr (lit "{}") : result str) = outcome x /\
        requests_today (usage_tracker self') = (0 + 1)%Z) \/
     ((posts tr = [] \/ exists q x, posts tr = [(q, x)] /\ accepted x = false) /\
      (exists e, (inr (lit "{}") : result str) = inl e) /\
      requests_today (usage_tracker self') = 0%Z /\
      last_request_time (usage_tracker self') = 0)).
Proof.
  destruct (@call_google_within_minute (Some (lit "key")) (lit "google") 0%Z 0%Z 0%Z 0 0 5
              (lit "hi") (lit "{}") ltac:(lia) ltac:(lia) ltac:(lia) eq_refl eq_refl)
    as (tr & Hrun).
  eexists tr, _. split; [exact Hrun |].
  exact (@request_counted_iff_accepted _ _ _ _ _ Hrun).
Defined.

(** X7. On an instance whose provider is none of [openai], [anthropic]
    and [google] -- the [local] of the constructor's docstring is one --
    [_call_llm_api] raises [ValueError] with the provider's name, without a
    call to the outside world and without touching the instance; so does
    [_process_all_emails_batch], whatever the emails, once it has printed
    the provider's name. *)
Theorem unsupported_provider_is_refused rt prompt emails self tr self' r tr2 self2 r2 :
  provider self <> lit "openai" ->
  provider self <> lit "anthropic" ->
  provider self <> lit "google" ->
  runs (run (_call_llm_api prompt) self) tr (self', r) ->
  runs (run (_process_all_emails_batch rt emails) self) tr2 (self2, r2) ->
  (tr = [] /\ self' = self /\
   r = inl (ValueError (lit "Unsupported provider: " ++ provider self))) /\
  (tr2 = [] /\ self2 = self /\
   r2 = and_then
          (py_print (lit "🔄 Sending batch request to " ++ str_upper rt (provider self)
                       ++ lit "..."))
          (inl (ValueError (lit "Unsupported provider: " ++ provider self)))).
Proof.
  intros Ho Ha Hg Hrun Hbatch.
  assert (Hcall : forall prompt tr self' r,
             runs (run (_call_llm_api prompt) self) tr (self', r) ->
             tr = [] /\ self' = self /\
             r = inl (ValueError (lit "Unsupported provider: " ++ provider self))).
  { clear - Ho Ha Hg. intros prompt tr self' r Hrun. apply call_llm_run in Hrun.
    destruct (Py.eqb (provider self) (lit "openai")) eqn:E1;
      [apply eqb_eq in E1; contradiction |].
    destruct (Py.eqb (provider self) (lit "anthropic")) eqn:E2;
      [apply eqb_eq in E2; contradiction |].
    destruct (Py.eqb (provider self) (lit "google")) eqn:E3;
      [apply eqb_eq in E3; contradiction |].
    apply raise_run in Hrun. exact Hrun. }
  split; [exact (Hcall _ _ _ _ Hrun) |].
  unfold _process_all_emails_batch in Hbatch. cbv zeta in Hbatch.
  apply runs_bind in Hbatch. destruct Hbatch as (tg & sg & rg & tg' & Hget & -> & Hbatch).
  apply get_run in Hget. destruct Hget as (-> & -> & ->).
  apply print_then_run in Hbatch. unfold and_then.
  destruct (py_print _) as [raised | []]; [exact Hbatch |].
  apply runs_bind in Hbatch. destruct Hbatch as (tr1 & self1 & r1 & tr3 & H1 & -> & H2).
  apply Hcall in H1. destruct H1 as (-> & -> & ->).
  destruct H2 as (-> & -> & ->). auto.
Qed.

Lemma unsupported_provider_is_refused_witness :
  (@nil event = [] /\ local_instance = local_instance /\
   (inl (ValueError (lit "Unsupported provider: " ++ lit "local")) : result str)
     = inl (ValueError (lit "Unsupported provider: " ++ provider local_instance))) /\
  (@nil event = [] /\ local_instance = local_instance /\
   (inl (ValueError (lit "Unsupported provider: " ++ lit "local")) : result Json.value)
     = and_then
         (py_print (lit "🔄 Sending batch request to "
                      ++ str_upper ascii_runtime (provider local_instance) ++ lit "..."))
         (inl (ValueError (lit "Unsupported provider: " ++ provider local_instance)))).
Proof.
  assert (Hcall : runs (run (_call_llm_api (lit "hi")) local_instance) []
                    (local_instance,
                     inl (ValueError (lit "Unsupported provider: " ++ lit "local")))).
  { apply call_llm_runs. change (provider local_instance) with (lit "local").
    replace (Py.eqb (lit "local") (lit "openai")) with false by (vm_compute; reflexivity).
    replace (Py.eqb (lit "local") (lit "anthropic")) with false by (vm_compute; reflexivity).
    replace (Py.eqb (lit "local") (lit "google")) with false by (vm_compute; reflexivity).
    cbn. constructor. }
  refine (@unsupported_provider_is_refused ascii_runtime (lit "hi") [invoice] local_instance
            [] local_instance _ [] local_instance _ _ _ _ Hcall local_batch_raises);
    vm_compute; discriminate.
Defined.

(** X8. A call of [_call_llm_api] sends one request at most and never
    sends again after a failure. When a request was sent it went to the URL
    of the instance's provider, and the call ends as the answer has it:
    with the error of the transport, with the error of a status that is no
    2xx, or with what reading the completion text out of the answer gives.
    When none was sent the call raised. *)
Theorem one_request_per_call prompt self tr self' r :
  runs (run (_call_llm_api prompt) self) tr (self', r) ->
  (posts tr = [] /\ exists e, r = inl e) \/
  exists q x,
    posts tr = [(q, x)] /\ r = outcome x /\
    (provider self = lit "openai" /\ url q = base_url_openai \/
     provider self = lit "anthropic" /\ url q = base_url_anthropic \/
     provider self = lit "google" /\ url q = base_url_google).
Proof.
  intros Hrun. apply call_llm_run in Hrun.
  destruct (Py.eqb (provider self) (lit "openai")) eqn:E1.
  { apply eqb_eq in E1. apply call_openai_outcome in Hrun.
    destruct Hrun as (_ & q & x & -> & Hurl & ->). right. exists q, x.
    split; [reflexivity |]. split; [reflexivity |]. left. auto. }
  destruct (Py.eqb (provider self) (lit "anthropic")) eqn:E2.
  { apply eqb_eq in E2. apply call_anthropic_outcome in Hrun.
    destruct Hrun as (_ & q & x & -> & Hurl & ->). right. exists q, x.
    split; [reflexivity |]. split; [reflexivity |]. right. left. auto. }
  destruct (Py.eqb (provider self) (lit "google")) eqn:E3.
  { apply eqb_eq in E3. apply call_google_outcome in Hrun.
    destruct Hrun as (tr1 & self1 & r1 & Hcheck & Hrest).
    pose proof (check_rate_limits_posts Hcheck) as Hposts.
    destruct r1 as [e | []].
    - destruct Hrest as (-> & _ & ->). left. eauto.
    - destruct Hrest as (q & x & Hurl & -> & Hrest). right. exists q, x.
      destruct (accepted x).
      + destruct Hrest as (now & -> & _). rewrite posts_app, Hposts.
        split; [reflexivity |]. split; [reflexivity |]. right. right. auto.
      + destruct Hrest as (-> & _). rewrite posts_app, Hposts.
        split; [reflexivity |]. split; [reflexivity |]. right. right. auto. }
  apply raise_run in Hrun. destruct Hrun as (-> & _ & ->). left. eauto.
Qed.

Lemma one_request_per_call_witness :
  exists q,
    (posts [EPost q ok_response] = [] /\ exists e, (inr (lit "{}") : result str) = inl e) \/
    exists q' x,
      posts [EPost q ok_response] = [(q', x)] /\ (inr (lit "{}") : result str) = outcome x /\
      (provider openai_at_limit = lit "openai" /\ url q' = base_url_openai \/
       provider openai_at_limit = lit "anthropic" /\ url q' = base_url_anthropic \/
       provider openai_at_limit = lit "google" /\ url q' = base_url_google).
Proof.
  destruct openai_at_limit_runs as (q & Hrun). exists q.
  exact (@one_request_per_call _ _ _ _ _ Hrun).
Defined.

(** ** The counters and their limits *)

Lemma limits_kept_refl s : limits_kept s s.
Proof. intros H. exact H. Qed.

Lemma limits_kept_trans a b c : limits_kept a b -> limits_kept b c -> limits_kept a c.
Proof. unfold limits_kept. auto. Qed.

Ltac keep_limits :=
  cbv zeta;
  repeat first
    [ exact limits_kept_trans
    | exact limits_kept_refl
    | apply preserved_tracker
    | apply preserved_datetime_now
    | apply preserved_read_file
    | apply preserved_open_write
    | apply preserved_write_close
    | apply preserved_json_dump
    | apply preserved_attempt
    | apply preserved_lift
    | apply preserved_raise_if
    | apply preserved_bind; [ | | intros ]
    | apply preserved_catch; [ | | intros ]
    | apply preserved_when
    | apply preserved_ret
    | apply preserved_raise
    | apply preserved_get
    | match goal with
      | |- preserved _ (match ?x with _ => _ end) => destruct x
      | |- preserved _ (if ?x then _ else _) => destruct x
      | |- preserved _ (let (_, _) := ?x in _) => destruct x
      end ].

Lemma check_rate_limits_limits : preserved limits_kept _check_rate_limits.
Proof.
  intros self tr self' r Hrun. destruct self as [key prov [rm tm rt lr ms]].
  check_cases Hrun; unfold limits_kept, within_limits; cbn; lia.
Qed.

Lemma call_google_limits prompt : preserved limits_kept (_call_google_api prompt).
Proof.
  intros self tr self' r Hrun. apply call_google_outcome in Hrun.
  destruct Hrun as (tr1 & self1 & r1 & Hcheck & Hrest).
  pose proof (check_rate_limits_limits Hcheck) as Hkept.
  destruct r1 as [e | []].
  - destruct Hrest as (_ & -> & _). exact Hkept.
  - apply check_rate_limits_room in Hcheck. destruct Hcheck as (Hrm & _ & Hrt).
    destruct Hrest as (q & x & _ & _ & Hrest). destruct (accepted x).
    + destruct Hrest as (now & _ & ->). intros _. unfold within_limits. cbn. lia.
    + destruct Hrest as (_ & ->). exact Hkept.
Qed.

Lemma call_llm_limits prompt : preserved limits_kept (_call_llm_api prompt).
Proof.
  intros self tr self' r Hrun. apply call_llm_run in Hrun.
  destruct (Py.eqb (provider self) (lit "openai")).
  { apply call_openai_outcome in Hrun. destruct Hrun as (-> & _). apply limits_kept_refl. }
  destruct (Py.eqb (provider self) (lit "anthropic")).
  { apply call_anthropic_outcome in Hrun. destruct Hrun as (-> & _). apply limits_kept_refl. }
  destruct (Py.eqb (provider self) (lit "google")).
  { eapply call_google_limits. exact Hrun. }
  apply raise_run in Hrun. destruct Hrun as (_ & -> & _). apply limits_kept_refl.
Qed.

Lemma process_all_emails_batch_limits rt emails :
  preserved limits_kept (_process_all_emails_batch rt emails).
Proof.
  unfold _process_all_emails_batch. cbv zeta.
  apply preserved_bind; [exact limits_kept_trans | keep_limits | intros self0].
  apply preserved_bind; [exact limits_kept_trans | keep_limits | intros].
  apply preserved_bind; [exact limits_kept_trans | apply call_llm_limits | intros].
  keep_limits.
Qed.

Lemma process_emails_from_file_limits rt path out :
  preserved limits_kept (process_emails_from_file rt path out).
Proof.
  unfold process_emails_from_file.
  apply preserved_bind; [exact limits_kept_trans | keep_limits | intros self0].
  destruct (negb (given (api_key self0))); [keep_limits |].
  apply preserved_bind; [exact limits_kept_trans | | intros emails].
  { unfold _parse_extracted_file. keep_limits. }
  destruct emails as [| email emails]; [keep_limits |].
  apply preserved_bind; [exact limits_kept_trans | keep_limits | intros].
  apply preserved_catch; [exact limits_kept_trans | | intros; keep_limits].
  apply preserved_bind;
    [exact limits_kept_trans | apply process_all_emails_batch_limits | intros].
  apply preserved_bind; [exact limits_kept_trans | | intros; keep_limits].
  destruct out as [out |]; [| keep_limits].
  apply preserved_when; [exact limits_kept_refl |]. unfold _save_results. keep_limits.
Qed.

Lemma guarded_operation_limits self self' :
  guarded_operation self self' -> limits_kept self self'.
Proof.
  intros Hop. destruct Hop as
    [ self tr self' r H | self tr self' r H | prompt self tr self' r H
    | prompt self tr self' r H | rt emails self tr self' r H
    | rt path out self tr self' r H | rt v path self tr self' r H ].
  - exact (check_rate_limits_limits H).
  - apply get_usage_status_run in H. destruct H as (-> & _). apply limits_kept_refl.
  - eapply call_llm_limits. exact H.
  - eapply call_google_limits. exact H.
  - eapply process_all_emails_batch_limits. exact H.
  - eapply process_emails_from_file_limits. exact H.
  - revert H. generalize self tr self' r.
    change (preserved limits_kept (generate_summary_report rt v path)).
    unfold generate_summary_report, write_report. keep_limits.
Qed.

(** X3. From its construction on, and through any sequence of calls of
    its methods in which the tracker is updated by [_call_google_api] only,
    an instance never counts more than 15 requests in its minute window nor
    more than 1000 requests in all, whatever the clock and the provider
    answer. *)
Theorem counters_stay_within_limits key prov tr0 fresh self :
  runs (__init__ key prov) tr0 fresh ->
  guarded_lifetime fresh self ->
  (requests_this_minute (usage_tracker self) <= 15)%Z /\
  (requests_today (usage_tracker self) <= 1000)%Z.
Proof.
  intros Hinit Hlife.
  assert (Hfresh : within_limits fresh).
  { unfold __init__ in Hinit. run_inv. unfold within_limits. cbn. lia. }
  clear Hinit. induction Hlife as [self | self mid self' Hop _ IH].
  - exact Hfresh.
  - apply IH. exact (guarded_operation_limits Hop Hfresh).
Qed.

Lemma counters_stay_within_limits_witness :
  exists self,
    guarded_lifetime (google_instance (Tracker 0 0 0 0 0)) self /\
    requests_today (usage_tracker self) = 1%Z /\
    (requests_this_minute (usage_tracker self) <= 15)%Z /\
    (requests_today (usage_tracker self) <= 1000)%Z.
Proof.
  destruct (@call_google_within_minute (Some (lit "key")) (lit "google") 0%Z 0%Z 0%Z 0 0 5
              (lit "hi") (lit "{}") ltac:(lia) ltac:(lia) ltac:(lia) eq_refl eq_refl)
    as (tr & Hrun).
  assert (Hlife : guarded_lifetime (google_instance (Tracker 0 0 0 0 0))
                    (google_instance (Tracker (0 + 1) (0 + Py.len (lit "hi") / 4) (0 + 1) 5 0))).
  { eapply rt1n_trans; [| apply rt1n_refl].
    eapply guarded_call_google_api. exact Hrun. }
  eexists. split; [exact Hlife |]. split; [reflexivity |].
  apply (@counters_stay_within_limits (Some (lit "key")) (lit "google") [ETime 0]
           (google_instance (Tracker 0 0 0 0 0))).
  - unfold __init__. apply (runs_call TimeTime _ 0). constructor.
  - exact Hlife.
Defined.

(** ** Searching and splitting strings *)

Lemma startswith_refl pat rest : Py.startswith pat (pat ++ rest) = true.
Proof.
  induction pat as [| p pat IH]; [reflexivity |].
  simpl. rewrite N.eqb_refl. exact IH.
Qed.



Lemma index_of_nil_pattern p pat : Py.index_of (p :: pat) [] = None.
Proof. reflexivity. Qed.


(** A pattern whose first character a text lacks is not found in it, and
    is found after it where it is found in what follows. *)
Lemma index_of_absent p pat s : ~ In p s -> Py.index_of (p :: pat) s = None.
Proof.
  induction s as [| c s IH]; intros Hp; [reflexivity |].
  cbn [Py.index_of Py.startswith].
  assert (Hne : p <> c) by (intros ->; apply Hp; left; reflexivity).
  apply N.eqb_neq in Hne. rewrite Hne. cbn [andb].
  rewrite IH; [reflexivity |]. intros H. apply Hp. right. exact H.
Qed.

Lemma index_of_after p pat l s :
  ~ In p l ->
  Py.index_of (p :: pat) (l ++ s)
    = option_map (fun j => length l + j)%nat (Py.index_of (p :: pat) s).
Proof.
  induction l as [| c l IH]; intros Hp.
  - cbn [app length]. destruct (Py.index_of (p :: pat) s); reflexivity.
  - cbn [app Py.index_of Py.startswith].
    assert (Hne : p <> c) by (intros ->; apply Hp; left; reflexivity).
    apply N.eqb_neq in Hne. rewrite Hne. cbn [andb].
    rewrite IH by (intros H; apply Hp; right; exact H).
    destruct (Py.index_of (p :: pat) s); reflexivity.
Qed.

Lemma index_of_here pat rest : Py.index_of pat (pat ++ rest) = Some 0%nat.
Proof.
  destruct pat as [| p pat]; [destruct rest; reflexivity |].
  cbn [app Py.index_of].
  change (p :: pat ++ rest) with ((p :: pat) ++ rest). rewrite startswith_refl. reflexivity.
Qed.


(** The characters still to be passed over are passed over. *)
Lemma split_go_skip sep : forall s cur k,
  Py.split_go sep s cur k = Py.split_go sep (skipn k s) cur 0.
Proof.
  induction s as [| c s IH]; intros cur k.
  - destruct k; reflexivity.
  - destruct k as [| k]; [reflexivity |]. cbn [Py.split_go skipn]. apply IH.
Qed.

(** A text that lacks the separator is one piece. *)
Lemma split_go_none sep : forall s cur,
  Py.index_of sep s = None -> Py.split_go sep s cur 0 = [rev cur ++ s].
Proof.
  induction s as [| c s IH]; intros cur H.
  - simpl. rewrite app_nil_r. reflexivity.
  - cbn [Py.index_of] in H. cbn [Py.split_go].
    destruct (Py.startswith sep (c :: s)); [discriminate |].
    destruct (Py.index_of sep s); [discriminate |].
    rewrite IH by reflexivity. simpl. rewrite <- app_assoc. reflexivity.
Qed.

(** A text that holds the separator: the piece before its first
    occurrence, and the pieces of what follows the occurrence. *)
Lemma split_go_some sep : forall s cur i,
  sep <> [] -> Py.index_of sep s = Some i ->
  Py.split_go sep s cur 0
    = (rev cur ++ firstn i s) :: Py.split_go sep (skipn (i + length sep) s) [] 0.
Proof.
  induction s as [| c s IH]; intros cur i Hsep H.
  - destruct sep; [congruence | discriminate].
  - cbn [Py.index_of] in H. cbn [Py.split_go].
    destruct (Py.startswith sep (c :: s)).
    + inversion H; subst. cbn [firstn]. rewrite app_nil_r. f_equal.
      rewrite split_go_skip. destruct sep as [| p sep]; [congruence |].
      cbn [length]. rewrite Nat.sub_succ, Nat.sub_0_r. reflexivity.
    + destruct (Py.index_of sep s) as [j |]; [| discriminate]. inversion H; subst.
      rewrite (IH (c :: cur) j Hsep eq_refl). cbn [rev firstn Nat.add skipn].
      rewrite <- app_assoc. reflexivity.
Qed.

Lemma split_none sep s : Py.index_of sep s = None -> Py.split sep s = [s].
Proof. intros H. unfold Py.split. rewrite split_go_none by exact H. reflexivity. Qed.

Lemma split_some sep s i :
  sep <> [] -> Py.index_of sep s = Some i ->
  Py.split sep s = firstn i s :: Py.split sep (skipn (i + length sep) s).
Proof.
  intros Hsep H. unfold Py.split. rewrite (@split_go_some sep s [] i Hsep H). reflexivity.
Qed.

(** The separator found where a text free of it ends. *)
Lemma split_at sep a b :
  sep <> [] -> Py.index_of sep (a ++ sep ++ b) = Some (length a) ->
  Py.split sep (a ++ sep ++ b) = a :: Py.split sep b.
Proof.
  intros Hsep H. rewrite (@split_some sep _ _ Hsep H).
  rewrite firstn_app, firstn_all, Nat.sub_diag. cbn [firstn]. rewrite app_nil_r. f_equal.
  rewrite app_assoc, skipn_app, length_app, Nat.sub_diag. cbn [skipn].
  rewrite skipn_all2 by (rewrite length_app; lia). reflexivity.
Qed.

(** *** Stripping *)

Lemma lstrip_solid c s : Py.isspace c = false -> Py.lstrip (c :: s) = c :: s.
Proof. intros H. simpl. rewrite H. reflexivity. Qed.



Lemma rstrip_solid s c : Py.isspace c = false -> Py.rstrip (s ++ [c]) = s ++ [c].
Proof.
  intros H. unfold Py.rstrip. rewrite rev_app_distr. simpl. rewrite H.
  simpl. rewrite rev_involutive. reflexivity.
Qed.

(** What [lstrip] leaves is empty or starts with a character that is no
    space. *)
Lemma lstrip_head s :
  Py.lstrip s = [] \/ exists c s', Py.lstrip s = c :: s' /\ Py.isspace c = false.
Proof.
  induction s as [| c s IH]; [left; reflexivity |].
  simpl. destruct (Py.isspace c) eqn:Hc; [exact IH |]. right. eauto.
Qed.

Lemma lstrip_idempotent s : Py.lstrip (Py.lstrip s) = Py.lstrip s.
Proof.
  destruct (lstrip_head s) as [-> | (c & s' & -> & Hc)]; [reflexivity |].
  apply lstrip_solid. exact Hc.
Qed.

Lemma rstrip_idempotent s : Py.rstrip (Py.rstrip s) = Py.rstrip s.
Proof.
  unfold Py.rstrip. rewrite rev_involutive, lstrip_idempotent. reflexivity.
Qed.

(** [rstrip] keeps a first character that is no space. *)
Lemma rstrip_keeps_head c s :
  Py.isspace c = false -> exists s', Py.rstrip (c :: s) = c :: s'.
Proof.
  intros Hc. unfold Py.rstrip. simpl rev.
  destruct (@lstrip_app_solid c (rev s) Hc) as (s' & ->).
  rewrite rev_app_distr. simpl. eauto.
Qed.

Lemma strip_idempotent s : Py.strip (Py.strip s) = Py.strip s.
Proof.
  unfold Py.strip.
  destruct (lstrip_head s) as [-> | (c & s' & -> & Hc)]; [reflexivity |].
  destruct (@rstrip_keeps_head c s' Hc) as (s'' & Hr). rewrite Hr.
  rewrite (@lstrip_solid c s'' Hc), <- Hr. apply rstrip_idempotent.
Qed.

Lemma lstrip_chars c : forall s, In c (Py.lstrip s) -> In c s.
Proof.
  induction s as [| b s IH]; [auto |]. simpl.
  destruct (Py.isspace b); [intros H; right; apply IH; exact H | auto].
Qed.

Lemma strip_chars c s : In c (Py.strip s) -> In c s.
Proof.
  unfold Py.strip, Py.rstrip. intros H. apply in_rev in H.
  apply lstrip_chars in H. apply in_rev in H. apply lstrip_chars in H. exact H.
Qed.


(** A text between two characters that are no spaces is left as it is. *)
Lemma strip_solid_ends c s d :
  Py.isspace c = false -> Py.isspace d = false ->
  Py.strip (c :: s ++ [d]) = c :: s ++ [d].
Proof.
  intros Hc Hd. unfold Py.strip. rewrite (@lstrip_solid c (s ++ [d]) Hc).
  change (c :: s ++ [d]) with ((c :: s) ++ [d]). apply rstrip_solid. exact Hd.
Qed.

(** ** The record parser: markers, blanks and defaults *)

Lemma kept_emails_run sections : forall emails,
  parse_sections sections emails = (emails ++ kept_emails sections, None).
Proof.
  induction sections as [| s sections IH]; intros emails; simpl.
  - rewrite app_nil_r. reflexivity.
  - unfold parse_section at 1 2.
    destruct (negb (Py.truthy (Py.strip s))); [rewrite IH; reflexivity |].
    destruct (section_fields_returns s) as (email & ->).
    destruct (appended email).
    + rewrite IH, <- app_assoc. reflexivity.
    + rewrite IH. reflexivity.
Qed.

Lemma parse_content_kept content :
  parse_content content = kept_emails (tl (Py.split (lit "EMAIL ") content)).
Proof. unfold parse_content. cbv zeta. rewrite kept_emails_run. reflexivity. Qed.

Lemma kept_emails_length sections : (length (kept_emails sections) <= length sections)%nat.
Proof.
  induction sections as [| s sections IH]; [simpl; lia |].
  simpl. rewrite length_app.
  destruct (parse_section s) as [e | [email |]]; simpl; lia.
Qed.

(** X11. Only what follows a marker [EMAIL ] is read: a content without
    the marker yields no email, the text before the first marker is
    skipped whatever it holds, and no more emails are returned than the
    content holds markers. *)
Theorem only_marked_sections_are_read :
  (forall content,
     Py.contains (lit "EMAIL ") content = false -> parse_content content = []) /\
  (forall header rest,
     Py.find (lit "EMAIL ") (header ++ lit "EMAIL " ++ rest) = Py.len header ->
     parse_content (header ++ lit "EMAIL " ++ rest) = parse_content (lit "EMAIL " ++ rest)) /\
  (forall content,
     (length (parse_content content) < length (Py.split (lit "EMAIL ") content))%nat).
Proof.
  split; [| split].
  - intros content H. unfold Py.contains in H.
    destruct (Py.index_of (lit "EMAIL ") content) eqn:Hi; [discriminate |].
    rewrite parse_content_kept, split_none by exact Hi. reflexivity.
  - intros header rest H. rewrite !parse_content_kept.
    assert (Hsep : lit "EMAIL " <> []) by (vm_compute; discriminate).
    rewrite (@split_at (lit "EMAIL ") header rest Hsep).
    + pose proof (@split_at (lit "EMAIL ") [] rest Hsep (index_of_here _ _)) as Hhere.
      cbn [app] in Hhere. rewrite Hhere. reflexivity.
    + unfold Py.find, Py.len in H.
      destruct (Py.index_of (lit "EMAIL ") (header ++ lit "EMAIL " ++ rest)); [| lia].
      f_equal. lia.
  - intros content. rewrite parse_content_kept.
    pose proof (split_go_length_pos (lit "EMAIL ") content [] 0) as Hpos.
    unfold Py.split. destruct (Py.split_go (lit "EMAIL ") content [] 0) as [| p rest].
    + simpl in Hpos. lia.
    + simpl. pose proof (kept_emails_length rest). lia.
Qed.

(** What stands before the first occurrence of a character lacks it. *)
Lemma index_of_single_first c : forall s i,
  Py.index_of [c] s = Some i -> ~ In c (firstn i s).
Proof.
  induction s as [| b s IH]; intros i H.
  - simpl in H. discriminate.
  - cbn [Py.index_of] in H. destruct (Py.startswith [c] (b :: s)) eqn:Hs.
    + inversion H; subst. simpl. auto.
    + destruct (Py.index_of [c] s) as [j |] eqn:Hj; [| discriminate].
      inversion H; subst. cbn [firstn]. intros [Hb | Hin].
      * subst b. assert (Py.startswith [c] (c :: s) = true)
          by (apply startswith_single; eauto). congruence.
      * exact (IH j eq_refl Hin).
Qed.

(** The first piece of a text split at a character lacks it. *)
Lemma split_single_head c s piece :
  nth_error (Py.split [c] s) 0 = Some piece -> ~ In c piece.
Proof.
  destruct (Py.index_of [c] s) as [i |] eqn:Hi.
  - rewrite (@split_some [c] s i ltac:(discriminate) Hi). simpl. intros H.
    inversion H; subst. exact (@index_of_single_first c s i Hi).
  - rewrite (@split_none [c] s Hi). simpl. intros H. inversion H; subst.
    apply index_of_single_none. exact Hi.
Qed.

(** The line read after a label, or the default: one line, in which the
    default stands when the label is absent. *)
Lemma labelled_line_one_line label default section line :
  ~ In 10%N default ->
  labelled_line label default section = inr line ->
  ~ In 10%N line /\ (Py.contains label section = false -> line = default).
Proof.
  intros Hdefault H. unfold labelled_line in H.
  destruct (Py.contains label section).
  - split; [| discriminate].
    destruct (getitem (Py.split label section) 1) as [e | after]; [discriminate |].
    unfold getitem in H.
    destruct (nth_error (Py.split nl after) 0) as [piece |] eqn:Hp; [| discriminate].
    inversion H; subst. exact (@split_single_head 10%N after line Hp).
  - inversion H; subst. auto.
Qed.

Lemma content_block_stripped section :
  Py.strip (content_block section) = content_block section /\
  (Py.contains (lit "Content:") section = false ->
   content_block section = lit "No content available").
Proof.
  unfold content_block. destruct (Py.contains (lit "Content:") section).
  - split; [apply strip_idempotent | discriminate].
  - split; [vm_compute; reflexivity | reflexivity].
Qed.

(** What [section_fields] builds, field by field. *)
Lemma section_fields_clean section email :
  section_fields section = inr email ->
  (~ In 10%N (title email) /\ ~ In 10%N (sender email) /\ ~ In 10%N (date email)) /\
  (Py.strip (title email) = title email /\ Py.strip (sender email) = sender email /\
   Py.strip (date email) = date email /\ Py.strip (text email) = text email) /\
  ((Py.contains (lit "Title: ") section = false -> title email = lit "No Subject") /\
   (Py.contains (lit "From: ") section = false -> sender email = lit "Unknown Sender") /\
   (Py.contains (lit "Date: ") section = false -> date email = lit "Unknown Date") /\
   (Py.contains (lit "Content:") section = false -> text email = lit "No content available")).
Proof.
  intros H. unfold section_fields in H.
  destruct (labelled_line (lit "Title: ") (lit "No Subject") section) as [e | t] eqn:Ht;
    [discriminate |].
  destruct (labelled_line (lit "From: ") (lit "Unknown Sender") section) as [e | s] eqn:Hs;
    [discriminate |].
  destruct (labelled_line (lit "Date: ") (lit "Unknown Date") section) as [e | d] eqn:Hd;
    [discriminate |].
  inversion H; subst. cbn [title sender date text].
  apply labelled_line_one_line in Ht; [| vm_compute; intuition discriminate].
  apply labelled_line_one_line in Hs; [| vm_compute; intuition discriminate].
  apply labelled_line_one_line in Hd; [| vm_compute; intuition discriminate].
  destruct Ht as (Ht & Ht'), Hs as (Hs & Hs'), Hd as (Hd & Hd').
  destruct (content_block_stripped section) as (Hc & Hc').
  split; [| split].
  - repeat split; intros Hin; apply strip_chars in Hin; auto.
  - repeat split; try apply strip_idempotent. exact Hc.
  - repeat split.
    + intros Habs. rewrite (Ht' Habs). vm_compute. reflexivity.
    + intros Habs. rewrite (Hs' Habs). vm_compute. reflexivity.
    + intros Habs. rewrite (Hd' Habs). vm_compute. reflexivity.
    + exact Hc'.
Qed.

Lemma kept_emails_in email : forall sections,
  In email (kept_emails sections) ->
  exists section, In section sections /\ parse_section section = inr (Some email).
Proof.
  induction sections as [| s sections IH]; simpl; [intros [] |].
  intros H. apply in_app_or in H. destruct H as [H | H].
  - exists s. split; [left; reflexivity |].
    destruct (parse_section s) as [e | [email' |]]; simpl in H; try contradiction.
    destruct H as [-> | []]. reflexivity.
  - destruct (IH H) as (section & Hin & Hp). exists section. auto.
Qed.

Lemma parse_section_some section email :
  parse_section section = inr (Some email) ->
  section_fields section = inr email /\ appended email = true.
Proof.
  unfold parse_section. destruct (negb (Py.truthy (Py.strip section))); [discriminate |].
  destruct (section_fields section) as [e | email']; [discriminate |].
  destruct (appended email') eqn:Ha; [| discriminate].
  intros H. inversion H; subst. auto.
Qed.

(** X10. Every email [_parse_extracted_file] returns has a title and a
    content that are not empty; its title, sender and date are single
    lines; and none of its four fields has white space around it. *)
Theorem parsed_emails_are_clean content email :
  In email (parse_content content) ->
  (title email <> [] /\ text email <> []) /\
  (~ In 10%N (title email) /\ ~ In 10%N (sender email) /\ ~ In 10%N (date email)) /\
  (Py.strip (title email) = title email /\ Py.strip (sender email) = sender email /\
   Py.strip (date email) = date email /\ Py.strip (text email) = text email).
Proof.
  intros Hin. rewrite parse_content_kept in Hin.
  apply kept_emails_in in Hin. destruct Hin as (section & _ & Hp).
  apply parse_section_some in Hp. destruct Hp as (Hf & Ha).
  apply section_fields_clean in Hf. destruct Hf as (Hlines & Hstrip & _).
  split; [| split; assumption].
  unfold appended in Ha. apply andb_true_iff in Ha. destruct Ha as (Ht & Hc).
  split; intros Habs; rewrite Habs in *; discriminate.
Qed.

Lemma parsed_emails_are_clean_witness :
  (title invoice <> [] /\ text invoice <> []) /\
  (~ In 10%N (title invoice) /\ ~ In 10%N (sender invoice) /\ ~ In 10%N (date invoice)) /\
  (Py.strip (title invoice) = title invoice /\ Py.strip (sender invoice) = sender invoice /\
   Py.strip (date invoice) = date invoice /\ Py.strip (text invoice) = text invoice).
Proof.
  apply (@parsed_emails_are_clean one_email_file invoice).
  rewrite one_email_file_parsed. left. reflexivity.
Defined.

(** X12. A field whose label a section lacks gets its default: [No
    Subject], [Unknown Sender], [Unknown Date], [No content available]. So
    a section that is not blank and holds no label at all is not dropped:
    it yields an email made of the four defaults. *)
Theorem missing_fields_get_defaults section :
  exists email,
    section_fields section = inr email /\
    (Py.contains (lit "Title: ") section = false -> title email = lit "No Subject") /\
    (Py.contains (lit "From: ") section = false -> sender email = lit "Unknown Sender") /\
    (Py.contains (lit "Date: ") section = false -> date email = lit "Unknown Date") /\
    (Py.contains (lit "Content:") section = false -> text email = lit "No content available") /\
    (Py.truthy (Py.strip section) = true ->
     Py.contains (lit "Title: ") section = false ->
     Py.contains (lit "From: ") section = false ->
     Py.contains (lit "Date: ") section = false ->
     Py.contains (lit "Content:") section = false ->
     parse_section section = inr (Some default_email)).
Proof.
  destruct (section_fields_returns section) as (email & Hf). exists email.
  split; [exact Hf |].
  destruct (section_fields_clean _ Hf) as (_ & _ & Ht & Hs & Hd & Hc).
  split; [exact Ht |]. split; [exact Hs |]. split; [exact Hd |]. split; [exact Hc |].
  intros Hblank Ht' Hs' Hd' Hc'.
  assert (Hemail : email = default_email).
  { destruct email as [t s d c]. cbn [title sender date text] in *.
    rewrite (Ht Ht'), (Hs Hs'), (Hd Hd'), (Hc Hc'). reflexivity. }
  subst email.
  unfold parse_section. rewrite Hblank, Hf. reflexivity.
Qed.

(** A file of one line after the marker: no label, one email of defaults. *)
Lemma unlabelled_file_parsed :
  parse_content (lit "EMAIL hello") = [default_email].
Proof. vm_compute. reflexivity. Qed.

(** ** The extracted file, written and read back *)

Lemma contains_false pat s : Py.contains pat s = false <-> Py.index_of pat s = None.
Proof. unfold Py.contains. destruct (Py.index_of pat s); split; congruence. Qed.

Lemma not_in_by_test (c : N) (s : str) : existsb (N.eqb c) s = false -> ~ In c s.
Proof.
  intros H Hin. assert (existsb (N.eqb c) s = true); [| congruence].
  apply existsb_exists. exists c. split; [exact Hin | apply N.eqb_refl].
Qed.











Lemma clip_of_nat n i : Py.clip n (Z.of_nat i) = Nat.min n i.
Proof.
  unfold Py.clip. destruct (Z.ltb_spec (Z.of_nat i) 0); [lia |].
  rewrite Nat2Z.id. reflexivity.
Qed.

(** The middle of a text, cut out by its bounds. *)
Lemma slice_middle a m b :
  Py.slice (Z.of_nat (length a)) (Z.of_nat (length a + length m)) (a ++ m ++ b) = m.
Proof.
  unfold Py.slice. rewrite !clip_of_nat, !length_app.
  rewrite !Nat.min_r by lia.
  replace (length a + length m - length a)%nat with (length m) by lia.
  rewrite skipn_app, skipn_all, Nat.sub_diag. cbn [skipn app].
  rewrite firstn_app, firstn_all, Nat.sub_diag. cbn [firstn]. apply app_nil_r.
Qed.


























(** ** The response parser: a JSON object in prose, and fences *)

Lemma index_of_first p pat a rest :
  ~ In p a -> Py.index_of (p :: pat) (a ++ (p :: pat) ++ rest) = Some (length a).
Proof.
  intros Hp. rewrite (@index_of_after p pat a ((p :: pat) ++ rest) Hp), index_of_here.
  simpl. f_equal. lia.
Qed.

Lemma rindex_of_absent c : forall s, ~ In c s -> Py.rindex_of [c] s = None.
Proof.
  induction s as [| x s IH]; intros Hc; [reflexivity |].
  cbn [Py.rindex_of]. rewrite IH by (intros H; apply Hc; right; exact H).
  cbn [Py.startswith].
  assert (Hne : c <> x) by (intros ->; apply Hc; left; reflexivity).
  apply N.eqb_neq in Hne. rewrite Hne. reflexivity.
Qed.

Lemma rindex_of_last c post : forall a,
  ~ In c post -> Py.rindex_of [c] (a ++ c :: post) = Some (length a).
Proof.
  intros a Hc. induction a as [| x a IH].
  - cbn [app Py.rindex_of]. rewrite (@rindex_of_absent c post Hc).
    cbn [Py.startswith]. rewrite N.eqb_refl. reflexivity.
  - cbn [app Py.rindex_of]. rewrite IH. reflexivity.
Qed.

(** The text from the first opening brace to the last closing brace. *)
Lemma braces_found pre mid post :
  ~ In 123%N pre -> ~ In 125%N post ->
  let response := pre ++ (123%N :: mid ++ [125%N]) ++ post in
  Py.contains (lit "{") response && Py.contains (lit "}") response = true /\
  json_text response = 123%N :: mid ++ [125%N].
Proof.
  intros Hpre Hpost response. unfold json_text. cbv zeta.
  change (lit "{") with [123%N]. change (lit "}") with [125%N].
  assert (Hopen : Py.index_of [123%N] response = Some (length pre)).
  { unfold response. cbn [app].
    exact (@index_of_first 123%N [] pre ((mid ++ [125%N]) ++ post) Hpre). }
  assert (Hclose : Py.rindex_of [125%N] response = Some (length (pre ++ 123%N :: mid))).
  { unfold response.
    replace (pre ++ (123%N :: mid ++ [125%N]) ++ post)
      with ((pre ++ 123%N :: mid) ++ 125%N :: post)
      by (rewrite <- !app_assoc; cbn [app]; rewrite <- !app_assoc; reflexivity).
    apply rindex_of_last. exact Hpost. }
  split.
  - unfold Py.contains. rewrite Hopen.
    destruct (Py.index_of [125%N] response) eqn:Hi; [reflexivity |].
    exfalso. apply index_of_single_none in Hi. apply Hi. unfold response.
    apply in_or_app. right. apply in_or_app. left. right.
    apply in_or_app. right. left. reflexivity.
  - unfold Py.find, Py.rfind. rewrite Hopen, Hclose.
    replace (Z.of_nat (length (pre ++ 123%N :: mid)) + 1)%Z
      with (Z.of_nat (length pre + length (123%N :: mid ++ [125%N]))).
    2:{ rewrite !length_app. cbn [length]. rewrite length_app. cbn [length]. lia. }
    unfold response. rewrite slice_middle.
    apply (@strip_solid_ends 123%N mid 125%N); reflexivity.
Qed.

(** X15. A JSON object that stands in prose is found: when no opening
    brace stands before it, no closing brace after it and the response
    holds no [json] fence, the text [json.loads] is given is the object,
    from the brace that opens it to the brace that closes it, and
    [_parse_batch_response] returns what [json.loads] makes of it, as it
    is; when that text is no JSON it returns the fallback of the handler,
    after the handler's prints; any other exception of [json.loads] leaves
    the method. *)
Theorem json_object_is_found_in_prose rt pre mid post :
  ~ In 123%N pre -> ~ In 125%N post ->
  Py.contains (lit "```json") (pre ++ (123%N :: mid ++ [125%N]) ++ post) = false ->
  let response := pre ++ (123%N :: mid ++ [125%N]) ++ post in
  json_text response = 123%N :: mid ++ [125%N] /\
  _parse_batch_response rt response
    = match json_loads rt (123%N :: mid ++ [125%N]) with
      | inr parsed => inr parsed
      | inl (JSONDecodeError e) =>
          and_then (decode_error_prints response e) (inr (decode_error_handler response e))
      | inl raised => inl raised
      end.
Proof.
  intros Hpre Hpost Hfence response.
  destruct (@braces_found pre mid post Hpre Hpost) as (Hbraces & Hslice).
  fold response in Hbraces, Hslice. split; [exact Hslice |].
  pose proof (parse_batch_response_handled rt response) as Hh. cbv zeta in Hh.
  rewrite (@strip_fences_plain response Hfence) in Hh.
  rewrite (parse_json_object_braces rt _ Hbraces), Hslice in Hh.
  destruct (json_loads rt (123%N :: mid ++ [125%N])) as [[] |]; try exact Hh.
  unfold and_then. destruct (decode_error_prints response msg) as [raised | []]; exact Hh.
Qed.

Lemma json_object_is_found_in_prose_witness :
  json_text (lit "Here you go: " ++ (123%N :: quoted "^a^: 1" ++ [125%N]) ++ lit " Bye.")
    = 123%N :: quoted "^a^: 1" ++ [125%N] /\
  _parse_batch_response ascii_runtime
    (lit "Here you go: " ++ (123%N :: quoted "^a^: 1" ++ [125%N]) ++ lit " Bye.")
    = inr (JDict [(lit "a", JInt 1)]).
Proof.
  apply (@json_object_is_found_in_prose ascii_runtime (lit "Here you go: ") (quoted "^a^: 1")
           (lit " Bye.")).
  - apply not_in_by_test. vm_compute. reflexivity.
  - apply not_in_by_test. vm_compute. reflexivity.
  - vm_compute. reflexivity.
Defined.

Lemma index_of_cons pat c s :
  Py.index_of pat (c :: s)
    = if Py.startswith pat (c :: s) then Some 0%nat else option_map S (Py.index_of pat s).
Proof. reflexivity. Qed.

Lemma startswith_cons p pat c s :
  Py.startswith (p :: pat) (c :: s) = (p =? c)%N && Py.startswith pat s.
Proof. reflexivity. Qed.

Lemma startswith_absent p pat s : ~ In p s -> Py.startswith (p :: pat) s = false.
Proof.
  destruct s as [| c s]; [reflexivity |]. intros Hp. rewrite startswith_cons.
  assert (Hne : p <> c) by (intros ->; apply Hp; left; reflexivity).
  apply N.eqb_neq in Hne. rewrite Hne. reflexivity.
Qed.

(** After a closing fence that [json] does not follow, no opening fence is
    found. *)
Lemma no_second_fence post :
  ~ In 96%N post -> Py.startswith [106; 115; 111; 110]%N post = false ->
  Py.index_of [96; 96; 96; 106; 115; 111; 110]%N (96 :: 96 :: 96 :: post)%N = None.
Proof.
  intros Htick Hjson.
  rewrite index_of_cons, !startswith_cons, Hjson, !N.eqb_refl. cbn [andb].
  rewrite index_of_cons, !startswith_cons, (@startswith_absent 96%N _ post Htick), !N.eqb_refl.
  cbn [andb].
  rewrite index_of_cons, !startswith_cons, (@startswith_absent 96%N _ post Htick), !N.eqb_refl.
  cbn [andb].
  rewrite (@index_of_absent 96%N _ post Htick). reflexivity.
Qed.

Lemma remove_first p pat a rest :
  ~ In p a -> Py.index_of (p :: pat) rest = None ->
  Py.replace (p :: pat) [] (a ++ (p :: pat) ++ rest) = a ++ rest.
Proof.
  intros Ha Hrest. unfold Py.replace.
  rewrite (@split_at (p :: pat) a rest ltac:(discriminate) (@index_of_first p pat a rest Ha)).
  rewrite (@split_none (p :: pat) rest Hrest). reflexivity.
Qed.

(** What is left of a fenced response. *)
Lemma strip_fences_fenced pre inner post :
  ~ In 96%N pre -> ~ In 96%N inner -> ~ In 96%N post ->
  Py.startswith (lit "json") post = false ->
  strip_fences (pre ++ lit "```json" ++ inner ++ lit "```" ++ post) = pre ++ inner ++ post.
Proof.
  intros Hpre Hinner Hpost Hjson. unfold strip_fences.
  change (lit "```json") with [96; 96; 96; 106; 115; 111; 110]%N.
  change (lit "```") with [96; 96; 96]%N. change (lit "") with (@nil N).
  change (lit "json") with [106; 115; 111; 110]%N in Hjson.
  unfold Py.contains.
  rewrite (@index_of_first 96%N [96; 96; 106; 115; 111; 110]%N pre
             (inner ++ [96; 96; 96]%N ++ post) Hpre).
  rewrite (@remove_first 96%N [96; 96; 106; 115; 111; 110]%N pre
             (inner ++ [96; 96; 96]%N ++ post) Hpre).
  - replace (pre ++ inner ++ [96; 96; 96]%N ++ post)
      with ((pre ++ inner) ++ [96; 96; 96]%N ++ post) by (rewrite <- app_assoc; reflexivity).
    rewrite (@remove_first 96%N [96; 96]%N (pre ++ inner) post).
    + rewrite <- app_assoc. reflexivity.
    + intros H. apply in_app_or in H. tauto.
    + apply index_of_absent. exact Hpost.
  - rewrite (@index_of_after 96%N [96; 96; 106; 115; 111; 110]%N inner
               ([96; 96; 96]%N ++ post) Hinner).
    cbn [app]. rewrite (@no_second_fence post Hpost Hjson). reflexivity.
Qed.

(** X16. The markdown fence around a response is not seen by the parser:
    when the response holds an opening [json] fence and a closing fence,
    no other backtick, and [json] does not follow the closing fence,
    [_parse_batch_response] returns what it returns for the response
    without the two fence markers. *)
Theorem fences_are_not_parsed rt pre inner post :
  ~ In 96%N pre -> ~ In 96%N inner -> ~ In 96%N post ->
  Py.startswith (lit "json") post = false ->
  strip_fences (pre ++ lit "```json" ++ inner ++ lit "```" ++ post) = pre ++ inner ++ post /\
  _parse_batch_response rt (pre ++ lit "```json" ++ inner ++ lit "```" ++ post)
    = _parse_batch_response rt (pre ++ inner ++ post).
Proof.
  intros Hpre Hinner Hpost Hjson.
  pose proof (@strip_fences_fenced pre inner post Hpre Hinner Hpost Hjson) as Hfenced.
  split; [exact Hfenced |].
  unfold _parse_batch_response. cbv zeta. rewrite Hfenced.
  rewrite (@strip_fences_plain (pre ++ inner ++ post)); [reflexivity |].
  apply contains_false. change (lit "```json") with [96; 96; 96; 106; 115; 111; 110]%N.
  apply index_of_absent. intros H.
  apply in_app_or in H. destruct H as [H | H]; [tauto |].
  apply in_app_or in H. tauto.
Qed.

Lemma fences_are_not_parsed_witness :
  strip_fences (lit "" ++ lit "```json" ++ (nl ++ lit "{}" ++ nl) ++ lit "```" ++ lit "")
    = lit "" ++ (nl ++ lit "{}" ++ nl) ++ lit "" /\
  _parse_batch_response ascii_runtime
    (lit "" ++ lit "```json" ++ (nl ++ lit "{}" ++ nl) ++ lit "```" ++ lit "")
    = _parse_batch_response ascii_runtime (lit "" ++ (nl ++ lit "{}" ++ nl) ++ lit "").
Proof.
  apply (@fences_are_not_parsed ascii_runtime (lit "") (nl ++ lit "{}" ++ nl) (lit "")).
  - apply not_in_by_test. vm_compute. reflexivity.
  - apply not_in_by_test. vm_compute. reflexivity.
  - apply not_in_by_test. vm_compute. reflexivity.
  - vm_compute. reflexivity.
Defined.
